(** * scripts/summarize_metrics.py: the metrics summariser

    A shallow embedding of [scripts/summarize_metrics.py]: the JSONL reader,
    the run filter, the last-write-wins deduplication, the five category
    gates, the Markdown renderer and the index update, followed by the
    properties of the pipeline.

    Python values are modelled by the type [json] (what [json.loads] can
    return), Python exceptions by the error monad [result], and the files the
    script touches by a finite map from resolved paths to their bytes.  A
    run of [main] gives the files it leaves and the exception it died with,
    if any. *)

From Stdlib Require Import ZArith Lia List Bool Ascii.
From Stdlib Require String.
From Stdlib Require Import Floats.SpecFloat.
From Stdlib Require Import DecimalString.
From Stdlib Require Import Sorting.Sorted.
From stdpp Require Import base option list strings gmap.

Import ListNotations.
Local Open Scope Z_scope.

(** ** Exceptions *)

(** The exceptions the script can die with.  [JSONDecodeError] is the one
    [_read_jsonl] catches; it is a [ValueError] in Python, and kept apart
    from the other [ValueError]s here. *)
Inductive exn : Type :=
| AttributeError
| TypeError
| ValueError
| OverflowError
| RecursionError
| JSONDecodeError
| UnicodeDecodeError
| UnicodeEncodeError.

Inductive result (A : Type) : Type :=
| Ok (a : A)
| Raise (e : exn).
Arguments Ok {A} a.
Arguments Raise {A} e.

Definition rbind {A B} (m : result A) (k : A -> result B) : result B :=
  match m with
  | Ok a => k a
  | Raise e => Raise e
  end.

Notation "'let*' x ':=' m 'in' k" := (rbind m (fun x => k))
  (at level 10, x name, m at level 100, k at level 200).

(** ** Values *)

(** What [json.loads] returns: [None], [bool], [int], [float], [str], [list]
    and [dict] (keys in insertion order).  A [str] is held as the bytes of
    its UTF-8 encoding; a lone surrogate, which a [str] can hold and UTF-8
    cannot, as the three bytes its code point would take. *)
#[warnings="-register-all"]
Inductive json : Type :=
| JNull
| JBool (b : bool)
| JInt (z : Z)
| JFloat (f : spec_float)
| JStr (s : string)
| JArr (items : list json)
| JObj (fields : list (string * json)).

(** ** Text *)

Definition chr (n : nat) : ascii := ascii_of_nat n.
Definition LF : ascii := chr 10.
Definition CR : ascii := chr 13.
Definition nl : string := String LF "".

(** *** UTF-8

    The decoder of a file opened with [encoding="utf-8"] accepts the
    well-formed byte sequences of the Unicode standard and nothing else: no
    overlong form, no surrogate, nothing above U+10FFFF, no sequence cut
    short.  The encoder accepts every [str] but one with a surrogate, so a
    [str] can be written when its bytes are well formed.  [utf8_from need lo
    hi s]: [s] is well formed after a lead byte that asks for [need] more
    bytes, the next of them between [lo] and [hi]. *)
Fixpoint utf8_from (need : nat) (lo hi : N) (s : string) : bool :=
  match s with
  | EmptyString => match need with O => true | S _ => false end
  | String c rest =>
      let b := N_of_ascii c in
      match need with
      | O =>
          if (b <? 128)%N then utf8_from 0 128 191 rest
          else if ((194 <=? b) && (b <=? 223))%N then utf8_from 1 128 191 rest
          else if (b =? 224)%N then utf8_from 2 160 191 rest
          else if (b =? 237)%N then utf8_from 2 128 159 rest
          else if ((225 <=? b) && (b <=? 239))%N then utf8_from 2 128 191 rest
          else if (b =? 240)%N then utf8_from 3 144 191 rest
          else if ((241 <=? b) && (b <=? 243))%N then utf8_from 3 128 191 rest
          else if (b =? 244)%N then utf8_from 3 128 143 rest
          else false
      | S need' =>
          ((lo <=? b) && (b <=? hi))%N && utf8_from need' 128 191 rest
      end
  end.

Definition utf8_valid (s : string) : bool := utf8_from 0 128 191 s.

(** ** The sort of the library *)

Section Order.
Context {A : Type} (ltb : A -> A -> bool).

(** [x] goes in front of the first item that is not below it: items that
    are not below one another keep their order. *)
Fixpoint insert_row (x : A) (sorted : list A) : list A :=
  match sorted with
  | [] => [x]
  | y :: rest => if ltb y x then y :: insert_row x rest else x :: sorted
  end.

(** The items in non-descending order, equal ones in the order they had. *)
Definition stable_sort (l : list A) : list A := foldr insert_row [] l.

(** [<] orders the items of [l] consistently: it is a strict weak order
    on them. *)
Definition consistent (l : list A) : Prop :=
  (forall a b, a ∈ l -> b ∈ l -> ltb a b = true -> ltb b a = false)
  /\ (forall a b c, a ∈ l -> b ∈ l -> c ∈ l ->
        ltb a c = true -> ltb a b = true \/ ltb b c = true).
End Order.

(** ** The library *)

(** The library functions the script calls and this development does not
    define: they are taken as an interface, with what their documentation
    promises. *)
Class PyLib : Type := {
  (** [json.loads]: a value, or [JSONDecodeError] for a text that is not
      JSON, or another exception ([ValueError] for an integer of more
      digits than the interpreter converts, [RecursionError] for a text
      nested too deep). *)
  json_loads : string -> result json;
  (** [json.loads("")] raises [JSONDecodeError]. *)
  json_loads_empty : json_loads "" = Raise JSONDecodeError;
  (** [json.dumps(e, ensure_ascii=False)], of a value [json.loads]
      returned: it raises nothing on one. *)
  json_dumps : json -> string;
  (** [str] of a [float] (its shortest round-trip representation), which
      has ASCII characters only. *)
  float_str : spec_float -> string;
  float_str_encodes : forall f, utf8_valid (float_str f) = true;
  (** [str] of a [list] or a [dict]. *)
  container_str : json -> string;
  (** The lines a text file hands over before its decoder meets bytes that
      are not UTF-8.  The file is decoded a buffer at a time, so these are
      the lines that end before the buffer with the first such byte; where
      the buffers end is up to the system. *)
  lines_before_error : string -> list string;
  (** [list.sort], from the comparison [<] of its items.  It raises what a
      comparison raised; when it ends the list holds the items it held; and
      where [<] never raises and orders the items consistently the sort
      ends, with the items in non-descending order and equal items in the
      order they had.  What it does when [<] is not consistent (a
      not-a-number among the keys) depends on the comparisons it happens to
      make. *)
  list_sort : forall {A : Type}, (A -> A -> result bool) -> list A
              -> result (list A);
  list_sort_raises : forall A (lt : A -> A -> result bool) l x,
    list_sort lt l = Raise x ->
    exists a b, a ∈ l /\ b ∈ l /\ lt a b = Raise x;
  list_sort_permutes : forall A (lt : A -> A -> result bool) l out,
    list_sort lt l = Ok out -> out ≡ₚ l;
  list_sort_orders : forall A (lt : A -> A -> result bool) ltb l,
    (forall a b, a ∈ l -> b ∈ l -> lt a b = Ok (ltb a b)) ->
    consistent ltb l ->
    list_sort lt l = Ok (stable_sort ltb l)
}.

(** Reading in text mode: universal newlines turn each of CR LF and CR into
    LF before the program sees the text. *)
Fixpoint universal_newlines (s : string) : string :=
  match s with
  | EmptyString => ""
  | String c rest =>
      if Ascii.eqb c CR then
        match rest with
        | String d rest' =>
            if Ascii.eqb d LF then String LF (universal_newlines rest')
            else String LF (universal_newlines rest)
        | EmptyString => nl
        end
      else String c (universal_newlines rest)
  end.

(** The lines of a text as iterating over the file yields them: every line
    keeps its LF, the last one may have none. *)
Fixpoint keepends (s : string) : list string :=
  match s with
  | EmptyString => []
  | String c rest =>
      if Ascii.eqb c LF then nl :: keepends rest
      else match keepends rest with
           | [] => [String c ""]
           | l :: ls => String c l :: ls
           end
  end.

Definition text_lines (stored : string) : list string :=
  keepends (universal_newlines stored).

(** The white space [str.strip] removes, on UTF-8 text: the one-byte
    characters U+0009..U+000D and U+001C..U+0020, and the encodings of
    U+0085, U+00A0, U+1680, U+2000..U+200A, U+2028, U+2029, U+202F, U+205F and
    U+3000. *)
Definition ascii_space (b : N) : bool :=
  ((9 <=? b) && (b <=? 13))%N || ((28 <=? b) && (b <=? 32))%N.

(** The number of bytes of the white-space character that [b0 b1 b2] encode,
    0 when they encode none. *)
Definition wide_space (b0 b1 b2 : N) : nat :=
  if ((b0 =? 194) && ((b1 =? 133) || (b1 =? 160)))%N then 2%nat
  else if ((b0 =? 225) && (b1 =? 154) && (b2 =? 128))%N then 3%nat
  else if ((b0 =? 226) && (b1 =? 128)
           && (((128 <=? b2) && (b2 <=? 138))
               || (b2 =? 168) || (b2 =? 169) || (b2 =? 175)))%N then 3%nat
  else if ((b0 =? 226) && (b1 =? 129) && (b2 =? 159))%N then 3%nat
  else if ((b0 =? 227) && (b1 =? 128) && (b2 =? 128))%N then 3%nat
  else 0%nat.

(** The byte at index [i], 256 past the end. *)
Definition byte_at (i : nat) (s : string) : N :=
  match String.get i s with
  | Some c => N_of_ascii c
  | None => 256%N
  end.

(** The number of bytes of the white-space character [s] starts with, 0 when
    it starts with none. *)
Definition space_prefix (s : string) : nat :=
  if ascii_space (byte_at 0 s) then 1%nat
  else wide_space (byte_at 0 s) (byte_at 1 s) (byte_at 2 s).

Fixpoint drop_bytes (n : nat) (s : string) : string :=
  match n, s with
  | S n', String _ s' => drop_bytes n' s'
  | _, _ => s
  end.

(** [str.lstrip]: at most one character is removed per unit of fuel, and a
    string has no more characters than bytes. *)
Fixpoint lstrip_fuel (fuel : nat) (s : string) : string :=
  match fuel with
  | O => s
  | S fuel' =>
      match space_prefix s with
      | O => s
      | k => lstrip_fuel fuel' (drop_bytes k s)
      end
  end.

Definition lstrip (s : string) : string := lstrip_fuel (String.length s) s.

(** [space_suffix r] is [space_prefix] read from the end: [r] is the text
    reversed, byte by byte. *)
Definition space_suffix (r : string) : nat :=
  if ascii_space (byte_at 0 r) then 1%nat
  else if (wide_space (byte_at 1 r) (byte_at 0 r) 256 =? 2)%nat then 2%nat
  else if (wide_space (byte_at 2 r) (byte_at 1 r) (byte_at 0 r) =? 3)%nat
  then 3%nat
  else 0%nat.

Fixpoint rstrip_fuel (fuel : nat) (r : string) : string :=
  match fuel with
  | O => r
  | S fuel' =>
      match space_suffix r with
      | O => r
      | k => rstrip_fuel fuel' (drop_bytes k r)
      end
  end.

Definition string_rev (s : string) : string :=
  String.string_of_list_ascii (rev (String.list_ascii_of_string s)).

Definition rstrip (s : string) : string :=
  string_rev (rstrip_fuel (String.length s) (string_rev s)).

(** [str.strip()]. *)
Definition strip (s : string) : string := rstrip (lstrip s).

(** ** The event source reader *)

Section Reader.
Context `{PyLib}.

(** One turn of the loop of [_read_jsonl]: [out] is the list built so far.
    Only [JSONDecodeError] is caught. *)
Definition read_line (out : list json) (line : string)
  : result (list json) :=
  let line := strip line in
  if String.eqb line "" then Ok out
  else match json_loads line with
       | Ok v => Ok (out ++ [v])
       | Raise JSONDecodeError => Ok out
       | Raise x => Raise x
       end.

(** The loop over the lines the file hands over. *)
Fixpoint read_lines (out : list json) (lines : list string)
  : result (list json) :=
  match lines with
  | [] => Ok out
  | l :: rest =>
      let* out := read_line out l in
      read_lines out rest
  end.

(** [_read_jsonl(path)]: the argument is the bytes of the file, [None] when
    the file does not exist.  Bytes that are not UTF-8 end the loop with
    [UnicodeDecodeError], unless a line handed over before they are met has
    ended it already. *)
Definition _read_jsonl (file : option string) : result (list json) :=
  match file with
  | None => Ok []
  | Some stored =>
      if utf8_valid stored then read_lines [] (text_lines stored)
      else
        let* _ := read_lines [] (lines_before_error stored) in
        Raise UnicodeDecodeError
  end.
End Reader.

(** ** Python operations on values *)

(** A [dict] from [json.loads] has each key once; [dict.get(key)] answers
    [None] for a key that is not there. *)
Abbreviation event := (list (string * json)).

Fixpoint get (e : event) (key : string) : json :=
  match e with
  | [] => JNull
  | (k, v) :: rest => if String.eqb k key then v else get rest key
  end.

(** [v is not None]. *)
Definition is_not_None (v : json) : bool :=
  match v with
  | JNull => false
  | _ => true
  end.

(** [v == s] for a string [s]: only an equal [str] is equal to it. *)
Definition eq_str (v : json) (s : string) : bool :=
  match v with
  | JStr t => String.eqb t s
  | _ => false
  end.

(** [f == 0.0], for the zero of either sign. *)
Definition float_is_zero (f : spec_float) : bool :=
  match f with
  | S754_zero _ => true
  | _ => false
  end.

(** [bool(v)]. *)
Definition truthy (v : json) : bool :=
  match v with
  | JNull => false
  | JBool b => b
  | JInt z => negb (z =? 0)
  | JFloat f => negb (float_is_zero f)
  | JStr s => negb (String.eqb s "")
  | JArr items => match items with [] => false | _ => true end
  | JObj fields => match fields with [] => false | _ => true end
  end.

(** [a or b]. *)
Definition py_or (a b : json) : json := if truthy a then a else b.

(** [str(z)] for an [int]. *)
Definition int_str (z : Z) : string := NilZero.string_of_int (Z.to_int z).

(** [str(v)], which is what an f-string field without a format does. *)
Definition py_str `{PyLib} (v : json) : string :=
  match v with
  | JNull => "None"
  | JBool b => if b then "True" else "False"
  | JInt z => int_str z
  | JFloat f => float_str f
  | JStr s => s
  | JArr _ | JObj _ => container_str v
  end.

(** *** Fixed-point formatting

    [format(x, ".Nf")] prints the decimal with [N] fractional digits that is
    nearest to the exact value of the float, ties going to the even digit. *)

(** [num / den] rounded to the nearest integer, ties to even
    ([0 <= num], [0 < den]). *)
Definition round_half_even (num den : Z) : Z :=
  let q := num / den in
  let r := num mod den in
  match 2 * r ?= den with
  | Lt => q
  | Gt => q + 1
  | Eq => if Z.even q then q else q + 1
  end.

(** [m * 2^e * 10^places] rounded to an integer. *)
Definition scaled (places : nat) (m : positive) (e : Z) : Z :=
  let p10 := 10 ^ Z.of_nat places in
  if 0 <=? e then Z.pos m * 2 ^ e * p10
  else round_half_even (Z.pos m * p10) (2 ^ (- e)).

Definition digit_char (d : Z) : ascii := chr (48 + Z.to_nat d).

(** The last [k] decimal digits of [n]. *)
Fixpoint frac_digits (k : nat) (n : Z) : string :=
  match k with
  | O => ""
  | S k' => frac_digits k' (n / 10) +:+ String (digit_char (n mod 10)) ""
  end.

(** [n / 10^places] written with [places] fractional digits. *)
Definition fixed_text (places : nat) (neg : bool) (n : Z) : string :=
  (if neg then "-" else "")
  +:+ int_str (n / 10 ^ Z.of_nat places)
  +:+ match places with
      | O => ""
      | S _ => "." +:+ frac_digits places n
      end.

Definition float_fixed (places : nat) (f : spec_float) : string :=
  match f with
  | S754_nan => "nan"
  | S754_infinity neg => if neg then "-inf" else "inf"
  | S754_zero neg => fixed_text places neg 0
  | S754_finite neg m e => fixed_text places neg (scaled places m e)
  end.

(** [float(z)] for an [int]: the nearest double, [OverflowError] beyond the
    largest one. *)
Definition float_of_int (z : Z) : result spec_float :=
  match binary_normalize 53 1024 z 0 false with
  | S754_infinity _ => Raise OverflowError
  | f => Ok f
  end.

(** [format(v, ".Nf")], the field [{v:.Nf}] of an f-string. *)
Definition format_f (places : nat) (v : json) : result string :=
  match v with
  | JFloat f => Ok (float_fixed places f)
  | JInt z =>
      let* f := float_of_int z in
      Ok (float_fixed places f)
  | JBool b =>
      let* f := float_of_int (if b then 1 else 0) in
      Ok (float_fixed places f)
  | JStr _ => Raise ValueError
  | JNull | JArr _ | JObj _ => Raise TypeError
  end.

(** *** Equality, hashing and order of scalars *)

(** The exact value of a number: [n * 2^e], an infinity, or not a number. *)
Inductive num : Type :=
| NFin (n e : Z)
| NInf (neg : bool)
| NNaN.

Definition num_of_float (f : spec_float) : num :=
  match f with
  | S754_zero _ => NFin 0 0
  | S754_infinity neg => NInf neg
  | S754_nan => NNaN
  | S754_finite neg m e => NFin (cond_Zopp neg (Z.pos m)) e
  end.

(** [bool] is a subclass of [int]: [True] is 1 and [False] is 0. *)
Definition to_num (v : json) : option num :=
  match v with
  | JBool b => Some (NFin (if b then 1 else 0) 0)
  | JInt z => Some (NFin z 0)
  | JFloat f => Some (num_of_float f)
  | _ => None
  end.

(** [p = odd * 2^k]. *)
Fixpoint odd_part (p : positive) : positive * Z :=
  match p with
  | xO q => let '(o, k) := odd_part q in (o, k + 1)
  | _ => (p, 0)
  end.

(** Every finite value has one normal form: 0 is [NFin 0 0], and otherwise
    [n] is odd. *)
Definition normal (x : num) : num :=
  match x with
  | NFin (Z.pos p) e => let '(o, k) := odd_part p in NFin (Z.pos o) (e + k)
  | NFin (Z.neg p) e => let '(o, k) := odd_part p in NFin (Z.neg o) (e + k)
  | NFin Z0 _ => NFin 0 0
  | _ => x
  end.

(** Python compares an [int] and a [float] by their exact values. *)
Definition num_compare (x y : num) : option comparison :=
  match x, y with
  | NNaN, _ | _, NNaN => None
  | NInf a, NInf b =>
      Some (if a then (if b then Eq else Lt) else (if b then Gt else Eq))
  | NInf a, NFin _ _ => Some (if a then Lt else Gt)
  | NFin _ _, NInf b => Some (if b then Gt else Lt)
  | NFin n1 e1, NFin n2 e2 =>
      let e0 := Z.min e1 e2 in
      Some (n1 * 2 ^ (e1 - e0) ?= n2 * 2 ^ (e2 - e0))
  end.

(** A hashable scalar up to [==]: what a [dict] tells keys apart by.  Equal
    numbers of different types are one key ([1], [1.0] and [True]); the
    not-a-number of [json.loads] is a single object, equal to itself as a
    key. *)
Inductive hkey : Type :=
| KNone
| KStr (s : string)
| KNum (x : num).

#[global] Instance num_eq_dec : EqDecision num.
Proof. solve_decision. Defined.

#[global] Instance hkey_eq_dec : EqDecision hkey.
Proof. solve_decision. Defined.

(** [hash(v)] raises [TypeError] for a [list] and a [dict]. *)
Definition hkey_of (v : json) : result hkey :=
  match v with
  | JNull => Ok KNone
  | JStr s => Ok (KStr s)
  | JBool _ | JInt _ | JFloat _ =>
      match to_num v with
      | Some x => Ok (KNum (normal x))
      | None => Raise TypeError
      end
  | JArr _ | JObj _ => Raise TypeError
  end.

(** [a == b] as a sequence or a [dict] compares its items: the same object
    is equal to itself, so the not-a-number of [json.loads], a single
    object, is; other values are compared by [==], numbers by their exact
    values, a [list] item by item, a [dict] key by key whatever the
    order. *)
Fixpoint py_eq (a b : json) {struct a} : bool :=
  match a, b with
  | JNull, JNull => true
  | JStr s, JStr t => String.eqb s t
  | JArr xs, JArr ys =>
      (fix items (xs ys : list json) : bool :=
         match xs, ys with
         | [], [] => true
         | x :: xs', y :: ys' => py_eq x y && items xs' ys'
         | _, _ => false
         end) xs ys
  | JObj fa, JObj fb =>
      (length fa =? length fb)%nat
      && (fix fields (fa : list (string * json)) : bool :=
            match fa with
            | [] => true
            | (k, v) :: fa' =>
                match List.find (fun kw => String.eqb kw.1 k) fb with
                | Some (_, w) => py_eq v w
                | None => false
                end && fields fa'
            end) fa
  | _, _ =>
      match to_num a, to_num b with
      | Some x, Some y => bool_decide (normal x = normal y)
      | _, _ => false
      end
  end.

(** [a < b]: numbers by their exact values (nothing is below or above a
    not-a-number), a [str] against a [str] by code points, a [list] against
    a [list] by the first items that differ; [TypeError] for [None], for a
    [dict] and for two values of different kinds. *)
Fixpoint py_lt (a b : json) {struct a} : result bool :=
  match a, b with
  | JStr s, JStr t => Ok (String.ltb s t)
  | JArr xs, JArr ys =>
      (fix items (xs ys : list json) : result bool :=
         match xs, ys with
         | [], [] => Ok false
         | [], _ :: _ => Ok true
         | _ :: _, [] => Ok false
         | x :: xs', y :: ys' =>
             if py_eq x y then items xs' ys' else py_lt x y
         end) xs ys
  | _, _ =>
      match to_num a, to_num b with
      | Some x, Some y =>
          Ok (match num_compare x y with
              | Some Lt => true
              | _ => false
              end)
      | _, _ => Raise TypeError
      end
  end.

(** [a < b] for two pairs: the first components that differ decide. *)
Definition tuple_lt (a b : json * json) : result bool :=
  if py_eq a.1 b.1 then
    if py_eq a.2 b.2 then Ok false else py_lt a.2 b.2
  else py_lt a.1 b.1.

(** [rows.sort(key=...)]: the keys are compared, not the rows. *)
Definition py_sort `{PyLib} {A : Type} (key : A -> json * json)
    (rows : list A) : result (list A) :=
  list_sort (fun x y => tuple_lt (key x) (key y)) rows.

(** ** Paths and files *)

(** A resolved path is the list of its components; [p / name] adds one. *)
Abbreviation path := (list string).

Definition path_join (p : path) (name : string) : path := p ++ [name].
Declare Scope path_scope.
Infix "/" := path_join : path_scope.
Delimit Scope path_scope with path.

Fixpoint common_prefix_len (a b : path) : nat :=
  match a, b with
  | x :: a', y :: b' =>
      if String.eqb x y then S (common_prefix_len a' b') else O
  | _, _ => O
  end.

Fixpoint join_components (l : list string) : string :=
  match l with
  | [] => ""
  | [x] => x
  | x :: rest => x +:+ "/" +:+ join_components rest
  end.

(** [os.path.relpath(p, start)] for two resolved paths. *)
Definition relpath (p start : path) : string :=
  let i := common_prefix_len start p in
  let rel_list := repeat ".." (length start - i)%nat ++ drop i p in
  match rel_list with
  | [] => "."
  | _ => join_components rel_list
  end.

(** The files: the bytes of every file that exists.  Directories are not
    modelled, and the system is taken to allow every [mkdir], [open], read
    and write: a read fails only on bytes that are not UTF-8, a write only
    on a [str] that cannot be encoded.  Writing stores the encoded text as
    it is (the line separator of the system is LF); reading goes through
    [universal_newlines]. *)
Abbreviation files := (gmap path string).

(** [p.read_text(encoding="utf-8")] for a file that exists. *)
Definition decode_text (stored : string) : result string :=
  if utf8_valid stored then Ok (universal_newlines stored)
  else Raise UnicodeDecodeError.

(** What a file holds after it was opened for writing and closed again:
    the texts of the [write] calls made meanwhile, one after the other.
    Each of [pieces] is the argument of one call, or the exception raised
    while it was built; the first exception, or the first text that cannot
    be encoded, ends the writing and leaves what was written before it. *)
Fixpoint write_all (pieces : list (result string)) : string * option exn :=
  match pieces with
  | [] => ("", None)
  | Raise x :: _ => ("", Some x)
  | Ok s :: rest =>
      if utf8_valid s then
        let '(text, err) := write_all rest in (s +:+ text, err)
      else ("", Some UnicodeEncodeError)
  end.

(** ** The clock *)

Record utc : Type := {
  year : Z; month : Z; day : Z; hour : Z; minute : Z; second : Z
}.

Fixpoint zeros (n : nat) : string :=
  match n with
  | O => ""
  | S n' => String "0"%char (zeros n')
  end.

Definition zero_pad (width : nat) (s : string) : string :=
  zeros (width - String.length s) +:+ s.

(** [now.strftime("%Y-%m-%dT%H:%M:%SZ")]. *)
Definition strftime (now : utc) : string :=
  zero_pad 4 (int_str (year now)) +:+ "-" +:+ zero_pad 2 (int_str (month now))
  +:+ "-" +:+ zero_pad 2 (int_str (day now)) +:+ "T"
  +:+ zero_pad 2 (int_str (hour now)) +:+ ":"
  +:+ zero_pad 2 (int_str (minute now)) +:+ ":"
  +:+ zero_pad 2 (int_str (second now)) +:+ "Z".

(** ** The pipeline of [main] *)

Definition line (s : string) : string := s +:+ nl.

(** [_safe(s)]. *)
Definition _safe (s : json) : json :=
  if is_not_None s then s else JStr "".

(** [_fmt_ms(v)]. *)
Definition _fmt_ms (v : json) : result string :=
  if is_not_None v then format_f 2 v else Ok "".

(** [_fmt(v, places)]. *)
Definition _fmt (v : json) (places : nat) : result string :=
  if is_not_None v then format_f places v else Ok "".

Record args : Type := {
  run_id : string;
  out_dir : path;
  repo_root : path
}.

Record header : Type := {
  h_runID : string;
  h_count : nat;
  h_generatedUTC : string;
  h_osVersion : json;
  h_arch : json;
  h_firstTimestamp : json
}.

Record perf_row : Type := {
  p_suite : json; p_label : json; p_w : json; p_h : json;
  p_frames : json; p_avgMs : json; p_test : json
}.

Record mem_row : Type := {
  m_suite : json; m_label : json; m_peakRSSDeltaMB : json;
  m_message : json; m_test : json
}.

Record color_row : Type := {
  c_suite : json; c_label : json; c_deltaEAvg : json; c_deltaEMax : json;
  c_worst : json; c_test : json
}.

Record studio_row : Type := {
  s_suite : json; s_label : json; s_meanAbs : json; s_maxAbs : json;
  s_worst : json; s_test : json
}.

Record ocio_row : Type := {
  o_suite : json; o_label : json; o_name : json; o_meanAbs : json;
  o_maxAbs : json; o_test : json
}.

(** The five lists the categorizer appends to. *)
Record rows : Type := {
  perf_rows : list perf_row;
  mem_rows : list mem_row;
  color_rows : list color_row;
  studio_rows : list studio_row;
  ocio_rows : list ocio_row
}.

Definition no_rows : rows :=
  {| perf_rows := []; mem_rows := []; color_rows := [];
     studio_rows := []; ocio_rows := [] |}.

(** *** Run filter *)

(** [[e for e in records if e.get("runID") == run_id]]: a record that is not
    a [dict] has no [get]. *)
Fixpoint run_filter (run_id : string) (records : list json)
  : result (list event) :=
  match records with
  | [] => Ok []
  | JObj e :: rest =>
      let* kept := run_filter run_id rest in
      Ok (if eq_str (get e "runID") run_id then e :: kept else kept)
  | _ :: _ => Raise AttributeError
  end.

(** *** Deduplication *)

Abbreviation probe := (hkey * hkey * hkey * hkey * hkey)%type.

(** The key of [last_by_key], as the [dict] hashes and compares it. *)
Definition probe_key (e : event) : result probe :=
  let* suite := hkey_of (get e "suite") in
  let* label := hkey_of (get e "label") in
  let* width := hkey_of (get e "width") in
  let* height := hkey_of (get e "height") in
  let* test := hkey_of (get e "test") in
  Ok (suite, label, width, height, test).

(** [d[k] = v]: a key that is there keeps its place and takes the new value,
    a new key goes last. *)
Fixpoint dict_set {V} (k : probe) (v : V) (d : list (probe * V))
  : list (probe * V) :=
  match d with
  | [] => [(k, v)]
  | (k', v') :: rest =>
      if bool_decide (k' = k) then (k', v) :: rest
      else (k', v') :: dict_set k v rest
  end.

(** The loop that fills [last_by_key], from the state [d]. *)
Fixpoint dedup_loop (d : list (probe * event)) (events : list event)
  : result (list (probe * event)) :=
  match events with
  | [] => Ok d
  | e :: rest =>
      let* key := probe_key e in
      dedup_loop (dict_set key e d) rest
  end.

Definition last_by_key (events : list event) : result (list (probe * event)) :=
  dedup_loop [] events.

(** [d.values()]. *)
Definition values {V} (d : list (probe * V)) : list V := map snd d.

(** *** Categorization *)

Definition perf_gate (e : event) : bool := is_not_None (get e "avgMs").
Definition mem_gate (e : event) : bool := is_not_None (get e "peakRSSDeltaMB").
Definition color_gate (e : event) : bool :=
  is_not_None (get e "deltaE2000Avg") || is_not_None (get e "deltaE2000Max").
Definition studio_gate (e : event) : bool :=
  is_not_None (get e "lutMeanAbsErr") || is_not_None (get e "lutMaxAbsErr").
Definition ocio_gate (e : event) : bool :=
  is_not_None (get e "ocioBakeMeanAbsErr")
  || is_not_None (get e "ocioBakeMaxAbsErr").

Definition perf_of (e : event) : perf_row :=
  {| p_suite := get e "suite"; p_label := get e "label";
     p_w := get e "width"; p_h := get e "height";
     p_frames := get e "frames"; p_avgMs := get e "avgMs";
     p_test := get e "test" |}.

Definition mem_of (e : event) : mem_row :=
  {| m_suite := get e "suite"; m_label := get e "label";
     m_peakRSSDeltaMB := get e "peakRSSDeltaMB";
     m_message := get e "message"; m_test := get e "test" |}.

Definition color_of (e : event) : color_row :=
  {| c_suite := get e "suite"; c_label := get e "label";
     c_deltaEAvg := get e "deltaE2000Avg";
     c_deltaEMax := get e "deltaE2000Max";
     c_worst := get e "deltaEWorstPatch"; c_test := get e "test" |}.

Definition studio_of (e : event) : studio_row :=
  {| s_suite := get e "suite"; s_label := get e "label";
     s_meanAbs := get e "lutMeanAbsErr"; s_maxAbs := get e "lutMaxAbsErr";
     s_worst := get e "lutWorstPatch"; s_test := get e "test" |}.

Definition ocio_of (e : event) : ocio_row :=
  {| o_suite := get e "suite"; o_label := get e "label";
     o_name := get e "ocioBakeName";
     o_meanAbs := get e "ocioBakeMeanAbsErr";
     o_maxAbs := get e "ocioBakeMaxAbsErr"; o_test := get e "test" |}.

(** [l.append(x)] under [if gate]. *)
Definition append_if {A} (gate : bool) (l : list A) (x : A) : list A :=
  if gate then l ++ [x] else l.

(** The body of the loop over [last_by_key.values()]. *)
Definition categorize_step (acc : rows) (e : event) : rows :=
  {| perf_rows := append_if (perf_gate e) (perf_rows acc) (perf_of e);
     mem_rows := append_if (mem_gate e) (mem_rows acc) (mem_of e);
     color_rows := append_if (color_gate e) (color_rows acc) (color_of e);
     studio_rows := append_if (studio_gate e) (studio_rows acc) (studio_of e);
     ocio_rows := append_if (ocio_gate e) (ocio_rows acc) (ocio_of e) |}.

Definition categorize (survivors : list event) : rows :=
  fold_left categorize_step survivors no_rows.

(** *** Ordering of the rows *)

Definition perf_key (r : perf_row) : json * json :=
  (py_or (p_label r) (JStr ""), py_or (p_h r) (JInt 0)).
Definition mem_key (r : mem_row) : json * json :=
  (py_or (m_label r) (JStr ""), py_or (m_test r) (JStr "")).
Definition color_key (r : color_row) : json * json :=
  (py_or (c_label r) (JStr ""), py_or (c_test r) (JStr "")).
Definition studio_key (r : studio_row) : json * json :=
  (py_or (s_label r) (JStr ""), py_or (s_test r) (JStr "")).
Definition ocio_key (r : ocio_row) : json * json :=
  (_safe (o_name r), py_or (o_test r) (JStr "")).

Definition sort_rows `{PyLib} (rs : rows) : result rows :=
  let* perf := py_sort perf_key (perf_rows rs) in
  let* mem := py_sort mem_key (mem_rows rs) in
  let* color := py_sort color_key (color_rows rs) in
  let* studio := py_sort studio_key (studio_rows rs) in
  let* ocio := py_sort ocio_key (ocio_rows rs) in
  Ok {| perf_rows := perf; mem_rows := mem; color_rows := color;
        studio_rows := studio; ocio_rows := ocio |}.

(** *** Rendering *)

Section Render.
Context `{PyLib}.

(** The local [res] of the Performance loop. *)
Definition perf_res (r : perf_row) : string :=
  if truthy (p_w r) && truthy (p_h r)
  then py_str (p_w r) +:+ "x" +:+ py_str (p_h r)
  else "".

(** A table line from its cells. *)
Fixpoint cells (l : list string) : string :=
  match l with
  | [] => "|" +:+ nl
  | c :: rest => "| " +:+ c +:+ " " +:+ cells rest
  end.

Definition perf_line (r : perf_row) : result string :=
  let* avg := _fmt_ms (p_avgMs r) in
  Ok (cells [py_str (_safe (p_label r)); perf_res r; py_str (p_frames r);
             avg; py_str (_safe (p_suite r)); py_str (_safe (p_test r))]).

Definition mem_line (r : mem_row) : result string :=
  let* peak := _fmt (m_peakRSSDeltaMB r) 3 in
  Ok (cells [py_str (_safe (m_label r)); peak; py_str (_safe (m_message r));
             py_str (_safe (m_suite r)); py_str (_safe (m_test r))]).

Definition color_line (r : color_row) : result string :=
  let* avg := _fmt (c_deltaEAvg r) 4 in
  let* mx := _fmt (c_deltaEMax r) 4 in
  Ok (cells [py_str (_safe (c_label r)); avg; mx; py_str (_safe (c_worst r));
             py_str (_safe (c_suite r)); py_str (_safe (c_test r))]).

Definition studio_line (r : studio_row) : result string :=
  let* mean := _fmt (s_meanAbs r) 8 in
  let* mx := _fmt (s_maxAbs r) 8 in
  Ok (cells [py_str (_safe (s_label r)); mean; mx; py_str (_safe (s_worst r));
             py_str (_safe (s_suite r)); py_str (_safe (s_test r))]).

Definition ocio_line (r : ocio_row) : result string :=
  let* mean := _fmt (o_meanAbs r) 10 in
  let* mx := _fmt (o_maxAbs r) 10 in
  Ok (cells [py_str (_safe (o_name r)); mean; mx;
             py_str (_safe (o_suite r)); py_str (_safe (o_test r))]).

Definition concat_lines (ls : list string) : string :=
  foldr String.append "" ls.

(** The [write] calls of one section: the title, then the placeholder when
    there is no row, else the table, a call per row. *)
Definition section {R} (title placeholder head rule : string)
    (row_line : R -> result string) (rs : list R) : list (result string) :=
  Ok (line title +:+ nl)
  :: match rs with
     | [] => [Ok (line placeholder +:+ nl)]
     | _ => Ok (line head) :: Ok (line rule) :: map row_line rs ++ [Ok nl]
     end.

Definition header_text (h : header) : list (result string) :=
  [Ok (line "# MetaVis Metrics Run" +:+ nl);
   Ok (line ("- runID: `" +:+ h_runID h +:+ "`"));
   Ok (line ("- events: `" +:+ int_str (Z.of_nat (h_count h)) +:+ "`"))]
  ++ (if truthy (h_osVersion h)
      then [Ok (line ("- os: `" +:+ py_str (h_osVersion h) +:+ "`"))]
      else [])
  ++ (if truthy (h_arch h)
      then [Ok (line ("- arch: `" +:+ py_str (h_arch h) +:+ "`"))]
      else [])
  ++ (if truthy (JStr (h_generatedUTC h))
      then [Ok (line ("- generatedUTC: `" +:+ h_generatedUTC h +:+ "`"))]
      else [])
  ++ [Ok nl].

Definition perf_section : list perf_row -> list (result string) :=
  section "## Performance" "(no perf events found for this run)"
    "| label | res | frames | avgMs | suite | test |"
    "|---|---:|---:|---:|---|---|" perf_line.

Definition mem_section : list mem_row -> list (result string) :=
  section "## Memory" "(no memory events found for this run)"
    "| label | peakRSSDeltaMB | message | suite | test |"
    "|---|---:|---|---|---|" mem_line.

Definition color_section : list color_row -> list (result string) :=
  section "## Color (ΔE2000)" "(no ΔE events found for this run)"
    "| label | ΔE avg | ΔE max | worst | suite | test |"
    "|---|---:|---:|---|---|---|" color_line.

Definition studio_section : list studio_row -> list (result string) :=
  section "## Studio LUT Reference Match"
    "(no Studio LUT match events found for this run)"
    "| label | meanAbsErr | maxAbsErr | worst | suite | test |"
    "|---|---:|---:|---|---|---|" studio_line.

Definition ocio_section : list ocio_row -> list (result string) :=
  section "## OCIO Re-bake Match"
    "(no OCIO bake match events found for this run)"
    "| name | meanAbsErr | maxAbsErr | suite | test |"
    "|---|---:|---:|---|---|" ocio_line.

Definition files_section (rel_events rel_summary : string)
  : list (result string) :=
  [Ok (line "## Files" +:+ nl);
   Ok (line ("- events: `" +:+ rel_events +:+ "`"));
   Ok (line ("- summary: `" +:+ rel_summary +:+ "`"))].

(** The [write] calls on [summary.md], in order. *)
Definition summary_text (h : header) (rs : rows)
    (rel_events rel_summary : string) : list (result string) :=
  header_text h
  ++ perf_section (perf_rows rs)
  ++ mem_section (mem_rows rs)
  ++ color_section (color_rows rs)
  ++ studio_section (studio_rows rs)
  ++ ocio_section (ocio_rows rs)
  ++ files_section rel_events rel_summary.

(** The [write] calls on [events.jsonl], one per event. *)
Definition events_lines (events : list event) : list (result string) :=
  map (fun e => Ok (line (json_dumps (JObj e)))) events.

(** Everything written to [events.jsonl] when every line can be encoded. *)
Definition events_text (events : list event) : string :=
  concat_lines (map (fun e => line (json_dumps (JObj e))) events).
End Render.

(** *** Index update *)

(** [needle in hay]. *)
Fixpoint contains (needle hay : string) : bool :=
  String.prefix needle hay
  || match hay with
     | EmptyString => false
     | String _ rest => contains needle rest
     end.

(** [s.split(sep, 1)] for a non-empty [sep]: [[s]] when [sep] does not occur,
    else what is before and what is after its first occurrence. *)
Fixpoint split1 (sep s : string) : list string :=
  if String.prefix sep s then [""; drop_bytes (String.length sep) s]
  else match s with
       | EmptyString => [s]
       | String c rest =>
           match split1 sep rest with
           | [head; tail] => [String c head; tail]
           | _ => [s]
           end
       end.

Definition runs_marker : string := line "## Runs" +:+ nl.

Definition index_preamble : string :=
  line "# Metrics Runs" +:+ nl
  +:+ line "Each run is stored under `test_outputs/metrics/<runID>/`." +:+ nl
  +:+ line "Run with: `scripts/run_metrics.sh`" +:+ nl
  +:+ runs_marker.

Definition index_line (run : string) (rel_run : string) : string :=
  line ("- `" +:+ run +:+ "`: `" +:+ rel_run +:+ "/summary.md`").

(** What is written when the entry is not in the index: the entry goes right
    after the marker, or last when there is no marker. *)
Definition with_entry (existing entry : string) : string :=
  match split1 runs_marker existing with
  | [head; rest] => head +:+ runs_marker +:+ entry +:+ rest
  | _ => existing +:+ nl +:+ entry
  end.

(** The text of the index after the update, from the text that was read. *)
Definition update_index (existing entry : string) : string :=
  if negb (contains entry existing) then with_entry existing entry
  else existing.

(** *** [main] *)

Section Main.
Context `{PyLib}.

Definition perf_jsonl (a : args) : path :=
  (repo_root a / "test_outputs" / "perf" / "perf.jsonl")%path.
Definition events_jsonl (a : args) : path := (out_dir a / "events.jsonl")%path.
Definition summary_md (a : args) : path := (out_dir a / "summary.md")%path.
Definition metrics_root (a : args) : path :=
  (repo_root a / "test_outputs" / "metrics")%path.
Definition index_md (a : args) : path := (metrics_root a / "README.md")%path.

(** The events of the run: the filtered log. *)
Definition run_events (a : args) (fs : files) : result (list event) :=
  let* records := _read_jsonl (fs !! perf_jsonl a) in
  run_filter (run_id a) records.

Definition first_field (events : list event) (key : string) : json :=
  match events with
  | e :: _ => get e key
  | [] => JNull
  end.

Definition make_header (a : args) (now : utc) (events : list event)
  : header :=
  {| h_runID := run_id a;
     h_count := length events;
     h_generatedUTC := strftime now;
     h_osVersion := first_field events "osVersion";
     h_arch := first_field events "processArch";
     h_firstTimestamp := first_field events "timestampISO8601" |}.

(** The five sorted lists of rows, from the events of the run. *)
Definition tables (events : list event) : result rows :=
  let* d := last_by_key events in
  sort_rows (categorize (values d)).

(** The [write] calls on [summary.md] for the events of a run and their
    sorted rows. *)
Definition report (a : args) (now : utc) (events : list event) (rs : rows)
  : list (result string) :=
  summary_text (make_header a now events) rs
    (relpath (events_jsonl a) (repo_root a))
    (relpath (summary_md a) (repo_root a)).

Definition index_entry (a : args) : string :=
  index_line (run_id a) (relpath (out_dir a) (metrics_root a)).

(** [p.write_text(text, encoding="utf-8")]: the file is opened, which
    empties it, before the text is encoded. *)
Definition write_text (fs : files) (p : path) (text : string)
  : files * option exn :=
  let '(written, err) := write_all [Ok text] in (<[p := written]> fs, err).

(** The index step: the file is created when it is missing, then read, and
    written only when the entry is not in it. *)
Definition index_step (a : args) (fs : files) : files * option exn :=
  let fs := match fs !! index_md a with
            | Some _ => fs
            | None => <[index_md a := index_preamble]> fs
            end in
  let entry := index_entry a in
  match decode_text (default "" (fs !! index_md a)) with
  | Raise x => (fs, Some x)
  | Ok existing =>
      if negb (contains entry existing)
      then write_text fs (index_md a) (with_entry existing entry)
      else (fs, None)
  end.

(** [main()], with the parsed arguments, the clock it reads and the files
    it finds.  The result is the files it leaves and the exception it dies
    with, [None] for a run that ends.  The three lines it prints at the end
    are not modelled. *)
Definition main (a : args) (now : utc) (fs : files) : files * option exn :=
  match run_events a fs with
  | Raise x => (fs, Some x)
  | Ok events =>
      let '(text, err) := write_all (events_lines events) in
      let fs := <[events_jsonl a := text]> fs in
      match err with
      | Some x => (fs, Some x)
      | None =>
          match tables events with
          | Raise x => (fs, Some x)
          | Ok rs =>
              let '(text, err) := write_all (report a now events rs) in
              let fs := <[summary_md a := text]> fs in
              match err with
              | Some x => (fs, Some x)
              | None => index_step a fs
              end
          end
      end
  end.
End Main.

(** ** Vocabulary of the statements *)

#[global] Instance exn_eq_dec : EqDecision exn.
Proof. solve_decision. Defined.

#[global] Instance result_eq_dec {A} `{EqDecision A} : EqDecision (result A).
Proof. solve_decision. Defined.

(** [x] occurs in [s]. *)
Definition Substring (x s : string) : Prop :=
  exists before after, s = before +:+ x +:+ after.

(** No carriage return in [s]. *)
Fixpoint no_cr (s : string) : bool :=
  match s with
  | EmptyString => true
  | String c rest => negb (Ascii.eqb c CR) && no_cr rest
  end.

(** A text of ASCII characters. *)
Fixpoint is_ascii (s : string) : bool :=
  match s with
  | EmptyString => true
  | String c rest => (N_of_ascii c <? 128)%N && is_ascii rest
  end.

(** A piece that [write_all] writes: a text that can be encoded. *)
Definition written_piece (p : result string) : bool :=
  match p with
  | Ok s => utf8_valid s
  | Raise _ => false
  end.

(** The texts among the pieces. *)
Definition texts_of (pieces : list (result string)) : list string :=
  omap (fun p => match p with Ok s => Some s | Raise _ => None end) pieces.

(** The record of a line, when [json.loads] returns one for it. *)
Definition record_of `{PyLib} (l : string) : option json :=
  match json_loads (strip l) with
  | Ok v => Some v
  | Raise _ => None
  end.

(** What the reader is to return for the lines of a file: the records of
    the lines that parse, in the order of the lines. *)
Definition parsed_lines `{PyLib} (lines : list string) : list json :=
  omap record_of lines.

(** A line the loop of the reader gets over: [json.loads] returns a value
    for it, or raises [JSONDecodeError]. *)
Definition readable `{PyLib} (l : string) : Prop :=
  forall x, json_loads (strip l) = Raise x -> x = JSONDecodeError.

(** The event of [events] with probe key [k] that comes last in the log. *)
Definition latest (k : probe) (events : list event) : option event :=
  last (filter (fun e => probe_key e = Ok k) events).

(** An event whose only measurement is [avgMs]. *)
Definition only_avgMs (e : event) : Prop :=
  get e "avgMs" <> JNull
  /\ get e "peakRSSDeltaMB" = JNull
  /\ get e "deltaE2000Avg" = JNull /\ get e "deltaE2000Max" = JNull
  /\ get e "lutMeanAbsErr" = JNull /\ get e "lutMaxAbsErr" = JNull
  /\ get e "ocioBakeMeanAbsErr" = JNull /\ get e "ocioBakeMaxAbsErr" = JNull.

Definition is_digit (c : ascii) : bool :=
  (48 <=? nat_of_ascii c)%nat && (nat_of_ascii c <=? 57)%nat.

Fixpoint all_digits (s : string) : bool :=
  match s with
  | EmptyString => true
  | String c rest => is_digit c && all_digits rest
  end.

(** [s] is a decimal with exactly [k] digits after the point. *)
Definition has_places (k : nat) (s : string) : Prop :=
  exists int_part frac_part,
    s = int_part +:+ "." +:+ frac_part
    /\ String.length frac_part = k
    /\ all_digits frac_part = true.

Definition finite_float (f : spec_float) : bool :=
  match f with
  | S754_zero _ | S754_finite _ _ _ => true
  | _ => false
  end.

(** A JSON number with a finite value as a [float]. *)
Definition finite_number (v : json) : bool :=
  match v with
  | JFloat f => finite_float f
  | JInt z =>
      match float_of_int z with
      | Ok f => finite_float f
      | Raise _ => false
      end
  | _ => false
  end.

(** A numeric field of a row: absent, or a finite number. *)
Definition absent_or_finite (v : json) : Prop :=
  v = JNull \/ finite_number v = true.

(** A numeric cell of a table: empty for an absent value, else a decimal with
    [k] fractional digits. *)
Definition numeric_cell (k : nat) (v : json) (s : string) : Prop :=
  if is_not_None v then has_places k s /\ format_f k v = Ok s else s = "".

(** [v == 0]. *)
Definition equals_zero (v : json) : Prop :=
  exists x, to_num v = Some x /\ normal x = NFin 0 0.





(** The stored text of the index after the index step, from the stored text
    before it ([None] for a missing file): the file keeps its text when the
    entry is in what is read from it. *)
Definition index_after (stored : option string) (entry : string) : string :=
  let stored := default index_preamble stored in
  let existing := universal_newlines stored in
  if contains entry existing then stored else with_entry existing entry.

(** The line of the header that carries the time of the run. *)
Definition utc_line (now : utc) : string :=
  line ("- generatedUTC: `" +:+ strftime now +:+ "`").

(** A finite number in normal form: zero, or an odd multiple of a power of
    two. *)
Definition is_normal (n e : Z) : Prop :=
  (n = 0 /\ e = 0) \/ Z.odd n = true.

(** ** A sort that keeps the promises of [list.sort]

    An insertion sort, which stops at the first comparison that raises: the
    library interface can be met. *)
Section InsertionSort.
Context {A : Type} (lt : A -> A -> result bool).

Fixpoint insert_by (x : A) (sorted : list A) : result (list A) :=
  match sorted with
  | [] => Ok [x]
  | y :: rest =>
      let* below := lt y x in
      if below : bool then
        let* rest' := insert_by x rest in
        Ok (y :: rest')
      else Ok (x :: sorted)
  end.

Fixpoint sort_by (l : list A) : result (list A) :=
  match l with
  | [] => Ok []
  | x :: rest =>
      let* sorted := sort_by rest in
      insert_by x sorted
  end.

Lemma insert_by_permutes (x : A) (sorted out : list A) :
  insert_by x sorted = Ok out -> out ≡ₚ x :: sorted.
Proof.
  revert out. induction sorted as [|y rest IH]; intros out; cbn [insert_by].
  - now intros [= <-].
  - destruct (lt y x) as [[|]|]; cbn [rbind]; [|now intros [= <-]|discriminate].
    destruct (insert_by x rest) as [rest'|]; cbn [rbind]; [|discriminate].
    intros [= <-]. rewrite (IH rest' eq_refl). apply Permutation_swap.
Qed.

Lemma sort_by_permutes (l out : list A) : sort_by l = Ok out -> out ≡ₚ l.
Proof.
  revert out. induction l as [|x rest IH]; intros out; cbn [sort_by].
  - now intros [= <-].
  - destruct (sort_by rest) as [sorted|]; cbn [rbind]; [|discriminate].
    intros Hout. rewrite (insert_by_permutes _ _ _ Hout).
    now rewrite (IH sorted eq_refl).
Qed.

Lemma insert_by_raises (x : A) (sorted : list A) (e : exn) :
  insert_by x sorted = Raise e -> exists y, y ∈ sorted /\ lt y x = Raise e.
Proof.
  induction sorted as [|y rest IH]; cbn [insert_by]; [discriminate|].
  destruct (lt y x) as [[|]|e'] eqn:Hlt; cbn [rbind].
  - destruct (insert_by x rest) as [rest'|e'']; cbn [rbind]; [discriminate|].
    intros [= ->]. destruct (IH eq_refl) as (z & Hz & Hraise).
    exists z. split; [now apply list_elem_of_further|assumption].
  - discriminate.
  - intros [= ->]. exists y. split; [apply list_elem_of_here|assumption].
Qed.

Lemma sort_by_raises (l : list A) (e : exn) :
  sort_by l = Raise e -> exists a b, a ∈ l /\ b ∈ l /\ lt a b = Raise e.
Proof.
  induction l as [|x rest IH]; cbn [sort_by]; [discriminate|].
  destruct (sort_by rest) as [sorted|e'] eqn:Hrest; cbn [rbind].
  - intros Hraise. destruct (insert_by_raises _ _ _ Hraise) as (y & Hy & Hlt).
    exists y, x. split; [|split; [apply list_elem_of_here|assumption]].
    apply list_elem_of_further.
    now rewrite <- (sort_by_permutes _ _ Hrest).
  - intros [= ->]. destruct (IH eq_refl) as (a & b & Ha & Hb & Hlt).
    exists a, b. split; [|split]; [now apply list_elem_of_further..|assumption].
Qed.

Lemma insert_by_orders (ltb : A -> A -> bool) (x : A) (sorted : list A) :
  (forall y, y ∈ sorted -> lt y x = Ok (ltb y x)) ->
  insert_by x sorted = Ok (insert_row ltb x sorted).
Proof.
  induction sorted as [|y rest IH]; intros Hlt; [reflexivity|].
  cbn [insert_by insert_row]. rewrite (Hlt y) by apply list_elem_of_here.
  cbn [rbind]. destruct (ltb y x); [|reflexivity].
  rewrite IH; [reflexivity|].
  intros z Hz. apply Hlt. now apply list_elem_of_further.
Qed.

Lemma stable_sort_permutes (ltb : A -> A -> bool) (l : list A) :
  stable_sort ltb l ≡ₚ l.
Proof.
  induction l as [|x rest IH]; [reflexivity|].
  cbn [stable_sort foldr]. fold (stable_sort ltb rest).
  rewrite <- IH at 2. generalize (stable_sort ltb rest). clear IH.
  intros sorted. induction sorted as [|y sorted IH]; [reflexivity|].
  cbn [insert_row]. destruct (ltb y x); [|reflexivity].
  rewrite IH. apply Permutation_swap.
Qed.

Lemma sort_by_orders (ltb : A -> A -> bool) (l : list A) :
  (forall a b, a ∈ l -> b ∈ l -> lt a b = Ok (ltb a b)) ->
  consistent ltb l ->
  sort_by l = Ok (stable_sort ltb l).
Proof.
  intros Hlt _. induction l as [|x rest IH]; [reflexivity|].
  cbn [sort_by stable_sort foldr]. fold (stable_sort ltb rest).
  rewrite IH.
  - cbn [rbind]. apply insert_by_orders. intros y Hy. apply Hlt.
    + apply list_elem_of_further.
      now rewrite <- (stable_sort_permutes ltb rest).
    + apply list_elem_of_here.
  - intros a b Ha Hb. apply Hlt; now apply list_elem_of_further.
Qed.
End InsertionSort.

(** ** A sample log

    The library interface restricted to a handful of events: enough to run
    the pipeline on concrete files. *)
Module Sample.

#[global] Instance spec_float_eq_dec : EqDecision spec_float.
Proof. solve_decision. Defined.

(** The doubles nearest to 12.3 and to 0.1. *)
Definition f12_3 : spec_float := S754_finite false 6924284427082138 (-49).
Definition f0_1 : spec_float := S754_finite false 7205759403792794 (-56).

Definition float_text (f : spec_float) : string :=
  if decide (f = f12_3) then "12.3"
  else if decide (f = f0_1) then "0.1"
  else "nan".

Definition dq : string := String (chr 34) "".
Definition quoted (s : string) : string := dq +:+ s +:+ dq.

Definition dump_scalar (v : json) : string :=
  match v with
  | JNull => "null"
  | JBool b => if b then "true" else "false"
  | JInt z => int_str z
  | JFloat f => float_text f
  | JStr s => quoted s
  | JArr _ | JObj _ => ""
  end.

Fixpoint dump_fields (fields : list (string * json)) : string :=
  match fields with
  | [] => ""
  | [(k, v)] => quoted k +:+ ": " +:+ dump_scalar v
  | (k, v) :: rest =>
      quoted k +:+ ": " +:+ dump_scalar v +:+ ", " +:+ dump_fields rest
  end.

(** [json.dumps] on scalars and on objects of scalars whose strings need
    no escape. *)
Definition dumps (v : json) : string :=
  match v with
  | JObj fields => "{" +:+ dump_fields fields +:+ "}"
  | _ => dump_scalar v
  end.

Definition blur_old : event :=
  [("runID", JStr "A"); ("suite", JStr "RenderPerfTests");
   ("label", JStr "blur"); ("width", JInt 1920); ("height", JInt 1080);
   ("test", JStr "testBlur"); ("frames", JInt 120); ("avgMs", JInt 15)].

Definition blur_new : event :=
  [("runID", JStr "A"); ("suite", JStr "RenderPerfTests");
   ("label", JStr "blur"); ("width", JInt 1920); ("height", JInt 1080);
   ("test", JStr "testBlur"); ("frames", JInt 120);
   ("avgMs", JFloat f12_3)].

Definition macbeth : event :=
  [("runID", JStr "A"); ("suite", JStr "ColorTests");
   ("label", JStr "macbeth"); ("test", JStr "testDeltaE");
   ("deltaE2000Avg", JFloat f0_1); ("deltaE2000Max", JFloat f12_3);
   ("deltaE2000WorstPatch", JStr "patch 7")].

Definition lut : event :=
  [("runID", JStr "A"); ("suite", JStr "ColorTests");
   ("label", JStr "studio"); ("test", JStr "testLUT");
   ("lutMeanAbsErr", JFloat f0_1); ("lutWorstPatch", JStr "patch 3")].

Definition other_run : event :=
  [("runID", JStr "B"); ("suite", JStr "RenderPerfTests");
   ("label", JStr "blur"); ("width", JInt 1920); ("height", JInt 1080);
   ("test", JStr "testBlur"); ("avgMs", JInt 99)].

(** A timing without [frames], [width] and [height]. *)
Definition export : event :=
  [("runID", JStr "A"); ("suite", JStr "ExportPerfTests");
   ("label", JStr "export"); ("test", JStr "testExport");
   ("avgMs", JInt 15)].

Definition known : list event :=
  [blur_old; blur_new; macbeth; lut; other_run; export].

(** [json.loads] on the lines of the sample log: the text of a known event
    parses to it, anything else is malformed. *)
Definition loads (s : string) : result json :=
  match List.find (fun e => String.eqb (dumps (JObj e)) s) known with
  | Some e => Ok (JObj e)
  | None => Raise JSONDecodeError
  end.

Lemma float_text_encodes (f : spec_float) : utf8_valid (float_text f) = true.
Proof. unfold float_text. now repeat destruct (decide _). Qed.

(** The sample logs fit in one buffer: no line is handed over before bytes
    that are not UTF-8 are met. *)
#[global] Instance lib : PyLib :=
  {| json_loads := loads;
     json_loads_empty := eq_refl;
     json_dumps := dumps;
     float_str := float_text;
     float_str_encodes := float_text_encodes;
     container_str := fun _ => "";
     lines_before_error := fun _ => [];
     list_sort := @sort_by;
     list_sort_raises := @sort_by_raises;
     list_sort_permutes := @sort_by_permutes;
     list_sort_orders := @sort_by_orders |}.

Definition log_line (e : event) : string := line (dumps (JObj e)).

(** Two measurements of one probe, a colour event, a cut-off line, and an
    event of another run. *)
Definition log : string :=
  log_line blur_old +:+ log_line macbeth +:+ line "{bad"
  +:+ log_line blur_new +:+ log_line other_run.

Definition a : args :=
  {| run_id := "A";
     out_dir := ["repo"; "test_outputs"; "metrics"; "A"];
     repo_root := ["repo"] |}.

Definition fs : files := {[ perf_jsonl a := log ]}.

Definition noon : utc :=
  {| year := 2025; month := 12; day := 18;
     hour := 12; minute := 0; second := 0 |}.

Definition later : utc :=
  {| year := 2025; month := 12; day := 18;
     hour := 12; minute := 0; second := 1 |}.

(** A run identifier with a carriage return in it. *)
Definition a_cr : args :=
  {| run_id := String "A"%char (String CR "1");
     out_dir := ["repo"; "test_outputs"; "metrics"; "A1"];
     repo_root := ["repo"] |}.

(** The files a run leaves. *)
Definition left_files (r : files * option exn) : files := r.1.

(** The run did not raise. *)
Definition ended (r : files * option exn) : bool :=
  match r.2 with
  | None => true
  | Some _ => false
  end.

(** The files after a run at noon, and after a second run one second
    later. *)
Definition first_run : files := left_files (main a noon fs).
Definition second_run : files := left_files (main a later first_run).

(** The same with the carriage return in the run identifier, from no file
    at all. *)
Definition cr_first_run : files := left_files (main a_cr noon ∅).
Definition cr_second_run : files := left_files (main a_cr noon cr_first_run).

(** A log whose last line was cut in the middle of a character: it stops
    after the first of the two bytes of U+00E9. *)
Definition cut_log : string :=
  log_line blur_old
  +:+ "{" +:+ quoted "label" +:+ ": " +:+ dq +:+ "caf" +:+ String (chr 195) "".

Definition cut_fs : files := {[ perf_jsonl a := cut_log ]}.

End Sample.

(** ** Vocabulary of the further properties *)

(** [isinstance(v, dict)]. *)
Definition is_object (v : json) : bool :=
  match v with
  | JObj _ => true
  | _ => false
  end.

(** The event a record stands for in a run: the fields of an object whose
    [runID] is the run. *)
Definition of_run (run : string) (v : json) : option event :=
  match v with
  | JObj e => if eq_str (get e "runID") run then Some e else None
  | _ => None
  end.

(** The events of a run in a log, from the bytes of the log. *)
Definition events_of `{PyLib} (run : string) (stored : string)
  : result (list event) :=
  let* records := _read_jsonl (Some stored) in
  run_filter run records.

(** A [list] or a [dict]. *)
Definition is_container (v : json) : bool :=
  match v with
  | JArr _ | JObj _ => true
  | _ => false
  end.

(** The five fields of the probe key. *)
Definition key_fields : list string :=
  ["suite"; "label"; "width"; "height"; "test"].

(** A log with a record that is a number and an event whose [label] is a
    list: the library interface on its lines. *)
Module Odd.
Definition tagged : event :=
  [("runID", JStr "A"); ("label", JArr [JStr "blur"; JStr "fast"]);
   ("avgMs", JInt 15)].

Definition tagged_text : string :=
  "{" +:+ Sample.quoted "runID" +:+ ": " +:+ Sample.quoted "A" +:+ ", "
  +:+ Sample.quoted "label" +:+ ": [" +:+ Sample.quoted "blur" +:+ ", "
  +:+ Sample.quoted "fast" +:+ "], " +:+ Sample.quoted "avgMs" +:+ ": 15}".

Definition loads (s : string) : result json :=
  if String.eqb s tagged_text then Ok (JObj tagged)
  else if String.eqb s "42" then Ok (JInt 42)
  else Sample.loads s.

Definition dumps (v : json) : string :=
  match v with
  | JObj e => if is_container (get e "label")
              then tagged_text else Sample.dumps v
  | _ => Sample.dumps v
  end.

Definition lib : PyLib :=
  {| json_loads := loads;
     json_loads_empty := eq_refl;
     json_dumps := dumps;
     float_str := Sample.float_text;
     float_str_encodes := Sample.float_text_encodes;
     container_str := fun _ => "";
     lines_before_error := fun _ => [];
     list_sort := @sort_by;
     list_sort_raises := @sort_by_raises;
     list_sort_permutes := @sort_by_permutes;
     list_sort_orders := @sort_by_orders |}.

Definition log : string := line tagged_text.
Definition fs : files := {[ perf_jsonl Sample.a := log ]}.

Definition number_log : string := Sample.log +:+ line "42".
Definition number_fs : files := {[ perf_jsonl Sample.a := number_log ]}.
End Odd.

(** The probe keys of the sample events. *)
Definition Sample_blur_key : probe :=
  (KStr "RenderPerfTests", KStr "blur", KNum (NFin 15 7), KNum (NFin 135 3),
   KStr "testBlur").
Definition Sample_macbeth_key : probe :=
  (KStr "ColorTests", KStr "macbeth", KNone, KNone, KStr "testDeltaE").

(** [r] is the row of the last event of some probe key, an event that passes
    the gate. *)
Definition from_latest {R} (gate : event -> bool) (row : event -> R)
    (events : list event) (r : R) : Prop :=
  exists k e, latest k events = Some e /\ gate e = true /\ r = row e.

(** The key of [x] is below the key of [y]: [<] says so, without raising. *)
Definition key_ltb {A} (key : A -> json * json) (x y : A) : bool :=
  match tuple_lt (key x) (key y) with
  | Ok below => below
  | Raise _ => false
  end.

(** [y] may come right after [x]: its key is not below the key of [x]. *)
Definition no_descent {A} (key : A -> json * json) (x y : A) : Prop :=
  key_ltb key y x = false.

(** The order of two strings, or of two numbers. *)
Definition value_compare (a b : json) : comparison :=
  match a, b with
  | JStr s, JStr t => String.compare s t
  | _, _ =>
      match to_num a, to_num b with
      | Some x, Some y => default Eq (num_compare x y)
      | _, _ => Eq
      end
  end.

(** [==] and [<] order the values of the kind [P]: [value_compare] is a
    total order on them, and they are what it says. *)
Definition orders (P : json -> bool) : Prop :=
  (forall a b, P a = true -> P b = true ->
     value_compare b a = CompOpp (value_compare a b))
  /\ (forall a b c, P a = true -> P b = true -> P c = true ->
        value_compare a b = Eq -> value_compare b c = value_compare a c)
  /\ (forall a b c, P a = true -> P b = true -> P c = true ->
        value_compare a b = Lt -> value_compare b c = Lt ->
        value_compare a c = Lt)
  /\ (forall a b, P a = true -> P b = true ->
        py_eq a b = match value_compare a b with Eq => true | _ => false end
        /\ py_lt a b
           = Ok (match value_compare a b with Lt => true | _ => false end)).

(** The order of two keys: that of the first components that differ. *)
Definition key_compare (a b : json * json) : comparison :=
  match value_compare a.1 b.1 with
  | Eq => value_compare a.2 b.2
  | c => c
  end.

(** A key whose components are of the kinds [P1] and [P2]. *)
Definition kind (P1 P2 : json -> bool) (k : json * json) : Prop :=
  P1 k.1 = true /\ P2 k.2 = true.

(** The key of [r] is equal to [k]. *)
Definition same_key {A} (key : A -> json * json) (k : json * json) (r : A)
  : bool :=
  match key_compare (key r) k with
  | Eq => true
  | _ => false
  end.

(** The data model of an event, as far as [main] depends on it: the names
    and the texts are strings that can be encoded, the sizes are integers or
    finite floats, [frames] is an integer, the measurements are finite
    numbers, and any of them may be absent. *)
Definition text_or_absent (v : json) : bool :=
  match v with
  | JNull => true
  | JStr s => utf8_valid s
  | _ => false
  end.

Definition size_or_absent (v : json) : bool :=
  match v with
  | JNull | JInt _ => true
  | JFloat f => finite_float f
  | _ => false
  end.

Definition count_or_absent (v : json) : bool :=
  match v with
  | JNull | JInt _ => true
  | _ => false
  end.

Definition measure_or_absent (v : json) : bool :=
  match v with
  | JNull => true
  | _ => finite_number v
  end.

Definition well_formed (e : event) : bool :=
  text_or_absent (get e "suite") && text_or_absent (get e "label")
  && text_or_absent (get e "test") && text_or_absent (get e "ocioBakeName")
  && text_or_absent (get e "message")
  && text_or_absent (get e "deltaEWorstPatch")
  && text_or_absent (get e "lutWorstPatch")
  && text_or_absent (get e "osVersion") && text_or_absent (get e "processArch")
  && size_or_absent (get e "width") && size_or_absent (get e "height")
  && count_or_absent (get e "frames")
  && measure_or_absent (get e "avgMs")
  && measure_or_absent (get e "peakRSSDeltaMB")
  && measure_or_absent (get e "deltaE2000Avg")
  && measure_or_absent (get e "deltaE2000Max")
  && measure_or_absent (get e "lutMeanAbsErr")
  && measure_or_absent (get e "lutMaxAbsErr")
  && measure_or_absent (get e "ocioBakeMeanAbsErr")
  && measure_or_absent (get e "ocioBakeMaxAbsErr").

(** The arguments of a run whose run identifier and paths can be encoded. *)
Definition encodable_args (a : args) : bool :=
  utf8_valid (run_id a)
  && forallb utf8_valid (out_dir a) && forallb utf8_valid (repo_root a).

(** A log the reader gets through: its bytes are UTF-8, [json.loads]
    raises nothing but [JSONDecodeError] on its lines, and the records of
    the lines that parse are objects.  No log at all is the empty log. *)
Definition readable_log `{PyLib} (stored : string) : Prop :=
  utf8_valid stored = true
  /\ Forall readable (text_lines stored)
  /\ forallb is_object (parsed_lines (text_lines stored)) = true.

(** The events of a run in such a log. *)
Definition log_events `{PyLib} (run : string) (stored : string)
  : list event :=
  omap (of_run run) (parsed_lines (text_lines stored)).

(** The keys of a table whose rows can always be compared: a string, then a
    string, or then an integer or a finite float. *)
Definition is_text (v : json) : bool :=
  match v with
  | JStr _ => true
  | _ => false
  end.

Definition is_size (v : json) : bool :=
  match v with
  | JInt _ => true
  | JFloat f => finite_float f
  | _ => false
  end.

Definition text_key (k : json * json) : bool := is_text k.1 && is_text k.2.
Definition size_key (k : json * json) : bool := is_text k.1 && is_size k.2.

(** A text without line break: neither LF nor CR. *)
Fixpoint one_line (s : string) : bool :=
  match s with
  | EmptyString => true
  | String c rest =>
      negb (Ascii.eqb c LF) && negb (Ascii.eqb c CR) && one_line rest
  end.

(** * Properties *)

(** ** Strings *)

Lemma sapp_cons (c : ascii) (s t : string) :
  String c s +:+ t = String c (s +:+ t).
Proof. reflexivity. Qed.

Lemma sapp_nil_l (s : string) : "" +:+ s = s.
Proof. reflexivity. Qed.

Lemma sapp_nil_r (s : string) : s +:+ "" = s.
Proof. induction s as [|c s IH]; [reflexivity|]. now rewrite sapp_cons, IH. Qed.

Lemma sapp_assoc (s t u : string) : (s +:+ t) +:+ u = s +:+ t +:+ u.
Proof. induction s as [|c s IH]; [reflexivity|]. now rewrite !sapp_cons, IH. Qed.

Lemma length_sapp (s t : string) :
  String.length (s +:+ t) = (String.length s + String.length t)%nat.
Proof.
  induction s as [|c s IH]; [reflexivity|].
  rewrite sapp_cons. simpl. now rewrite IH.
Qed.

Lemma keepends_concat (s : string) : concat_lines (keepends s) = s.
Proof.
  induction s as [|c s IH]; [reflexivity|].
  simpl. destruct (Ascii.eqb c LF) eqn:E.
  - apply Ascii.eqb_eq in E. subst c. unfold concat_lines in *. simpl.
    now rewrite IH.
  - unfold concat_lines in *. destruct (keepends s) as [|l ls]; simpl in *.
    + now rewrite <- IH.
    + now rewrite sapp_cons, IH.
Qed.

(** ** The event source reader *)

Section ReaderFacts.
Context `{PyLib}.

Lemma read_line_readable (out : list json) (l : string) :
  readable l ->
  read_line out l = Ok (out ++ parsed_lines [l]).
Proof.
  intros Hl. unfold read_line, parsed_lines, record_of, readable in *.
  cbn [omap list_omap].
  destruct (String.eqb (strip l) "") eqn:E.
  - apply String.eqb_eq in E. rewrite E, json_loads_empty.
    now rewrite List.app_nil_r.
  - destruct (json_loads (strip l)) as [v|x]; [reflexivity|].
    rewrite (Hl x eq_refl). now rewrite List.app_nil_r.
Qed.

Lemma parsed_lines_app (l1 l2 : list string) :
  parsed_lines (l1 ++ l2) = parsed_lines l1 ++ parsed_lines l2.
Proof.
  unfold parsed_lines. induction l1 as [|l l1 IH]; [reflexivity|].
  cbn [app omap list_omap]. rewrite IH.
  now destruct (record_of l).
Qed.

Lemma read_lines_from (lines : list string) (out : list json) :
  Forall readable lines ->
  read_lines out lines = Ok (out ++ parsed_lines lines).
Proof.
  intros Hlines. revert out.
  induction Hlines as [|l lines Hl _ IH]; intros out.
  - cbn. now rewrite List.app_nil_r.
  - cbn [read_lines]. rewrite (read_line_readable out l Hl). cbn [rbind].
    rewrite IH, <- List.app_assoc. f_equal. f_equal.
    now rewrite <- parsed_lines_app.
Qed.

Lemma read_lines_app (l1 l2 : list string) (out : list json) :
  read_lines out (l1 ++ l2)
  = let* mid := read_lines out l1 in read_lines mid l2.
Proof.
  revert out. induction l1 as [|l l1 IH]; intros out; [reflexivity|].
  cbn [app read_lines]. destruct (read_line out l); cbn [rbind]; [apply IH|].
  reflexivity.
Qed.

(** A line on which [json.loads] raises anything but [JSONDecodeError] ends
    the loop. *)
Lemma read_lines_raises (before after : list string) (bad : string)
    (out : list json) (x : exn) :
  Forall readable before ->
  json_loads (strip bad) = Raise x -> x <> JSONDecodeError ->
  read_lines out (before ++ bad :: after) = Raise x.
Proof.
  intros Hbefore Hbad Hx. rewrite read_lines_app, read_lines_from by assumption.
  cbn [rbind read_lines]. unfold read_line.
  destruct (String.eqb (strip bad) "") eqn:E.
  - apply String.eqb_eq in E. rewrite E, json_loads_empty in Hbad. congruence.
  - rewrite Hbad. now destruct x.
Qed.

(** Bytes that are not UTF-8 end the read, whatever was handed over. *)
Lemma read_jsonl_not_utf8 (stored : string) :
  utf8_valid stored = false -> exists x, _read_jsonl (Some stored) = Raise x.
Proof.
  intros Hbytes. unfold _read_jsonl. rewrite Hbytes.
  destruct (read_lines [] (lines_before_error stored)); cbn [rbind]; eauto.
Qed.

Lemma read_jsonl_readable (stored : string) :
  utf8_valid stored = true -> Forall readable (text_lines stored) ->
  _read_jsonl (Some stored) = Ok (parsed_lines (text_lines stored)).
Proof.
  intros Hbytes Hlines. unfold _read_jsonl. rewrite Hbytes.
  now rewrite read_lines_from.
Qed.
End ReaderFacts.

(** C6, where the code departs from it: a line that was cut in the middle
    of a character does not parse, and it is not skipped.  On a log whose
    first line is an event and whose last line stops after the first of the
    two bytes of a character, [_read_jsonl] raises [UnicodeDecodeError]: it
    returns no record, not even that of the first line, which it returns
    for the log without the cut line; and [main] dies before it writes a
    file.  Whatever the library, bytes that are not UTF-8 end the read, and
    so does a line on which [json.loads] raises anything but
    [JSONDecodeError]. *)
Theorem cut_off_line_aborts_the_read :
  utf8_valid Sample.cut_log = false
  /\ _read_jsonl (Some Sample.cut_log) = Raise UnicodeDecodeError
  /\ _read_jsonl (Some (Sample.log_line Sample.blur_old))
     = Ok [JObj Sample.blur_old]
  /\ main Sample.a Sample.noon Sample.cut_fs
     = (Sample.cut_fs, Some UnicodeDecodeError)
  /\ (forall (lib : PyLib) (stored : string),
        utf8_valid stored = false ->
        exists x, @_read_jsonl lib (Some stored) = Raise x)
  /\ (forall (lib : PyLib) (stored bad : string) (before after : list string)
             (x : exn),
        utf8_valid stored = true ->
        text_lines stored = before ++ bad :: after ->
        Forall (@readable lib) before ->
        @json_loads lib (strip bad) = Raise x -> x <> JSONDecodeError ->
        @_read_jsonl lib (Some stored) = Raise x).
Proof.
  split; [vm_compute; reflexivity|]. split; [vm_compute; reflexivity|].
  split; [vm_compute; reflexivity|]. split; [|split].
  - assert (Hevents : run_events Sample.a Sample.cut_fs
                      = Raise UnicodeDecodeError) by (vm_compute; reflexivity).
    unfold main. now rewrite Hevents.
  - intros lib stored. apply read_jsonl_not_utf8.
  - intros lib stored bad before after x Hbytes Hlines Hbefore Hbad Hx.
    unfold _read_jsonl. rewrite Hbytes, Hlines.
    now apply read_lines_raises.
Qed.

(** ** Numbers as keys *)

Lemma odd_part_spec (p : positive) :
  0 <= (odd_part p).2
  /\ Z.pos p = Z.pos (odd_part p).1 * 2 ^ (odd_part p).2
  /\ Z.odd (Z.pos (odd_part p).1) = true.
Proof.
  induction p as [p IH|p IH|]; cbn [odd_part].
  - cbn [fst snd]. rewrite Z.pow_0_r. repeat split; [lia|lia].
  - destruct (odd_part p) as [o k]. cbn [fst snd] in *.
    destruct IH as (Hk & Hp & Ho). repeat split; [lia| |assumption].
    rewrite Z.pow_add_r, Z.pow_1_r, Pos2Z.inj_xO by lia. lia.
  - cbn [fst snd]. repeat split; lia.
Qed.

Lemma normal_spec (n e : Z) :
  exists n' e',
    normal (NFin n e) = NFin n' e'
    /\ is_normal n' e'
    /\ ((n = 0 /\ n' = 0) \/ (e <= e' /\ n = n' * 2 ^ (e' - e))).
Proof.
  destruct n as [|p|p]; cbn [normal].
  - exists 0, 0. split; [reflexivity|]. split; [now left|now left].
  - pose proof (odd_part_spec p) as (Hk & Hp & Ho).
    destruct (odd_part p) as [o k]. cbn [fst snd] in *.
    exists (Z.pos o), (e + k). split; [reflexivity|]. split; [now right|].
    right. split; [lia|]. now replace (e + k - e) with k by lia.
  - pose proof (odd_part_spec p) as (Hk & Hp & Ho).
    destruct (odd_part p) as [o k]. cbn [fst snd] in *.
    exists (Z.neg o), (e + k). split; [reflexivity|]. split; [now right|].
    right. split; [lia|]. replace (e + k - e) with k by lia.
    change (Z.neg p) with (- Z.pos p). change (Z.neg o) with (- Z.pos o). lia.
Qed.

Lemma odd_times_pow2 (a b k : Z) :
  0 <= k -> Z.odd a = true -> a = b * 2 ^ k -> k = 0.
Proof.
  intros Hk Ha Hab. destruct (Z.eq_dec k 0) as [|Hne]; [assumption|].
  exfalso. replace k with (Z.succ (k - 1)) in Hab by lia.
  rewrite Z.pow_succ_r in Hab by lia.
  rewrite Hab in Ha. replace (b * (2 * 2 ^ (k - 1))) with (2 * (b * 2 ^ (k - 1))) in Ha by lia.
  rewrite Z.odd_mul in Ha. discriminate.
Qed.

Lemma pow2_pos (k : Z) : 0 <= k -> 0 < 2 ^ k.
Proof. intros Hk. apply Z.pow_pos_nonneg; lia. Qed.

Lemma pow2_split (a b c : Z) :
  c <= b -> b <= a -> 2 ^ (a - c) = 2 ^ (a - b) * 2 ^ (b - c).
Proof.
  intros Hcb Hba. rewrite <- Z.pow_add_r by lia. f_equal. lia.
Qed.

Lemma normal_of_zero (e : Z) : normal (NFin 0 e) = NFin 0 0.
Proof. reflexivity. Qed.

Lemma normal_nonzero (n e : Z) :
  n <> 0 ->
  exists a f,
    normal (NFin n e) = NFin a f
    /\ Z.odd a = true /\ e <= f /\ n = a * 2 ^ (f - e).
Proof.
  intros Hn. destruct (normal_spec n e) as (a & f & Hnorm & Hshape & Hval).
  exists a, f. split; [assumption|].
  destruct Hval as [[? _]|[Hle Hval]]; [contradiction|].
  destruct Hshape as [[-> _]|Hodd]; [lia|]. auto.
Qed.

(** Two finite numbers have the same normal form exactly when [==] holds
    between them. *)
Lemma normal_eq_iff (n1 e1 n2 e2 : Z) :
  normal (NFin n1 e1) = normal (NFin n2 e2)
  <-> num_compare (NFin n1 e1) (NFin n2 e2) = Some Eq.
Proof.
  cbn [num_compare]. set (e0 := Z.min e1 e2).
  assert (He1 : e0 <= e1) by lia. assert (He2 : e0 <= e2) by lia.
  pose proof (pow2_pos (e1 - e0) ltac:(lia)) as Hp1.
  pose proof (pow2_pos (e2 - e0) ltac:(lia)) as Hp2.
  transitivity (n1 * 2 ^ (e1 - e0) = n2 * 2 ^ (e2 - e0)).
  2:{ split; [intros ->%Z.compare_eq_iff; reflexivity|].
      intros [= ?%Z.compare_eq_iff]. assumption. }
  destruct (Z.eq_dec n1 0) as [->|Hn1].
  { rewrite normal_of_zero. destruct (Z.eq_dec n2 0) as [->|Hn2].
    - rewrite normal_of_zero. split; [lia|reflexivity].
    - destruct (normal_nonzero n2 e2 Hn2) as (a & f & -> & Ho & _ & _).
      split; [|nia]. intros [= <- _]. discriminate. }
  destruct (Z.eq_dec n2 0) as [->|Hn2].
  { rewrite normal_of_zero.
    destruct (normal_nonzero n1 e1 Hn1) as (a & f & -> & Ho & _ & _).
    split; [|nia]. intros [= -> _]. discriminate. }
  destruct (normal_nonzero n1 e1 Hn1) as (a1 & f1 & -> & Ho1 & Hf1 & Hv1).
  destruct (normal_nonzero n2 e2 Hn2) as (a2 & f2 & -> & Ho2 & Hf2 & Hv2).
  rewrite Hv1, Hv2, <- !Z.mul_assoc, <- !pow2_split by lia.
  split.
  - now intros [= -> ->].
  - intros Heq. destruct (Z.le_ge_cases f1 f2) as [Hle|Hle].
    + rewrite (pow2_split f2 f1 e0) in Heq by lia.
      rewrite Z.mul_assoc in Heq.
      apply Z.mul_cancel_r in Heq; [|pose proof (pow2_pos (f1 - e0)); lia].
      assert (f2 - f1 = 0)
        by (eapply (odd_times_pow2 a1 a2); [lia|assumption|exact Heq]).
      replace (f2 - f1) with 0 in Heq by lia. f_equal; lia.
    + rewrite (pow2_split f1 f2 e0) in Heq by lia.
      rewrite Z.mul_assoc in Heq.
      apply Z.mul_cancel_r in Heq; [|pose proof (pow2_pos (f2 - e0)); lia].
      assert (f1 - f2 = 0)
        by (eapply (odd_times_pow2 a2 a1); [lia|assumption|symmetry; exact Heq]).
      replace (f1 - f2) with 0 in Heq by lia. f_equal; lia.
Qed.

(** ** Deduplication *)

Lemma dict_set_NoDup {V} (k : probe) (v : V) (d : list (probe * V)) :
  NoDup d.*1 -> NoDup (dict_set k v d).*1.
Proof.
  induction d as [|[k0 v0] d IH]; intros Hd; simpl.
  - apply NoDup_singleton.
  - apply NoDup_cons in Hd as [Hk0 Hd]. case_bool_decide as Hk; simpl.
    + apply NoDup_cons; auto.
    + apply NoDup_cons. split; [|auto].
      intros Hin. apply Hk0. clear -Hin Hk.
      induction d as [|[k1 v1] d IH]; simpl in *.
      * apply list_elem_of_singleton in Hin. congruence.
      * case_bool_decide; simpl in *; [assumption|].
        apply elem_of_cons in Hin as [->|Hin]; [left|right; auto].
Qed.

Lemma elem_of_dict_set {V} (k k' : probe) (v v' : V) (d : list (probe * V)) :
  NoDup d.*1 ->
  (k', v') ∈ dict_set k v d <-> (k' = k /\ v' = v) \/ (k' <> k /\ (k', v') ∈ d).
Proof.
  induction d as [|[k0 v0] d IH]; intros Hd; simpl.
  - rewrite list_elem_of_singleton, elem_of_nil. split.
    + intros [= -> ->]. now left.
    + intros [[-> ->]|[_ []]]. reflexivity.
  - apply NoDup_cons in Hd as [Hk0 Hd]. case_bool_decide as Hk.
    + subst k0. rewrite !elem_of_cons. split.
      * intros [[= -> ->]|Hin]; [now left|]. right. split; [|now right].
        intros ->. apply Hk0. now apply (list_elem_of_fmap_2 fst) in Hin.
      * intros [[-> ->]|[Hne [[= ? ?]|Hin]]]; [now left|congruence|now right].
    + rewrite !elem_of_cons, IH by assumption. split.
      * intros [[= -> ->]|[[-> ->]|[Hne Hin]]].
        -- right. split; [congruence|now left].
        -- now left.
        -- right. split; [assumption|now right].
      * intros [[-> ->]|[Hne [[= -> ->]|Hin]]].
        -- right. now left.
        -- now left.
        -- right. right. now split.
Qed.

Lemma latest_cons (k : probe) (e : event) (events : list event) :
  latest k (e :: events)
  = match latest k events with
    | Some x => Some x
    | None => if decide (probe_key e = Ok k) then Some e else None
    end.
Proof.
  unfold latest. rewrite filter_cons. destruct (decide (probe_key e = Ok k)).
  - now rewrite last_cons.
  - now destruct (last _).
Qed.

(** The loop keeps the keys of the dictionary distinct and leaves, for every
    key, the last event of the log that has it, or else what the dictionary
    held before. *)
Lemma dedup_loop_spec (events : list event) (d d' : list (probe * event)) :
  NoDup d.*1 ->
  dedup_loop d events = Ok d' ->
  NoDup d'.*1
  /\ forall k e, (k, e) ∈ d' <->
       latest k events = Some e \/ (latest k events = None /\ (k, e) ∈ d).
Proof.
  revert d. induction events as [|e0 events IH]; intros d Hd Hrun; simpl in Hrun.
  - injection Hrun as <-. split; [assumption|]. intros k e. cbn. split.
    + intros Hin. right. now split.
    + intros [[=]|[_ Hin]]. assumption.
  - destruct (probe_key e0) as [k0|] eqn:Hk0; simpl in Hrun; [|discriminate].
    apply IH in Hrun as [Hnd Hin]; [|now apply dict_set_NoDup].
    split; [assumption|]. intros k e. rewrite Hin, latest_cons, Hk0.
    rewrite elem_of_dict_set by assumption.
    destruct (latest k events) as [x|]; [split; intros [?|[[=] _]]; now left|].
    destruct (decide (Ok k0 = Ok k)) as [[= ->]|Hne].
    + split.
      * intros [[=]|[_ [[_ ->]|[[] _]]]]; [now left|reflexivity].
      * intros [[= ->]|[[=] _]]. right. split; [reflexivity|now left].
    + split.
      * intros [[=]|[_ [[-> _]|[_ ?]]]]; [congruence|]. right. now split.
      * intros [[=]|[_ ?]]. right. split; [reflexivity|]. right.
        split; [congruence|assumption].
Qed.

Lemma dedup_loop_total (events : list event) (d : list (probe * event)) :
  Forall (fun e => exists k, probe_key e = Ok k) events ->
  exists d', dedup_loop d events = Ok d'.
Proof.
  revert d. induction events as [|e0 events IH]; intros d Hall; simpl.
  - now exists d.
  - apply Forall_cons in Hall as [[k0 ->] Hall]. simpl. now apply IH.
Qed.


Lemma latest_key (k : probe) (e : event) (events : list event) :
  latest k events = Some e -> probe_key e = Ok k.
Proof.
  unfold latest. intros Hlast. apply last_Some_elem_of in Hlast.
  now apply list_elem_of_filter in Hlast as [? _].
Qed.




(** ** Categorization *)

Lemma append_if_filter {A} (gate : event -> bool) (row : event -> A)
    (l : list A) (e : event) (es : list event) :
  append_if (gate e) l (row e) ++ (row <$> filter (fun x => gate x = true) es)
  = l ++ (row <$> filter (fun x => gate x = true) (e :: es)).
Proof.
  rewrite filter_cons. unfold append_if.
  destruct (decide (gate e = true)) as [->|Hg].
  - now rewrite <- List.app_assoc.
  - now apply not_true_is_false in Hg as ->.
Qed.

(** Each of the five lists is filled by its own gate alone. *)
Lemma categorize_from (es : list event) (acc : rows) :
  let rs := fold_left categorize_step es acc in
  perf_rows rs
  = perf_rows acc ++ (perf_of <$> filter (fun e => perf_gate e = true) es)
  /\ mem_rows rs
     = mem_rows acc ++ (mem_of <$> filter (fun e => mem_gate e = true) es)
  /\ color_rows rs
     = color_rows acc
       ++ (color_of <$> filter (fun e => color_gate e = true) es)
  /\ studio_rows rs
     = studio_rows acc
       ++ (studio_of <$> filter (fun e => studio_gate e = true) es)
  /\ ocio_rows rs
     = ocio_rows acc ++ (ocio_of <$> filter (fun e => ocio_gate e = true) es).
Proof.
  revert acc. induction es as [|e es IH]; intros acc; cbn zeta.
  - cbn. now rewrite !List.app_nil_r.
  - cbn [fold_left]. destruct (IH (categorize_step acc e)) as (-> & -> & -> & -> & ->).
    cbn [categorize_step perf_rows mem_rows color_rows studio_rows ocio_rows].
    now rewrite !append_if_filter.
Qed.

Lemma only_avgMs_gates (e : event) :
  only_avgMs e ->
  perf_gate e = true /\ mem_gate e = false /\ color_gate e = false
  /\ studio_gate e = false /\ ocio_gate e = false.
Proof.
  intros (Havg & Hmem & Hc1 & Hc2 & Hs1 & Hs2 & Ho1 & Ho2).
  unfold perf_gate, mem_gate, color_gate, studio_gate, ocio_gate.
  rewrite Hmem, Hc1, Hc2, Hs1, Hs2, Ho1, Ho2.
  repeat split; try reflexivity.
  now destruct (get e "avgMs").
Qed.

(** C8: an event whose only measurement is [avgMs] adds one row to the
    Performance list and none to the four others; and over any list of
    survivors each category holds the rows of the events that pass its own
    gate, whatever the other gates say. *)
Theorem avgMs_only_gives_one_perf_row (e : event) (acc : rows) :
  only_avgMs e ->
  categorize_step acc e
  = {| perf_rows := perf_rows acc ++ [perf_of e];
       mem_rows := mem_rows acc;
       color_rows := color_rows acc;
       studio_rows := studio_rows acc;
       ocio_rows := ocio_rows acc |}
  /\ categorize [e]
     = {| perf_rows := [perf_of e]; mem_rows := []; color_rows := [];
          studio_rows := []; ocio_rows := [] |}
  /\ forall survivors,
       perf_rows (categorize survivors)
       = perf_of <$> filter (fun x => perf_gate x = true) survivors
       /\ mem_rows (categorize survivors)
          = mem_of <$> filter (fun x => mem_gate x = true) survivors
       /\ color_rows (categorize survivors)
          = color_of <$> filter (fun x => color_gate x = true) survivors
       /\ studio_rows (categorize survivors)
          = studio_of <$> filter (fun x => studio_gate x = true) survivors
       /\ ocio_rows (categorize survivors)
          = ocio_of <$> filter (fun x => ocio_gate x = true) survivors.
Proof.
  intros Honly.
  destruct (only_avgMs_gates e Honly) as (Hp & Hm & Hc & Hs & Ho).
  split; [|split].
  - unfold categorize_step. now rewrite Hp, Hm, Hc, Hs, Ho.
  - unfold categorize. cbn [fold_left]. unfold categorize_step.
    now rewrite Hp, Hm, Hc, Hs, Ho.
  - intros survivors. exact (categorize_from survivors no_rows).
Qed.

(** The sample event with a [deltaE2000WorstPatch] field. *)
Lemma color_worst_is_not_deltaE2000WorstPatch :
  color_gate Sample.macbeth = true
  /\ get Sample.macbeth "deltaE2000WorstPatch" = JStr "patch 7"
  /\ c_worst (color_of Sample.macbeth) = JNull
  /\ c_worst (color_of Sample.macbeth)
     <> get Sample.macbeth "deltaE2000WorstPatch".
Proof. repeat split; [reflexivity..|discriminate]. Qed.

(** C2, as the code has it: an event that passes the Color gate adds one
    Color row, whose [worst] is the field [deltaEWorstPatch] of the event;
    the cell shows that value, and nothing when the event has no such
    field. *)
Theorem color_row_worst_patch `{PyLib} (e : event) (acc : rows) :
  color_gate e = true ->
  color_rows (categorize_step acc e) = color_rows acc ++ [color_of e]
  /\ c_worst (color_of e) = get e "deltaEWorstPatch"
  /\ (forall text, color_line (color_of e) = Ok text ->
        exists avg mx,
          text = cells [py_str (_safe (get e "label")); avg; mx;
                        py_str (_safe (get e "deltaEWorstPatch"));
                        py_str (_safe (get e "suite"));
                        py_str (_safe (get e "test"))])
  /\ (get e "deltaEWorstPatch" = JNull ->
        py_str (_safe (c_worst (color_of e))) = "").
Proof.
  intros Hgate. split; [|split; [|split]].
  - unfold categorize_step. cbn [color_rows]. now rewrite Hgate.
  - reflexivity.
  - intros text. unfold color_line. cbn [color_of c_deltaEAvg c_deltaEMax
      c_label c_worst c_suite c_test].
    destruct (_fmt (get e "deltaE2000Avg") 4) as [avg|]; [|discriminate].
    destruct (_fmt (get e "deltaE2000Max") 4) as [mx|]; [|discriminate].
    cbn [rbind]. intros [= <-]. now exists avg, mx.
  - cbn [color_of c_worst]. now intros ->.
Qed.

Lemma color_row_worst_patch_witness :
  color_gate Sample.macbeth = true
  /\ color_rows (categorize_step no_rows Sample.macbeth)
     = [color_of Sample.macbeth]
  /\ c_worst (color_of Sample.macbeth) = JNull.
Proof.
  split; [reflexivity|].
  destruct (color_row_worst_patch Sample.macbeth no_rows eq_refl)
    as (Hrows & Hworst & _).
  split; [exact Hrows|exact Hworst].
Defined.

Lemma avgMs_only_gives_one_perf_row_witness :
  only_avgMs Sample.blur_new
  /\ categorize [Sample.blur_new]
     = {| perf_rows := [perf_of Sample.blur_new]; mem_rows := [];
          color_rows := []; studio_rows := []; ocio_rows := [] |}.
Proof.
  assert (Honly : only_avgMs Sample.blur_new).
  { unfold only_avgMs. cbn. repeat split; try reflexivity. discriminate. }
  split; [exact Honly|].
  exact (proj1 (proj2
    (avgMs_only_gives_one_perf_row Sample.blur_new no_rows Honly))).
Defined.

(** ** Cells *)

Lemma equals_zero_falsy (v : json) : equals_zero v -> truthy v = false.
Proof.
  intros (x & Hnum & Hzero). destruct v as [|b|z|f| | |]; try discriminate.
  - destruct b; [|reflexivity]. injection Hnum as <-. discriminate.
  - injection Hnum as <-. destruct z as [|p|p]; [reflexivity|..];
      simpl in Hzero; destruct (odd_part p); discriminate.
  - injection Hnum as <-. destruct f as [s|s| |s m e]; try discriminate.
    + reflexivity.
    + destruct s; simpl in Hzero; destruct (odd_part m); discriminate.
Qed.

(** C10: the resolution cell of a Performance row is [WxH] when the width
    and the height are both truthy, and empty as soon as one of them is
    absent or equal to 0, also when the other one is there; it is the second
    cell of the line of the row. *)
Theorem perf_resolution_needs_width_and_height `{PyLib} (r : perf_row) :
  (truthy (p_w r) = true -> truthy (p_h r) = true ->
     perf_res r = py_str (p_w r) +:+ "x" +:+ py_str (p_h r))
  /\ (p_w r = JNull \/ p_h r = JNull
      \/ equals_zero (p_w r) \/ equals_zero (p_h r) ->
      perf_res r = "")
  /\ (perf_res r <> "" -> truthy (p_w r) = true /\ truthy (p_h r) = true)
  /\ (forall text, perf_line r = Ok text ->
        exists avg,
          text = cells [py_str (_safe (p_label r)); perf_res r;
                        py_str (p_frames r); avg;
                        py_str (_safe (p_suite r));
                        py_str (_safe (p_test r))]).
Proof.
  unfold perf_res. split; [|split; [|split]].
  - now intros -> ->.
  - intros [Hw|[Hh|[Hw|Hh]]].
    + now rewrite Hw.
    + rewrite Hh. now rewrite andb_false_r.
    + now rewrite (equals_zero_falsy _ Hw).
    + rewrite (equals_zero_falsy _ Hh). now rewrite andb_false_r.
  - destruct (truthy (p_w r)), (truthy (p_h r)); simpl; intros Hne;
      try (now split); now destruct Hne.
  - intros text. unfold perf_line.
    destruct (_fmt_ms (p_avgMs r)) as [avg|]; [|discriminate].
    cbn [rbind]. intros [= <-]. now exists avg.
Qed.

Lemma perf_resolution_witness :
  perf_res {| p_suite := JNull; p_label := JStr "blur"; p_w := JInt 1920;
              p_h := JInt 0; p_frames := JNull; p_avgMs := JInt 15;
              p_test := JNull |} = ""
  /\ perf_res (perf_of Sample.blur_new) = "1920x1080".
Proof.
  split.
  - apply perf_resolution_needs_width_and_height.
    right. right. right. exists (NFin 0 0). now split.
  - now apply perf_resolution_needs_width_and_height.
Defined.

(** ** Fixed-point formatting *)

(** The rounded quotient is an integer nearest to [num / den]. *)
Lemma round_half_even_nearest (num den : Z) :
  0 < den -> 2 * Z.abs (num - round_half_even num den * den) <= den.
Proof.
  intros Hden. unfold round_half_even.
  pose proof (Z.div_mod num den ltac:(lia)) as Hdiv.
  pose proof (Z.mod_pos_bound num den Hden) as Hmod.
  destruct (Z.compare_spec (2 * (num mod den)) den);
    [destruct (Z.even (num / den))|..]; nia.
Qed.

Lemma all_digits_app (s t : string) :
  all_digits (s +:+ t) = all_digits s && all_digits t.
Proof.
  induction s as [|c s IH]; [reflexivity|].
  rewrite sapp_cons. simpl. now rewrite IH, andb_assoc.
Qed.

Lemma digit_char_is_digit (n : Z) : is_digit (digit_char (n mod 10)) = true.
Proof.
  pose proof (Z.mod_pos_bound n 10 ltac:(lia)) as Hd.
  assert (Hcases : n mod 10 = 0 \/ n mod 10 = 1 \/ n mod 10 = 2
                   \/ n mod 10 = 3 \/ n mod 10 = 4 \/ n mod 10 = 5
                   \/ n mod 10 = 6 \/ n mod 10 = 7 \/ n mod 10 = 8
                   \/ n mod 10 = 9) by lia.
  repeat (destruct Hcases as [->|Hcases]; [reflexivity|]).
  now rewrite Hcases.
Qed.

Lemma frac_digits_length (k : nat) (n : Z) :
  String.length (frac_digits k n) = k.
Proof.
  revert n. induction k as [|k IH]; intros n; [reflexivity|].
  cbn [frac_digits]. rewrite length_sapp, IH. cbn [String.length]. lia.
Qed.

Lemma frac_digits_all_digits (k : nat) (n : Z) :
  all_digits (frac_digits k n) = true.
Proof.
  revert n. induction k as [|k IH]; intros n; [reflexivity|].
  cbn [frac_digits]. rewrite all_digits_app, IH. cbn [all_digits andb].
  now rewrite digit_char_is_digit.
Qed.

Lemma fixed_text_places (k : nat) (neg : bool) (n : Z) :
  has_places (S k) (fixed_text (S k) neg n).
Proof.
  unfold fixed_text.
  exists ((if neg then "-" else "") +:+ int_str (n / 10 ^ Z.of_nat (S k))),
    (frac_digits (S k) n).
  split; [now rewrite sapp_assoc|].
  split; [apply frac_digits_length|apply frac_digits_all_digits].
Qed.

Lemma float_fixed_places (k : nat) (f : spec_float) :
  finite_float f = true -> has_places (S k) (float_fixed (S k) f).
Proof.
  destruct f; try discriminate; intros _; apply fixed_text_places.
Qed.

Lemma format_f_places (k : nat) (v : json) :
  finite_number v = true ->
  exists s, format_f (S k) v = Ok s /\ has_places (S k) s.
Proof.
  destruct v as [|b|z|f| | |]; try discriminate; simpl.
  - destruct (float_of_int z) as [f|]; [|discriminate]. intros Hfin.
    eexists. split; [reflexivity|]. now apply float_fixed_places.
  - intros Hfin. eexists. split; [reflexivity|]. now apply float_fixed_places.
Qed.

Lemma finite_number_present (v : json) :
  finite_number v = true -> is_not_None v = true.
Proof. now destruct v. Qed.

Lemma fmt_numeric_cell (k : nat) (v : json) :
  absent_or_finite v ->
  exists s, _fmt v (S k) = Ok s /\ numeric_cell (S k) v s.
Proof.
  unfold _fmt, numeric_cell. intros [->|Hfin].
  - now exists "".
  - rewrite (finite_number_present v Hfin).
    destruct (format_f_places k v Hfin) as (s & Hs & Hplaces).
    exists s. now rewrite Hs.
Qed.


(** The sample doubles are the quotients 123/10 and 1/10 rounded to nearest,
    which is how a decimal literal becomes a [float]. *)
Lemma sample_doubles :
  Sample.f12_3
  = SFdiv 53 1024 (binary_normalize 53 1024 123 0 false)
                  (binary_normalize 53 1024 10 0 false)
  /\ Sample.f0_1
     = SFdiv 53 1024 (binary_normalize 53 1024 1 0 false)
                     (binary_normalize 53 1024 10 0 false).
Proof. split; vm_compute; reflexivity. Qed.

(** C9, where the code departs from it: an absent numeric value is to
    show as an empty cell, and an absent [frames] shows as [None].  The row
    is built with [e.get("frames")], so it always has the key [frames], and
    the default of [r.get('frames','')] is never used.  The other absent
    values of the same row show as empty cells: the resolution, which needs
    [width] and [height], and every cell that goes through [_safe], [_fmt]
    or [_fmt_ms]. *)
Lemma absent_frames_cell_is_None :
  get Sample.export "frames" = JNull
  /\ perf_gate Sample.export = true
  /\ py_str (p_frames (perf_of Sample.export)) = "None"
  /\ perf_line (perf_of Sample.export)
     = Ok (cells ["export"; ""; "None"; "15.00"; "ExportPerfTests";
                  "testExport"]).
Proof. repeat split; vm_compute; reflexivity. Qed.



(** ** Substrings *)

Lemma prefix_spec (p s : string) :
  String.prefix p s = true <-> exists t, s = p +:+ t.
Proof.
  revert s. induction p as [|c p IH]; intros s.
  - destruct s; simpl; split; eauto.
  - destruct s as [|d s]; simpl.
    + split; [discriminate|]. intros [t Ht]. discriminate.
    + destruct (ascii_dec c d) as [->|Hne].
      * rewrite IH. split; intros [t Ht]; exists t.
        -- now rewrite sapp_cons, <- Ht.
        -- rewrite sapp_cons in Ht. now injection Ht.
      * split; [discriminate|]. intros [t Ht].
        rewrite sapp_cons in Ht. injection Ht as Hd _. congruence.
Qed.

Lemma prefix_false (p s t : string) :
  String.prefix p s = false -> s <> p +:+ t.
Proof.
  intros Hp Heq. assert (String.prefix p s = true) as Htrue.
  { apply prefix_spec. now exists t. }
  congruence.
Qed.

Lemma drop_bytes_app (p t : string) : drop_bytes (String.length p) (p +:+ t) = t.
Proof. induction p as [|c p IH]; [now destruct t|]. exact IH. Qed.

Lemma prefix_drop (p s : string) :
  String.prefix p s = true -> s = p +:+ drop_bytes (String.length p) s.
Proof.
  intros Hp. apply prefix_spec in Hp as [t ->]. now rewrite drop_bytes_app.
Qed.

Lemma contains_spec (x s : string) : contains x s = true <-> Substring x s.
Proof.
  unfold Substring. induction s as [|c s IH].
  - cbn [contains]. rewrite orb_false_r, prefix_spec. split.
    + intros [t Ht]. now exists "", t.
    + intros (b & a & Hs). destruct b; [now exists a|discriminate].
  - cbn [contains]. rewrite orb_true_iff, prefix_spec, IH. split.
    + intros [[t Ht]|(b & a & Hs)].
      * now exists "", t.
      * exists (String c b), a. now rewrite sapp_cons, Hs.
    + intros (b & a & Hs). destruct b as [|d b].
      * left. now exists a.
      * right. rewrite sapp_cons in Hs. injection Hs as _ Hs. now exists b, a.
Qed.

Lemma contains_middle (x before after : string) :
  contains x (before +:+ x +:+ after) = true.
Proof. apply contains_spec. now exists before, after. Qed.

(** [split1] finds the first occurrence of the separator, or none. *)
Lemma split1_spec (sep s : string) :
  (exists head rest,
      split1 sep s = [head; rest]
      /\ s = head +:+ sep +:+ rest
      /\ forall h r, s = h +:+ sep +:+ r ->
           (String.length head <= String.length h)%nat)
  \/ (split1 sep s = [s] /\ ~ Substring sep s).
Proof.
  induction s as [|c s IH].
  - cbn [split1]. destruct (String.prefix sep "") eqn:Hp.
    + left. exists "", (drop_bytes (String.length sep) "").
      split; [reflexivity|]. split.
      * now apply prefix_drop.
      * intros h r _. simpl. lia.
    + right. split; [reflexivity|]. intros Hsub.
      apply contains_spec in Hsub. cbn [contains] in Hsub.
      now rewrite Hp in Hsub.
  - cbn [split1]. destruct (String.prefix sep (String c s)) eqn:Hp.
    + left. exists "", (drop_bytes (String.length sep) (String c s)).
      split; [reflexivity|]. split.
      * now apply prefix_drop.
      * intros h r _. simpl. lia.
    + destruct IH as [(head & rest & -> & Hs & Hmin)|[-> Hno]].
      * left. exists (String c head), rest. split; [reflexivity|]. split.
        -- now rewrite sapp_cons, <- Hs.
        -- intros h r Hh. destruct h as [|d h].
           ++ rewrite sapp_nil_l in Hh. now apply (prefix_false _ _ _ Hp) in Hh.
           ++ rewrite sapp_cons in Hh. injection Hh as _ Hh.
              apply Hmin in Hh. simpl. lia.
      * right. split; [reflexivity|]. intros (b & a & Hsub).
        destruct b as [|d b].
        -- rewrite sapp_nil_l in Hsub. now apply (prefix_false _ _ _ Hp) in Hsub.
        -- rewrite sapp_cons in Hsub. injection Hsub as _ Hsub.
           apply Hno. now exists b, a.
Qed.

(** ** Carriage returns *)

Lemma no_cr_app (s t : string) : no_cr (s +:+ t) = no_cr s && no_cr t.
Proof.
  induction s as [|c s IH]; [reflexivity|].
  rewrite sapp_cons. simpl. now rewrite IH, andb_assoc.
Qed.

Lemma universal_newlines_no_cr (s : string) :
  no_cr (universal_newlines s) = true.
Proof.
  induction s as [|c s IH]; [reflexivity|].
  cbn [universal_newlines]. destruct (Ascii.eqb c CR) eqn:Hc.
  - destruct s as [|d s]; [reflexivity|].
    destruct (Ascii.eqb d LF) eqn:Hd; [|exact IH].
    apply Ascii.eqb_eq in Hd. subst d. exact IH.
  - cbn [no_cr]. now rewrite Hc, IH.
Qed.

Lemma universal_newlines_id (s : string) :
  no_cr s = true -> universal_newlines s = s.
Proof.
  induction s as [|c s IH]; [reflexivity|].
  cbn [no_cr universal_newlines]. intros [Hc Hs]%andb_true_iff.
  apply negb_true_iff in Hc. now rewrite Hc, IH.
Qed.

(** ** UTF-8 *)

(** Between characters the bounds of the next byte do not matter. *)
Lemma utf8_from_0 (lo hi : N) (s : string) :
  utf8_from 0 lo hi s = utf8_valid s.
Proof. now destruct s. Qed.

Lemma utf8_from_app (need : nat) (lo hi : N) (s t : string) :
  utf8_from need lo hi s = true -> utf8_valid t = true ->
  utf8_from need lo hi (s +:+ t) = true.
Proof.
  revert need lo hi. induction s as [|c s IH]; intros need lo hi Hs Ht.
  - destruct need; [|discriminate]. now rewrite sapp_nil_l, utf8_from_0.
  - rewrite sapp_cons. cbn [utf8_from] in *.
    destruct need as [|need].
    + repeat match goal with
             | H : (if ?b then _ else _) = true |- _ =>
                 destruct b; [now apply IH|]
             end.
      discriminate.
    + apply andb_true_iff in Hs as [-> Hs]. now apply IH.
Qed.

Lemma utf8_valid_app (s t : string) :
  utf8_valid s = true -> utf8_valid t = true -> utf8_valid (s +:+ t) = true.
Proof. apply utf8_from_app. Qed.

Lemma is_ascii_app (s t : string) :
  is_ascii (s +:+ t) = is_ascii s && is_ascii t.
Proof.
  induction s as [|c s IH]; [reflexivity|].
  rewrite sapp_cons. cbn [is_ascii]. now rewrite IH, andb_assoc.
Qed.

Lemma ascii_prefix_valid (m r : string) :
  is_ascii m = true -> utf8_valid (m +:+ r) = utf8_valid r.
Proof.
  induction m as [|c m IH]; [reflexivity|].
  cbn [is_ascii]. intros [Hc Hm]%andb_true_iff. rewrite sapp_cons.
  unfold utf8_valid at 1. cbn [utf8_from]. rewrite Hc, utf8_from_0.
  now apply IH.
Qed.

Lemma is_ascii_valid (s : string) : is_ascii s = true -> utf8_valid s = true.
Proof.
  intros Hs. rewrite <- (sapp_nil_r s). now rewrite ascii_prefix_valid.
Qed.

(** A well-formed text can be cut in front of an ASCII character. *)
Lemma utf8_from_cut (need : nat) (lo hi : N) (s : string) (c : ascii)
    (t : string) :
  (128 <= lo)%N -> (N_of_ascii c < 128)%N ->
  utf8_from need lo hi (s +:+ String c t) = true ->
  utf8_from need lo hi s = true /\ utf8_valid (String c t) = true.
Proof.
  intros Hlo Hc. revert need lo hi Hlo.
  induction s as [|d s IH]; intros need lo hi Hlo Hst.
  - rewrite sapp_nil_l in Hst. destruct need as [|need].
    + now rewrite utf8_from_0 in Hst.
    + cbn [utf8_from] in Hst. apply andb_true_iff in Hst as [Hb _].
      apply andb_true_iff in Hb as [Hb _]. apply N.leb_le in Hb. lia.
  - rewrite sapp_cons in Hst. cbn [utf8_from] in *.
    destruct need as [|need].
    + repeat match goal with
             | H : (if ?b then _ else _) = true |- _ =>
                 destruct b; [apply IH; [lia|assumption]|]
             end.
      discriminate.
    + apply andb_true_iff in Hst as [-> Hst]. apply IH; [lia|assumption].
Qed.

Lemma utf8_valid_cut (s : string) (c : ascii) (t : string) :
  (N_of_ascii c < 128)%N ->
  utf8_valid (s +:+ String c t) = true ->
  utf8_valid s = true /\ utf8_valid (String c t) = true.
Proof. intros Hc. now apply utf8_from_cut. Qed.

(** Universal newlines keep a text well formed. *)
Lemma universal_newlines_from (n : nat) (s : string) (need : nat)
    (lo hi : N) :
  (String.length s <= n)%nat -> (128 <= lo)%N ->
  utf8_from need lo hi s = true ->
  utf8_from need lo hi (universal_newlines s) = true.
Proof.
  revert s need lo hi.
  induction n as [|n IH]; intros [|c s] need lo hi Hn Hlo Hs;
    try assumption; cbn [String.length] in Hn; [lia|].
  cbn [universal_newlines]. destruct (Ascii.eqb c CR) eqn:Hc.
  - apply Ascii.eqb_eq in Hc. subst c. destruct need as [|need].
    + change (utf8_from 0 lo hi (String CR s)) with (utf8_from 0 128 191 s)
        in Hs.
      destruct s as [|d s]; [reflexivity|].
      destruct (Ascii.eqb d LF) eqn:Hd.
      * apply Ascii.eqb_eq in Hd. subst d.
        change (utf8_from 0 128 191 (universal_newlines s) = true).
        apply IH; [cbn [String.length] in Hn; lia|lia|exact Hs].
      * change (utf8_from 0 128 191 (universal_newlines (String d s)) = true).
        apply IH; [lia|lia|exact Hs].
    + exfalso. cbn [utf8_from] in Hs.
      apply andb_true_iff in Hs as [Hb _].
      apply andb_true_iff in Hb as [Hb _]. apply N.leb_le in Hb.
      change (N_of_ascii CR) with 13%N in Hb. lia.
  - cbn [utf8_from] in *. destruct need as [|need].
    + repeat match goal with
             | H : (if ?b then _ else _) = true |- _ =>
                 destruct b; [apply IH; [lia|lia|assumption]|]
             end.
      discriminate.
    + apply andb_true_iff in Hs as [-> Hs]. apply IH; [lia|lia|assumption].
Qed.

Lemma universal_newlines_valid (s : string) :
  utf8_valid s = true -> utf8_valid (universal_newlines s) = true.
Proof. apply (universal_newlines_from (String.length s)); lia. Qed.

Lemma decode_text_Ok (stored existing : string) :
  decode_text stored = Ok existing ->
  utf8_valid stored = true
  /\ existing = universal_newlines stored
  /\ utf8_valid existing = true /\ no_cr existing = true.
Proof.
  unfold decode_text. destruct (utf8_valid stored) eqn:Hbytes; [|discriminate].
  intros [= <-]. split; [reflexivity|]. split; [reflexivity|].
  split; [now apply universal_newlines_valid|apply universal_newlines_no_cr].
Qed.

(** A text that starts with an ASCII character and ends with a line feed
    is well formed wherever it occurs in a well-formed text. *)
Lemma line_in_valid (c : ascii) (body before after : string) :
  (N_of_ascii c < 128)%N ->
  utf8_valid (before +:+ line (String c body) +:+ after) = true ->
  utf8_valid (line (String c body)) = true.
Proof.
  intros Hc Hall. unfold line in *.
  rewrite !sapp_assoc, !sapp_cons in Hall.
  apply utf8_valid_cut in Hall as [_ Hrest]; [|assumption].
  unfold nl in Hrest. rewrite sapp_cons, sapp_nil_l, <- sapp_cons in Hrest.
  apply utf8_valid_cut in Hrest as [Hbody _]; [|reflexivity].
  now apply utf8_valid_app.
Qed.

(** ** Writing *)

Lemma write_all_app (p q : list (result string)) :
  write_all (p ++ q)
  = match write_all p with
    | (text, None) => let '(more, err) := write_all q in (text +:+ more, err)
    | stopped => stopped
    end.
Proof.
  induction p as [|[s|x] p IH]; cbn [app write_all].
  - now destruct (write_all q).
  - destruct (utf8_valid s); [|reflexivity]. rewrite IH.
    destruct (write_all p) as [text [x|]]; [reflexivity|].
    destruct (write_all q) as [more err]. now rewrite sapp_assoc.
  - reflexivity.
Qed.

(** Texts that can be encoded are written one after the other. *)
Lemma write_all_texts (ls : list string) :
  forallb utf8_valid ls = true ->
  write_all (Ok <$> ls) = (concat_lines ls, None).
Proof.
  induction ls as [|s ls IH]; [reflexivity|].
  cbn [forallb]. intros [Hs Hls]%andb_true_iff.
  cbn [fmap list_fmap write_all]. rewrite Hs.
  change (list_fmap _ _ Ok ls) with (Ok <$> ls). now rewrite (IH Hls).
Qed.

(** A writing that ends has written texts that can be encoded. *)
Lemma write_all_ended (pieces : list (result string)) (text : string) :
  write_all pieces = (text, None) ->
  exists ls,
    pieces = Ok <$> ls /\ forallb utf8_valid ls = true
    /\ text = concat_lines ls.
Proof.
  revert text. induction pieces as [|[s|x] pieces IH]; intros text;
    cbn [write_all].
  - intros [= <-]. now exists [].
  - destruct (utf8_valid s) eqn:Hs; [|discriminate].
    destruct (write_all pieces) as [more err]. intros [= <- ->].
    destruct (IH more eq_refl) as (ls & -> & Hls & ->).
    exists (s :: ls). cbn [forallb]. now rewrite Hs, Hls.
  - discriminate.
Qed.

Lemma write_all_valid (pieces : list (result string)) (text : string)
    (err : option exn) :
  write_all pieces = (text, err) -> utf8_valid text = true.
Proof.
  revert text err. induction pieces as [|[s|x] pieces IH]; intros text err;
    cbn [write_all]; try (now intros [= <- <-]).
  destruct (utf8_valid s) eqn:Hs; [|now intros [= <- <-]].
  destruct (write_all pieces) as [more err']. intros [= <- <-].
  apply utf8_valid_app; [assumption|]. now apply (IH more err').
Qed.

(** ** The index step *)

Lemma with_entry_contains (existing entry : string) :
  contains entry (with_entry existing entry) = true.
Proof.
  unfold with_entry.
  destruct (split1_spec runs_marker existing)
    as [(head & rest & -> & _)|[-> _]].
  - rewrite <- (sapp_assoc head runs_marker). apply contains_middle.
  - apply contains_spec. exists (existing +:+ nl), "".
    now rewrite sapp_nil_r, sapp_assoc.
Qed.

Lemma with_entry_no_cr (existing entry : string) :
  no_cr existing = true -> no_cr entry = true ->
  no_cr (with_entry existing entry) = true.
Proof.
  intros Hex Hen. unfold with_entry.
  destruct (split1_spec runs_marker existing)
    as [(head & rest & -> & Hs & _)|[-> _]].
  - rewrite Hs, !no_cr_app in Hex. rewrite !no_cr_app, Hen.
    apply andb_true_iff in Hex as [-> [-> ->]%andb_true_iff]. reflexivity.
  - now rewrite !no_cr_app, Hex, Hen.
Qed.

Lemma with_entry_valid (existing entry : string) :
  utf8_valid existing = true -> utf8_valid entry = true ->
  utf8_valid (with_entry existing entry) = true.
Proof.
  intros Hex Hen. unfold with_entry.
  destruct (split1_spec runs_marker existing)
    as [(head & rest & -> & Hs & _)|[-> _]].
  - rewrite Hs in Hex.
    change runs_marker with (String "#"%char (drop_bytes 1 runs_marker)) in Hex.
    rewrite sapp_cons in Hex.
    apply utf8_valid_cut in Hex as [Hhead Hrest]; [|reflexivity].
    rewrite <- sapp_cons in Hrest.
    change (String "#"%char (drop_bytes 1 runs_marker)) with runs_marker
      in Hrest.
    rewrite ascii_prefix_valid in Hrest by reflexivity.
    apply utf8_valid_app; [assumption|].
    rewrite ascii_prefix_valid by reflexivity.
    now apply utf8_valid_app.
  - apply utf8_valid_app; [assumption|]. now apply utf8_valid_app.
Qed.

Lemma write_text_valid (fs : files) (p : path) (text : string) :
  utf8_valid text = true -> write_text fs p text = (<[p := text]> fs, None).
Proof.
  intros Htext. unfold write_text. cbn [write_all]. rewrite Htext.
  now rewrite sapp_nil_r.
Qed.

Lemma write_text_ended (fs fs' : files) (p : path) (text : string) :
  write_text fs p text = (fs', None) ->
  utf8_valid text = true /\ fs' = <[p := text]> fs.
Proof.
  unfold write_text. cbn [write_all].
  destruct (utf8_valid text); [|discriminate].
  rewrite sapp_nil_r. now intros [= <-].
Qed.

(** An index step that ends: the index could be decoded, and holds
    [index_after]; no other file is touched. *)
Lemma index_step_ended (a : args) (fs fs' : files) :
  index_step a fs = (fs', None) ->
  fs' !! index_md a
  = Some (index_after (fs !! index_md a) (index_entry a))
  /\ utf8_valid (default index_preamble (fs !! index_md a)) = true
  /\ utf8_valid (index_after (fs !! index_md a) (index_entry a)) = true
  /\ forall p, p <> index_md a -> fs' !! p = fs !! p.
Proof.
  unfold index_step, index_after.
  destruct (fs !! index_md a) as [stored|] eqn:Hfile; cbn [default id].
  - rewrite Hfile. cbn [default id].
    destruct (decode_text stored) as [existing|] eqn:Hread; [|discriminate].
    apply decode_text_Ok in Hread as (Hbytes & -> & _).
    destruct (contains _ _); cbn [negb].
    + intros [= <-]. split; [assumption|]. split; [assumption|].
      split; [assumption|]. reflexivity.
    + intros [Htext ->]%write_text_ended. rewrite lookup_insert_eq.
      split; [reflexivity|]. split; [assumption|]. split; [assumption|].
      intros p Hp. now rewrite lookup_insert_ne by congruence.
  - rewrite lookup_insert_eq. cbn [default id].
    change (decode_text index_preamble)
      with (Ok (universal_newlines index_preamble) : result string).
    cbv beta iota.
    destruct (contains (index_entry a) (universal_newlines index_preamble));
      cbn [negb].
    + intros [= <-]. rewrite lookup_insert_eq. split; [reflexivity|].
      split; [reflexivity|]. split; [reflexivity|].
      intros p Hp. now rewrite lookup_insert_ne by congruence.
    + intros [Htext ->]%write_text_ended. rewrite lookup_insert_eq.
      split; [reflexivity|]. split; [reflexivity|]. split; [assumption|].
      intros p Hp. now rewrite !lookup_insert_ne by congruence.
Qed.

(** Whether it ends or not, the index step touches no other file. *)
Lemma index_step_other (a : args) (fs fs' : files) (err : option exn)
    (p : path) :
  index_step a fs = (fs', err) -> p <> index_md a -> fs' !! p = fs !! p.
Proof.
  unfold index_step, write_text. cbn [write_all]. intros Hstep Hp.
  destruct (fs !! index_md a) as [stored|] eqn:Hfile;
    destruct (decode_text _); try destruct (negb _);
    try destruct (utf8_valid _);
    injection Hstep as <- _;
    rewrite ?lookup_insert_ne by congruence; reflexivity.
Qed.

(** The index step ends when the index can be decoded and the entry can be
    encoded. *)
Lemma index_step_ends (a : args) (fs : files) :
  utf8_valid (default "" (fs !! index_md a)) = true ->
  utf8_valid (index_entry a) = true ->
  exists fs', index_step a fs = (fs', None).
Proof.
  intros Hbytes Hentry. unfold index_step.
  destruct (fs !! index_md a) as [stored|] eqn:Hfile; cbn [default id] in *.
  - rewrite Hfile. cbn [default id]. unfold decode_text. rewrite Hbytes.
    destruct (contains _ _); cbn [negb]; [eauto|].
    rewrite write_text_valid; [eauto|].
    apply with_entry_valid; [now apply universal_newlines_valid|assumption].
  - rewrite lookup_insert_eq. cbn [default id].
    change (decode_text index_preamble)
      with (Ok (universal_newlines index_preamble) : result string).
    cbv beta iota.
    destruct (contains (index_entry a) (universal_newlines index_preamble));
      cbn [negb]; [eauto|].
    rewrite write_text_valid; [eauto|].
    now apply with_entry_valid.
Qed.

Lemma index_after_Some (stored entry : string) :
  index_after (Some stored) entry
  = if contains entry (universal_newlines stored) then stored
    else with_entry (universal_newlines stored) entry.
Proof. reflexivity. Qed.

(** After the index step, what is read from the index has the entry in it,
    when the entry has no carriage return. *)
Lemma index_after_contains (stored : option string) (entry : string) :
  no_cr entry = true ->
  contains entry (universal_newlines (index_after stored entry)) = true.
Proof.
  intros Hen. unfold index_after.
  destruct (contains entry (universal_newlines (default index_preamble stored)))
    eqn:Hin; [assumption|].
  rewrite universal_newlines_id; [apply with_entry_contains|].
  apply with_entry_no_cr; [apply universal_newlines_no_cr|assumption].
Qed.

(** The entry of an index step that ended can be encoded: it is in a text
    that was decoded or encoded. *)
Lemma index_entry_valid (stored : option string) (run rel : string) :
  utf8_valid (default index_preamble stored) = true ->
  utf8_valid (index_after stored (index_line run rel)) = true ->
  utf8_valid (index_line run rel) = true.
Proof.
  intros Hstored Hafter. unfold index_after in Hafter.
  set (existing := universal_newlines (default index_preamble stored)) in *.
  assert (Hin : exists before after,
             utf8_valid (before +:+ index_line run rel +:+ after) = true).
  { destruct (contains (index_line run rel) existing) eqn:Hin.
    - apply contains_spec in Hin as (before & after & Hin).
      exists before, after. rewrite <- Hin.
      now apply universal_newlines_valid.
    - assert (Hc := with_entry_contains existing (index_line run rel)).
      apply contains_spec in Hc as (before & after & Hc).
      exists before, after. now rewrite <- Hc. }
  destruct Hin as (before & after & Hin). unfold index_line in *.
  rewrite !sapp_cons in *. eapply line_in_valid; [|exact Hin]. reflexivity.
Qed.

(** C5: when the entry is not in the text read from the index, the update
    puts it right after the first marker (the heading [## Runs] and the empty
    line under it), in front of the runs listed before; without a marker the
    entry goes to the end of the text, after a line break.  The index step
    of [main] stores that text, for an index it can decode and an entry it
    can encode. *)
Theorem index_entry_goes_after_marker (existing entry : string) :
  contains entry existing = false ->
  (Substring runs_marker existing ->
     exists head rest,
       existing = head +:+ runs_marker +:+ rest
       /\ (forall h r, existing = h +:+ runs_marker +:+ r ->
             (String.length head <= String.length h)%nat)
       /\ update_index existing entry
          = head +:+ runs_marker +:+ entry +:+ rest)
  /\ (~ Substring runs_marker existing ->
        update_index existing entry = existing +:+ nl +:+ entry)
  /\ (forall a fs stored,
        fs !! index_md a = Some stored ->
        decode_text stored = Ok existing ->
        index_entry a = entry ->
        utf8_valid entry = true ->
        index_step a fs
        = (<[index_md a := update_index existing entry]> fs, None)).
Proof.
  intros Hnew. unfold update_index. rewrite Hnew. cbn [negb].
  split; [|split].
  - intros Hmarker. unfold with_entry.
    destruct (split1_spec runs_marker existing)
      as [(head & rest & -> & Hs & Hmin)|[_ Hno]]; [|now destruct Hno].
    now exists head, rest.
  - intros Hno. unfold with_entry.
    destruct (split1_spec runs_marker existing)
      as [(head & rest & _ & Hs & _)|[-> _]]; [|reflexivity].
    destruct Hno. now exists head, rest.
  - intros a fs stored Hfile Hread <- Hentry. unfold index_step.
    rewrite Hfile. cbn [default id]. rewrite Hfile. cbn [default id].
    rewrite Hread, Hnew. cbn [negb].
    apply write_text_valid, with_entry_valid; [|assumption].
    now apply decode_text_Ok in Hread as (_ & _ & Hvalid & _).
Qed.

Lemma index_entry_goes_after_marker_witness :
  contains (index_line "A" "A") index_preamble = false
  /\ (exists head rest,
        index_preamble = head +:+ runs_marker +:+ rest
        /\ update_index index_preamble (index_line "A" "A")
           = head +:+ runs_marker +:+ index_line "A" "A" +:+ rest)
  /\ update_index "# Metrics" (index_line "A" "A")
     = "# Metrics" +:+ nl +:+ index_line "A" "A".
Proof.
  assert (Hnew : contains (index_line "A" "A") index_preamble = false)
    by reflexivity.
  split; [exact Hnew|]. split.
  - destruct (proj1 (index_entry_goes_after_marker index_preamble
                       (index_line "A" "A") Hnew))
      as (head & rest & Hsplit & _ & Hupdate).
    + apply contains_spec. reflexivity.
    + now exists head, rest.
  - apply (index_entry_goes_after_marker "# Metrics" (index_line "A" "A"));
      [reflexivity|].
    intros Hsub. apply contains_spec in Hsub. discriminate.
Defined.

(** ** Texts that can always be written *)

Lemma string_of_uint_ascii (d : Decimal.uint) :
  is_ascii (NilEmpty.string_of_uint d) = true.
Proof. induction d; [reflexivity|..]; exact IHd. Qed.

Lemma int_str_ascii (z : Z) : is_ascii (int_str z) = true.
Proof.
  unfold int_str, NilZero.string_of_int, NilZero.string_of_uint.
  destruct (Z.to_int z) as [d|d]; destruct d; try reflexivity;
    match goal with
    | |- is_ascii (NilEmpty.string_of_uint ?u) = true =>
        apply (string_of_uint_ascii u)
    | |- is_ascii (String _ (NilEmpty.string_of_uint ?u)) = true =>
        apply (string_of_uint_ascii u)
    end.
Qed.

Lemma zero_pad_ascii (width : nat) (s : string) :
  is_ascii s = true -> is_ascii (zero_pad width s) = true.
Proof.
  intros Hs. unfold zero_pad. rewrite is_ascii_app, Hs, andb_true_r.
  induction (width - String.length s)%nat as [|n IH]; [reflexivity|exact IH].
Qed.

Lemma strftime_ascii (now : utc) : is_ascii (strftime now) = true.
Proof.
  unfold strftime. rewrite !is_ascii_app.
  rewrite !zero_pad_ascii by apply int_str_ascii. reflexivity.
Qed.

Lemma join_components_valid (l : list string) :
  forallb utf8_valid l = true -> utf8_valid (join_components l) = true.
Proof.
  induction l as [|x l IH]; [reflexivity|].
  cbn [forallb]. intros [Hx Hl]%andb_true_iff.
  destruct l as [|y l]; [assumption|].
  change (join_components (x :: y :: l))
    with (x +:+ "/" +:+ join_components (y :: l)).
  apply utf8_valid_app; [assumption|].
  rewrite ascii_prefix_valid by reflexivity. now apply IH.
Qed.

Lemma relpath_valid (p start : path) :
  forallb utf8_valid p = true -> utf8_valid (relpath p start) = true.
Proof.
  intros Hp. unfold relpath.
  set (rel_list := repeat ".." _ ++ drop _ p).
  assert (Hrel : forallb utf8_valid rel_list = true).
  { subst rel_list. rewrite forallb_app. apply andb_true_iff. split.
    - induction (length start - _)%nat as [|n IH]; [reflexivity|exact IH].
    - apply forallb_forall. intros x Hx.
      rewrite forallb_forall in Hp. apply Hp.
      apply list_elem_of_In. apply list_elem_of_In in Hx.
      eapply subseteq_drop; eassumption. }
  destruct rel_list; [reflexivity|]. now apply join_components_valid.
Qed.

Lemma forallb_path_join (p : path) (name : string) :
  forallb utf8_valid p = true -> utf8_valid name = true ->
  forallb utf8_valid (p / name)%path = true.
Proof.
  intros Hp Hname. unfold path_join. rewrite forallb_app, Hp.
  cbn [forallb]. now rewrite Hname.
Qed.

Lemma utc_line_valid (now : utc) : utf8_valid (utc_line now) = true.
Proof.
  apply is_ascii_valid. unfold utc_line, line.
  now rewrite !is_ascii_app, strftime_ascii.
Qed.

Lemma write_all_app_ended (p q : list (result string)) (text : string) :
  write_all (p ++ q) = (text, None) ->
  exists t u,
    write_all p = (t, None) /\ write_all q = (u, None) /\ text = t +:+ u.
Proof.
  rewrite write_all_app. destruct (write_all p) as [t [x|]]; [discriminate|].
  destruct (write_all q) as [u err]. intros [= <- ->]. now exists t, u.
Qed.

Lemma write_all_app_texts (p q : list (result string)) (t u : string)
    (err : option exn) :
  write_all p = (t, None) -> write_all q = (u, err) ->
  write_all (p ++ q) = (t +:+ u, err).
Proof. intros Hp Hq. now rewrite write_all_app, Hp, Hq. Qed.

(** Pieces that are all texts that can be encoded are all written. *)
Lemma write_all_of_texts (pieces : list (result string)) :
  forallb written_piece pieces = true ->
  write_all pieces = (concat_lines (texts_of pieces), None).
Proof.
  induction pieces as [|[s|x] pieces IH]; [reflexivity| |discriminate].
  cbn [forallb written_piece]. intros [Hs Hrest]%andb_true_iff.
  cbn [write_all]. now rewrite Hs, (IH Hrest).
Qed.

(** ** The files of a run *)

Lemma path_join_name (p q : path) (x y : string) :
  (p / x)%path = (q / y)%path -> x = y.
Proof. unfold path_join. now intros [_ ?]%app_inj_tail. Qed.

Lemma distinct_files (a : args) :
  events_jsonl a <> summary_md a
  /\ events_jsonl a <> index_md a
  /\ summary_md a <> index_md a
  /\ events_jsonl a <> perf_jsonl a
  /\ summary_md a <> perf_jsonl a
  /\ index_md a <> perf_jsonl a.
Proof.
  unfold events_jsonl, summary_md, index_md, perf_jsonl.
  repeat split; intros Heq; apply path_join_name in Heq; discriminate.
Qed.

Section RunFacts.
Context `{PyLib}.

(** The archive is written whole, or up to the first event whose text
    cannot be encoded. *)
Lemma events_lines_ended (events : list event) (text : string) :
  write_all (events_lines events) = (text, None) ->
  text = events_text events
  /\ Forall (fun e => utf8_valid (line (json_dumps (JObj e))) = true) events.
Proof.
  revert text. induction events as [|e events IH]; intros text.
  - intros [= <-]. now split.
  - unfold events_lines, events_text. cbn [map write_all concat_lines foldr].
    destruct (utf8_valid _) eqn:He; [|discriminate].
    fold (events_lines events).
    destruct (write_all (events_lines events)) as [more err].
    intros [= <- ->]. destruct (IH more eq_refl) as [-> Hrest].
    split; [reflexivity|]. now constructor.
Qed.

Lemma events_lines_written (events : list event) :
  Forall (fun e => utf8_valid (json_dumps (JObj e)) = true) events ->
  write_all (events_lines events) = (events_text events, None).
Proof.
  induction 1 as [|e events He _ IH]; [reflexivity|].
  unfold events_lines, events_text. cbn [map write_all concat_lines foldr].
  fold (events_lines events). unfold line at 1.
  rewrite utf8_valid_app by (assumption || reflexivity).
  now rewrite IH.
Qed.

(** What a run leaves when its archive and its report are written. *)
Lemma main_runs (a : args) (now : utc) (fs : files)
    (events : list event) (rs : rows) (text : string) :
  run_events a fs = Ok events ->
  write_all (events_lines events) = (events_text events, None) ->
  tables events = Ok rs ->
  write_all (report a now events rs) = (text, None) ->
  main a now fs
  = index_step a (<[summary_md a := text]>
                    (<[events_jsonl a := events_text events]> fs)).
Proof.
  unfold main. intros -> -> -> ->. reflexivity.
Qed.

(** What a run that ends leaves in the four files it deals with. *)
Lemma main_files (a : args) (now : utc) (fs fs' : files) :
  main a now fs = (fs', None) ->
  exists events rs text,
    run_events a fs = Ok events
    /\ write_all (events_lines events) = (events_text events, None)
    /\ tables events = Ok rs
    /\ write_all (report a now events rs) = (text, None)
    /\ fs' !! events_jsonl a = Some (events_text events)
    /\ fs' !! summary_md a = Some text
    /\ fs' !! index_md a
       = Some (index_after (fs !! index_md a) (index_entry a))
    /\ utf8_valid (index_after (fs !! index_md a) (index_entry a)) = true
    /\ utf8_valid (index_entry a) = true
    /\ fs' !! perf_jsonl a = fs !! perf_jsonl a.
Proof.
  unfold main. intros Hrun.
  destruct (run_events a fs) as [events|] eqn:Hevents; [|discriminate].
  destruct (write_all (events_lines events)) as [archive [x|]] eqn:Harchive;
    [discriminate|].
  destruct (events_lines_ended _ _ Harchive) as [-> _].
  destruct (tables events) as [rs|] eqn:Hrows; [|discriminate].
  destruct (write_all (report a now events rs)) as [text [x|]] eqn:Htext;
    [discriminate|].
  destruct (distinct_files a) as (Hes & Hei & Hsi & Hep & Hsp & Hip).
  destruct (index_step_ended _ _ _ Hrun) as (Hindex & Hold & Hnew & Hother).
  rewrite !lookup_insert_ne in Hindex, Hold, Hnew by congruence.
  exists events, rs, text. do 4 (split; [first [reflexivity|assumption]|]).
  split; [|split; [|split; [|split; [|split]]]].
  - rewrite Hother by congruence.
    rewrite lookup_insert_ne by congruence. apply lookup_insert_eq.
  - rewrite Hother by congruence. apply lookup_insert_eq.
  - exact Hindex.
  - exact Hnew.
  - unfold index_entry in *. now apply (index_entry_valid _ _ _ Hold).
  - rewrite Hother by congruence.
    now rewrite !lookup_insert_ne by congruence.
Qed.

Lemma strftime_nonempty (now : utc) : String.eqb (strftime now) "" = false.
Proof.
  apply String.eqb_neq. intros Hempty.
  apply (f_equal String.length) in Hempty. unfold strftime in Hempty.
  rewrite !length_sapp in Hempty. simpl in Hempty. lia.
Qed.

(** The [write] calls of a report are the same at any time, the line of
    the clock apart. *)
Lemma report_split (a : args) (events : list event) (rs : rows) :
  exists before after,
    forall now,
      report a now events rs = before ++ Ok (utc_line now) :: after.
Proof.
  eexists ([Ok (line "# MetaVis Metrics Run" +:+ nl);
            Ok (line ("- runID: `" +:+ run_id a +:+ "`"));
            Ok (line ("- events: `" +:+ int_str (Z.of_nat (length events))
                      +:+ "`"))]
           ++ (if truthy (first_field events "osVersion")
               then [Ok (line ("- os: `"
                               +:+ py_str (first_field events "osVersion")
                               +:+ "`"))] else [])
           ++ (if truthy (first_field events "processArch")
               then [Ok (line ("- arch: `"
                               +:+ py_str (first_field events "processArch")
                               +:+ "`"))] else [])), _.
  intros now. unfold report, summary_text, header_text, utc_line.
  cbn [make_header h_runID h_count h_generatedUTC h_osVersion h_arch truthy].
  rewrite strftime_nonempty. cbn [negb].
  rewrite <- !List.app_assoc. reflexivity.
Qed.

Lemma report_shape (a : args) (now1 : utc) (events : list event) (rs : rows)
    (text : string) :
  write_all (report a now1 events rs) = (text, None) ->
  exists pre post,
    forall now,
      write_all (report a now events rs)
      = (pre +:+ utc_line now +:+ post, None).
Proof.
  destruct (report_split a events rs) as (before & after & Hsplit).
  rewrite Hsplit. intros (pre & rest & Hpre & Hrest & _)%write_all_app_ended.
  cbn [write_all] in Hrest. rewrite utc_line_valid in Hrest.
  destruct (write_all after) as [post [x|]] eqn:Hpost; [discriminate|].
  exists pre, post. intros now. rewrite Hsplit.
  apply write_all_app_texts; [assumption|].
  cbn [write_all]. now rewrite utc_line_valid, Hpost.
Qed.


End RunFacts.

Section EmptyRun.
Context `{PyLib}.

Lemma quoted_line_valid (pre s : string) :
  is_ascii pre = true -> utf8_valid s = true ->
  utf8_valid (line (pre +:+ s +:+ "`")) = true.
Proof.
  intros Hpre Hs. unfold line. rewrite !sapp_assoc.
  rewrite ascii_prefix_valid by assumption. now apply utf8_valid_app.
Qed.

Lemma encodable_args_paths (a : args) :
  encodable_args a = true ->
  utf8_valid (run_id a) = true
  /\ utf8_valid (relpath (events_jsonl a) (repo_root a)) = true
  /\ utf8_valid (relpath (summary_md a) (repo_root a)) = true
  /\ utf8_valid (index_entry a) = true.
Proof.
  unfold encodable_args.
  intros [[Hrun Hout]%andb_true_iff Hroot]%andb_true_iff.
  split; [assumption|]. split; [|split].
  - now apply relpath_valid, forallb_path_join.
  - now apply relpath_valid, forallb_path_join.
  - unfold index_entry, index_line, line. rewrite !sapp_assoc.
    rewrite ascii_prefix_valid by reflexivity.
    apply utf8_valid_app; [assumption|].
    rewrite ascii_prefix_valid by reflexivity.
    apply utf8_valid_app; [now apply relpath_valid|reflexivity].
Qed.


(** A log in which every record is an object of another run (or no log at
    all) has no event for the run. *)
Lemma run_filter_no_match (run : string) (records : list json) :
  Forall (fun v => exists e, v = JObj e /\ eq_str (get e "runID") run = false)
         records ->
  run_filter run records = Ok [].
Proof.
  induction 1 as [|v records (e & -> & Hne) _ IH]; [reflexivity|].
  cbn [run_filter]. now rewrite IH, Hne.
Qed.

End EmptyRun.


(** ** Running twice *)

Section Rerun.
Context `{PyLib}.

(** A run that ends can be repeated on any files with the same log: the
    events are the same, and so is the report but for the clock; only the
    index step can end the second run early. *)
Lemma second_run (a : args) (now1 now2 : utc) (fs fs' fs1 : files) :
  main a now1 fs = (fs1, None) ->
  fs' !! perf_jsonl a = fs !! perf_jsonl a ->
  exists events pre post,
    run_events a fs = Ok events
    /\ fs1 !! events_jsonl a = Some (events_text events)
    /\ fs1 !! summary_md a = Some (pre +:+ utc_line now1 +:+ post)
    /\ main a now2 fs'
       = index_step a (<[summary_md a := pre +:+ utc_line now2 +:+ post]>
                         (<[events_jsonl a := events_text events]> fs')).
Proof.
  intros Hrun1 Hlog.
  destruct (main_files a now1 fs fs1 Hrun1)
    as (events & rs & text1 & Hevents & Harchive & Hrows & Htext1
        & Hev1 & Hsum1 & _).
  destruct (report_shape a now1 events rs text1 Htext1)
    as (pre & post & Hshape).
  assert (Hevents' : run_events a fs' = Ok events).
  { unfold run_events in *. now rewrite Hlog. }
  rewrite Hshape in Htext1. injection Htext1 as <-.
  exists events, pre, post. split; [assumption|]. split; [assumption|].
  split; [assumption|].
  apply (main_runs a now2 fs' events rs); [assumption..|apply Hshape].
Qed.

(** C1, as the code has it: a run leaves the log as it found it, and a
    second run for the same arguments on the same log writes the same
    [events.jsonl], and a [summary.md] that differs from the first in the
    [generatedUTC] line alone: the two are the same text when the two runs
    read the same second off the clock.  The second run ends as well when
    it can decode the index it finds, as it can the one the first run
    left. *)
Theorem rerun_repeats_events_and_summary_but_the_clock
    (a : args) (now1 now2 : utc) (fs fs' fs1 : files) :
  main a now1 fs = (fs1, None) ->
  fs' !! perf_jsonl a = fs !! perf_jsonl a ->
  fs1 !! perf_jsonl a = fs !! perf_jsonl a
  /\ utf8_valid (default "" (fs1 !! index_md a)) = true
  /\ exists fs2 err,
       main a now2 fs' = (fs2, err)
       /\ (utf8_valid (default "" (fs' !! index_md a)) = true -> err = None)
       /\ fs2 !! events_jsonl a = fs1 !! events_jsonl a
       /\ (exists pre post,
             fs1 !! summary_md a = Some (pre +:+ utc_line now1 +:+ post)
             /\ fs2 !! summary_md a
                = Some (pre +:+ utc_line now2 +:+ post))
       /\ (strftime now2 = strftime now1 ->
             fs2 !! summary_md a = fs1 !! summary_md a).
Proof.
  intros Hrun1 Hlog.
  destruct (second_run a now1 now2 fs fs' fs1 Hrun1 Hlog)
    as (events & pre & post & Hevents & Hev1 & Hsum1 & Hrun2).
  destruct (main_files a now1 fs fs1 Hrun1)
    as (_ & _ & _ & _ & _ & _ & _ & _ & _ & Hidx1 & Hvalid1 & Hentry & Hlog1).
  destruct (distinct_files a) as (Hes & Hei & Hsi & _).
  split; [assumption|]. split; [now rewrite Hidx1|].
  destruct (index_step a _) as [fs2 err] eqn:Hstep in Hrun2.
  exists fs2, err. split; [assumption|].
  assert (Hsum2 : fs2 !! summary_md a
                  = Some (pre +:+ utc_line now2 +:+ post)).
  { rewrite (index_step_other _ _ _ _ _ Hstep) by congruence.
    apply lookup_insert_eq. }
  split; [|split; [|split]].
  - intros Hindex.
    destruct (index_step_ends a
                (<[summary_md a := pre +:+ utc_line now2 +:+ post]>
                   (<[events_jsonl a := events_text events]> fs')))
      as [fs'' Hends]; [|assumption|].
    + now rewrite !lookup_insert_ne by congruence.
    + rewrite Hends in Hstep. now injection Hstep as _ <-.
  - rewrite (index_step_other _ _ _ _ _ Hstep) by congruence.
    rewrite lookup_insert_ne by congruence.
    now rewrite lookup_insert_eq, Hev1.
  - now exists pre, post.
  - intros Hclock. rewrite Hsum1, Hsum2. unfold utc_line.
    now rewrite Hclock.
Qed.

(** C4, as the code has it: when the entry of the run has no carriage
    return, a second run leaves the index as the first run left it; and
    whatever the entry, an index in whose text the entry is read keeps its
    stored text. *)
Theorem index_update_is_idempotent
    (a : args) (now1 now2 : utc) (fs fs1 : files) :
  no_cr (index_entry a) = true ->
  main a now1 fs = (fs1, None) ->
  (exists fs2,
     main a now2 fs1 = (fs2, None)
     /\ fs2 !! index_md a = fs1 !! index_md a)
  /\ (forall entry stored,
        contains entry (universal_newlines stored) = true ->
        index_after (Some stored) entry = stored).
Proof.
  intros Hcr Hrun1. split.
  - destruct (main_files a now1 fs fs1 Hrun1)
      as (_ & _ & _ & _ & _ & _ & _ & _ & _ & Hidx1 & Hvalid1 & Hentry & Hlog1).
    destruct (second_run a now1 now2 fs fs1 fs1 Hrun1 Hlog1)
      as (events & pre & post & _ & _ & _ & Hrun2).
    destruct (distinct_files a) as (Hes & Hei & Hsi & _).
    destruct (index_step_ends a
                (<[summary_md a := pre +:+ utc_line now2 +:+ post]>
                   (<[events_jsonl a := events_text events]> fs1)))
      as [fs2 Hends]; [|assumption|].
    + now rewrite !lookup_insert_ne, Hidx1 by congruence.
    + rewrite Hends in Hrun2. exists fs2. split; [assumption|].
      destruct (main_files a now2 fs1 fs2 Hrun2)
        as (_ & _ & _ & _ & _ & _ & _ & _ & _ & Hidx2 & _).
      rewrite Hidx2, Hidx1, index_after_Some.
      now rewrite index_after_contains.
  - intros entry stored Hin. now rewrite index_after_Some, Hin.
Qed.
End Rerun.

Lemma ended_left_files (r : files * option exn) :
  Sample.ended r = true -> r = (Sample.left_files r, None).
Proof. now destruct r as [fs [x|]]. Qed.

Lemma sample_first_run :
  main Sample.a Sample.noon Sample.fs = (Sample.first_run, None).
Proof. apply ended_left_files. vm_compute. reflexivity. Qed.

Lemma sample_log_kept :
  Sample.first_run !! perf_jsonl Sample.a = Sample.fs !! perf_jsonl Sample.a.
Proof. vm_compute. reflexivity. Qed.

(** C1 as stated fails: on the sample log, a run at noon and a second run
    one second later, on the files the first one left, write the same
    [events.jsonl] and two different [summary.md]. *)
Lemma summary_differs_one_second_later :
  main Sample.a Sample.noon Sample.fs = (Sample.first_run, None)
  /\ Sample.first_run !! perf_jsonl Sample.a
     = Sample.fs !! perf_jsonl Sample.a
  /\ main Sample.a Sample.later Sample.first_run = (Sample.second_run, None)
  /\ Sample.second_run !! events_jsonl Sample.a
     = Sample.first_run !! events_jsonl Sample.a
  /\ Sample.second_run !! summary_md Sample.a
     <> Sample.first_run !! summary_md Sample.a.
Proof.
  split; [exact sample_first_run|].
  split; [exact sample_log_kept|].
  split; [apply ended_left_files; vm_compute; reflexivity|].
  split; [vm_compute; reflexivity|].
  vm_compute. discriminate.
Qed.

Lemma rerun_witness :
  main Sample.a Sample.noon Sample.fs = (Sample.first_run, None)
  /\ Sample.first_run !! perf_jsonl Sample.a
     = Sample.fs !! perf_jsonl Sample.a
  /\ exists fs2,
       main Sample.a Sample.later Sample.first_run = (fs2, None)
       /\ fs2 !! events_jsonl Sample.a
          = Sample.first_run !! events_jsonl Sample.a.
Proof.
  split; [exact sample_first_run|]. split; [exact sample_log_kept|].
  destruct (rerun_repeats_events_and_summary_but_the_clock
              Sample.a Sample.noon Sample.later
              Sample.fs Sample.first_run Sample.first_run
              sample_first_run sample_log_kept)
    as (_ & Hvalid & fs2 & err & Hrun2 & Hends & Hevents & _).
  exists fs2. rewrite (Hends Hvalid) in Hrun2.
  split; [exact Hrun2|exact Hevents].
Defined.

(** C4 as stated fails: with a carriage return in the run identifier, the
    second run does not find the entry in what it reads from the index and
    adds it again. *)
Lemma index_grows_with_carriage_return :
  main Sample.a_cr Sample.noon ∅ = (Sample.cr_first_run, None)
  /\ main Sample.a_cr Sample.noon Sample.cr_first_run
     = (Sample.cr_second_run, None)
  /\ Sample.cr_second_run !! index_md Sample.a_cr
     <> Sample.cr_first_run !! index_md Sample.a_cr.
Proof.
  split; [apply ended_left_files; vm_compute; reflexivity|].
  split; [apply ended_left_files; vm_compute; reflexivity|].
  vm_compute. discriminate.
Qed.

Lemma index_update_witness :
  no_cr (index_entry Sample.a) = true
  /\ main Sample.a Sample.noon Sample.fs = (Sample.first_run, None)
  /\ exists fs2,
       main Sample.a Sample.later Sample.first_run = (fs2, None)
       /\ fs2 !! index_md Sample.a = Sample.first_run !! index_md Sample.a.
Proof.
  assert (Hcr : no_cr (index_entry Sample.a) = true)
    by (vm_compute; reflexivity).
  split; [exact Hcr|]. split; [exact sample_first_run|].
  exact (proj1 (index_update_is_idempotent
                  Sample.a Sample.noon Sample.later
                  Sample.fs Sample.first_run Hcr sample_first_run)).
Defined.

(** * Further properties *)

Local Ltac in_list :=
  solve [repeat first [apply list_elem_of_here | apply list_elem_of_further]].

(** ** The reader *)

(** X16: what [_read_jsonl] returns and when it gives up.  No file gives no
    record.  For a file of UTF-8 bytes on whose lines [json.loads] returns a
    value or raises [JSONDecodeError], it returns the records of the lines
    that parse, in the order of the file: a line that [json.loads] rejects
    adds nothing, a line it accepts adds its record, and the lines after
    either are read all the same.  The first line on which [json.loads]
    raises something else ends the read with that exception, and bytes that
    are not UTF-8 end it too; no record is returned then. *)
Theorem reader_returns_the_lines_that_parse `{PyLib} :
  _read_jsonl None = Ok []
  /\ (forall stored,
        utf8_valid stored = true -> Forall readable (text_lines stored) ->
        _read_jsonl (Some stored) = Ok (parsed_lines (text_lines stored)))
  /\ (forall before bad after,
        json_loads (strip bad) = Raise JSONDecodeError ->
        parsed_lines (before ++ bad :: after)
        = parsed_lines before ++ parsed_lines after)
  /\ (forall before good v after,
        json_loads (strip good) = Ok v ->
        parsed_lines (before ++ good :: after)
        = parsed_lines before ++ v :: parsed_lines after)
  /\ (forall stored before bad after x,
        utf8_valid stored = true ->
        text_lines stored = before ++ bad :: after ->
        Forall readable before ->
        json_loads (strip bad) = Raise x -> x <> JSONDecodeError ->
        _read_jsonl (Some stored) = Raise x)
  /\ (forall stored,
        utf8_valid stored = false ->
        exists x, _read_jsonl (Some stored) = Raise x).
Proof.
  split; [reflexivity|]. split; [apply read_jsonl_readable|].
  split; [|split; [|split]].
  - intros before bad after Hbad. rewrite parsed_lines_app. f_equal.
    unfold parsed_lines, record_of. cbn [omap list_omap]. now rewrite Hbad.
  - intros before good v after Hgood. rewrite parsed_lines_app. f_equal.
    unfold parsed_lines, record_of. cbn [omap list_omap]. now rewrite Hgood.
  - intros stored before bad after x Hbytes Hlines Hbefore Hbad Hx.
    unfold _read_jsonl. rewrite Hbytes, Hlines. now apply read_lines_raises.
  - apply read_jsonl_not_utf8.
Qed.

Lemma reader_witness :
  utf8_valid Sample.log = true
  /\ _read_jsonl (Some Sample.log)
     = Ok (JObj <$> [Sample.blur_old; Sample.macbeth; Sample.blur_new;
                     Sample.other_run]).
Proof.
  assert (Hbytes : utf8_valid Sample.log = true) by (vm_compute; reflexivity).
  assert (Hlines : text_lines Sample.log
                   = [Sample.log_line Sample.blur_old;
                      Sample.log_line Sample.macbeth; line "{bad";
                      Sample.log_line Sample.blur_new;
                      Sample.log_line Sample.other_run])
    by (vm_compute; reflexivity).
  split; [exact Hbytes|].
  rewrite (proj1 (proj2 reader_returns_the_lines_that_parse) _ Hbytes).
  - vm_compute. reflexivity.
  - rewrite Hlines. repeat constructor; intros x; vm_compute; congruence.
Defined.

(** ** The run filter *)

Lemma run_filter_objects (run : string) (records : list json) :
  forallb is_object records = true ->
  run_filter run records = Ok (omap (of_run run) records).
Proof.
  induction records as [|v records IH]; [reflexivity|].
  cbn [forallb]. intros [Hv Hrest]%andb_true_iff.
  destruct v; try discriminate. cbn [run_filter omap list_omap of_run].
  rewrite (IH Hrest). cbn [rbind].
  now destruct (eq_str (get fields "runID") run).
Qed.

Lemma run_filter_not_object (run : string) (records : list json) :
  forallb is_object records = false ->
  run_filter run records = Raise AttributeError.
Proof.
  induction records as [|v records IH]; [discriminate|].
  cbn [forallb]. intros Hsome.
  destruct v; try reflexivity. cbn [is_object andb] in Hsome.
  cbn [run_filter]. now rewrite (IH Hsome).
Qed.

Lemma omap_of_run_sublist (run : string) (records : list json) :
  sublist (JObj <$> omap (of_run run) records) records.
Proof.
  induction records as [|v records IH]; [constructor|].
  cbn [omap list_omap]. destruct v; cbn [of_run]; try (now constructor).
  destruct (eq_str (get fields "runID") run); cbn [fmap list_fmap];
    now constructor.
Qed.

Lemma omap_of_run_runID (run : string) (records : list json) :
  Forall (fun e => get e "runID" = JStr run) (omap (of_run run) records).
Proof.
  induction records as [|v records IH]; [constructor|].
  cbn [omap list_omap]. destruct v; cbn [of_run]; try assumption.
  destruct (eq_str (get fields "runID") run) eqn:Heq; [|assumption].
  constructor; [|assumption].
  unfold eq_str in Heq. destruct (get fields "runID"); try discriminate.
  apply String.eqb_eq in Heq. now subst.
Qed.

(** X1: the run filter keeps, in the order of the log, the objects whose
    [runID] is the string asked for, and every event it keeps has that
    [runID]; a record that is not an object, anywhere in the log, makes it
    raise [AttributeError], and [main] with it, before any file is
    written. *)
Theorem run_filter_keeps_the_objects_of_the_run
    `{PyLib} (run : string) (records : list json) :
  (forallb is_object records = true ->
     exists events,
       run_filter run records = Ok events
       /\ events = omap (of_run run) records
       /\ sublist (JObj <$> events) records
       /\ Forall (fun e => get e "runID" = JStr run) events)
  /\ (forallb is_object records = false ->
        run_filter run records = Raise AttributeError
        /\ forall a now fs,
             run_id a = run ->
             _read_jsonl (fs !! perf_jsonl a) = Ok records ->
             main a now fs = (fs, Some AttributeError)).
Proof.
  split.
  - intros Hall. exists (omap (of_run run) records).
    split; [now apply run_filter_objects|]. split; [reflexivity|].
    split; [apply omap_of_run_sublist|apply omap_of_run_runID].
  - intros Hsome. split; [now apply run_filter_not_object|].
    intros a now fs <- Hlog. unfold main, run_events. rewrite Hlog.
    cbn [rbind]. now rewrite (run_filter_not_object _ _ Hsome).
Qed.

Lemma run_filter_witness :
  _read_jsonl (Some Sample.log)
  = Ok (JObj <$> [Sample.blur_old; Sample.macbeth; Sample.blur_new;
                  Sample.other_run])
  /\ run_filter "A" (JObj <$> [Sample.blur_old; Sample.macbeth;
                               Sample.blur_new; Sample.other_run])
     = Ok [Sample.blur_old; Sample.macbeth; Sample.blur_new]
  /\ run_filter "A" [JObj Sample.blur_old; JInt 42]
     = Raise AttributeError
  /\ @main Odd.lib Sample.a Sample.noon Odd.number_fs
     = (Odd.number_fs, Some AttributeError).
Proof.
  assert (Hall : forallb is_object
                   (JObj <$> [Sample.blur_old; Sample.macbeth;
                              Sample.blur_new; Sample.other_run]) = true)
    by (vm_compute; reflexivity).
  assert (Hsome : forallb is_object
                    ((JObj <$> [Sample.blur_old; Sample.macbeth;
                                Sample.blur_new; Sample.other_run])
                     ++ [JInt 42]) = false)
    by (vm_compute; reflexivity).
  split; [vm_compute; reflexivity|]. split; [|split].
  - destruct (proj1 (run_filter_keeps_the_objects_of_the_run "A" _) Hall)
      as (events & -> & -> & _).
    vm_compute. reflexivity.
  - apply (run_filter_keeps_the_objects_of_the_run
             "A" [JObj Sample.blur_old; JInt 42]).
    reflexivity.
  - apply (proj2 (@run_filter_keeps_the_objects_of_the_run Odd.lib "A" _)
             Hsome);
      vm_compute; reflexivity.
Defined.

(** ** Keys that cannot be hashed *)

Lemma probe_key_raises_TypeError (e : event) (x : exn) :
  probe_key e = Raise x -> x = TypeError.
Proof.
  assert (Hk : forall v y, hkey_of v = Raise y -> y = TypeError).
  { intros v y. destruct v as [|b|z|f| | |]; cbn; try discriminate;
      now intros [= <-]. }
  unfold probe_key.
  destruct (hkey_of (get e "suite")) eqn:H1; [|intros [= <-]; eauto].
  destruct (hkey_of (get e "label")) eqn:H2; [|intros [= <-]; eauto].
  destruct (hkey_of (get e "width")) eqn:H3; [|intros [= <-]; eauto].
  destruct (hkey_of (get e "height")) eqn:H4; [|intros [= <-]; eauto].
  destruct (hkey_of (get e "test")) eqn:H5; [|intros [= <-]; eauto].
  discriminate.
Qed.

Lemma dedup_loop_unhashable (events : list event) (d : list (probe * event)) :
  Exists (fun e => probe_key e = Raise TypeError) events ->
  dedup_loop d events = Raise TypeError.
Proof.
  intros Hex. revert d. induction Hex as [e events He|e events _ IH]; intros d.
  - cbn [dedup_loop]. now rewrite He.
  - cbn [dedup_loop]. destruct (probe_key e) as [k|x] eqn:Hk; cbn [rbind].
    + apply IH.
    + now rewrite (probe_key_raises_TypeError e x Hk).
Qed.

(** The archive stops at nothing but a text that cannot be encoded. *)
Lemma events_lines_stops `{PyLib} (events : list event) (text : string)
    (x : exn) :
  write_all (events_lines events) = (text, Some x) -> x = UnicodeEncodeError.
Proof.
  revert text. induction events as [|e events IH]; intros text;
    [discriminate|].
  unfold events_lines. cbn [map write_all]. fold (events_lines events).
  destruct (utf8_valid _); [|now intros [= _ <-]].
  destruct (write_all (events_lines events)) as [more [y|]];
    [|discriminate].
  intros [= _ <-]. now apply (IH more).
Qed.

(** X2: when an event of the run has a list or an object as [suite],
    [label], [width], [height] or [test], its key cannot be hashed and
    [main] dies: with [TypeError], after it wrote [events.jsonl] and before
    it opens [summary.md], when the text of every event can be encoded, and
    otherwise with [UnicodeEncodeError] while it writes [events.jsonl].
    Any other value of these fields, absent ones too, gives a key. *)
Theorem unhashable_key_field_raises_TypeError
    `{PyLib} (a : args) (now : utc) (fs : files) (events : list event) :
  run_events a fs = Ok events ->
  Exists (fun e => exists field,
            field ∈ key_fields /\ is_container (get e field) = true)
         events ->
  (exists fs' x,
     main a now fs = (fs', Some x)
     /\ (x = TypeError \/ x = UnicodeEncodeError)
     /\ fs' !! summary_md a = fs !! summary_md a)
  /\ (Forall (fun e => utf8_valid (json_dumps (JObj e)) = true) events ->
      main a now fs
      = (<[events_jsonl a := events_text events]> fs, Some TypeError))
  /\ (forall e, (forall field, field ∈ key_fields ->
                   is_container (get e field) = false) ->
                 exists k, probe_key e = Ok k).
Proof.
  intros Hevents Hbad.
  assert (Hrows : tables events = Raise TypeError).
  { unfold tables, last_by_key. rewrite dedup_loop_unhashable; [reflexivity|].
    eapply Exists_impl; [exact Hbad|]. cbn beta.
    intros e (field & Hfield & Hval).
    assert (Hraise : hkey_of (get e field) = Raise TypeError).
    { now destruct (get e field). }
    unfold key_fields in Hfield.
    destruct (probe_key e) as [k|x] eqn:Hk;
      [|now rewrite (probe_key_raises_TypeError e x Hk)].
    exfalso. unfold probe_key in Hk.
    repeat (apply elem_of_cons in Hfield as [->|Hfield];
            [rewrite Hraise in Hk;
             repeat (destruct (hkey_of _); cbn [rbind] in Hk;
                     try discriminate)
            |]).
    now apply elem_of_nil in Hfield. }
  destruct (distinct_files a) as (Hes & _).
  split; [|split].
  - unfold main. rewrite Hevents, Hrows.
    destruct (write_all (events_lines events)) as [text [x|]] eqn:Harchive.
    + exists (<[events_jsonl a := text]> fs), x. split; [reflexivity|].
      split; [right; now apply (events_lines_stops events text)|].
      now rewrite lookup_insert_ne by congruence.
    + exists (<[events_jsonl a := text]> fs), TypeError.
      split; [reflexivity|]. split; [now left|].
      now rewrite lookup_insert_ne by congruence.
  - intros Hvalid. unfold main.
    now rewrite Hevents, Hrows, (events_lines_written events Hvalid).
  - intros e Hscalar.
    assert (Hk : forall field, field ∈ key_fields ->
                   exists k, hkey_of (get e field) = Ok k).
    { intros field Hin. specialize (Hscalar field Hin).
      destruct (get e field) as [|b|z|f| | |]; try discriminate; cbn; eauto. }
    unfold probe_key, key_fields in *.
    destruct (Hk "suite") as [? ->]; [in_list|].
    destruct (Hk "label") as [? ->]; [in_list|].
    destruct (Hk "width") as [? ->]; [in_list|].
    destruct (Hk "height") as [? ->]; [in_list|].
    destruct (Hk "test") as [? ->]; [in_list|].
    cbn [rbind]. eauto.
Qed.

Lemma unhashable_key_witness :
  @run_events Odd.lib Sample.a Odd.fs = Ok [Odd.tagged]
  /\ @main Odd.lib Sample.a Sample.noon Odd.fs
     = (<[events_jsonl Sample.a := @events_text Odd.lib [Odd.tagged]]> Odd.fs,
        Some TypeError).
Proof.
  assert (Hevents : @run_events Odd.lib Sample.a Odd.fs = Ok [Odd.tagged])
    by (vm_compute; reflexivity).
  split; [exact Hevents|].
  apply (@unhashable_key_field_raises_TypeError
           Odd.lib Sample.a Sample.noon Odd.fs [Odd.tagged] Hevents).
  - constructor. exists "label". split; [|reflexivity].
    unfold key_fields. in_list.
  - repeat constructor.
Defined.

(** ** Lines *)

Lemma LF_is_not_CR : Ascii.eqb LF CR = false.
Proof. reflexivity. Qed.

Lemma universal_newlines_cons (c : ascii) (s : string) :
  Ascii.eqb c CR = false ->
  universal_newlines (String c s) = String c (universal_newlines s).
Proof. intros Hc. cbn [universal_newlines]. now rewrite Hc. Qed.

Lemma universal_newlines_line (s t : string) :
  one_line s = true ->
  universal_newlines (s +:+ nl +:+ t) = s +:+ nl +:+ universal_newlines t.
Proof.
  induction s as [|c s IH]; intros Hs.
  - unfold nl. rewrite !sapp_nil_l, !sapp_cons, !sapp_nil_l.
    now rewrite universal_newlines_cons by apply LF_is_not_CR.
  - cbn [one_line] in Hs.
    apply andb_true_iff in Hs as [[_ Hcr%negb_true_iff]%andb_true_iff Hs].
    rewrite !sapp_cons, universal_newlines_cons by assumption.
    now rewrite IH.
Qed.

Lemma keepends_line (s t : string) :
  one_line s = true -> keepends (s +:+ nl +:+ t) = (s +:+ nl) :: keepends t.
Proof.
  induction s as [|c s IH]; intros Hs.
  - unfold nl. rewrite !sapp_nil_l, !sapp_cons, !sapp_nil_l.
    cbn [keepends]. now rewrite Ascii.eqb_refl.
  - cbn [one_line] in Hs.
    apply andb_true_iff in Hs as [[Hlf%negb_true_iff _]%andb_true_iff Hs].
    rewrite !sapp_cons. cbn [keepends]. now rewrite Hlf, IH.
Qed.

Lemma text_lines_of_lines (ss : list string) :
  Forall (fun s => one_line s = true) ss ->
  text_lines (concat_lines (line <$> ss)) = line <$> ss.
Proof.
  unfold text_lines. induction 1 as [|s ss Hs _ IH]; [reflexivity|].
  change (concat_lines (line <$> s :: ss))
    with (line s +:+ concat_lines (line <$> ss)).
  change (line <$> s :: ss) with (line s :: (line <$> ss)).
  unfold line at 1.
  rewrite sapp_assoc, universal_newlines_line, keepends_line by assumption.
  now rewrite IH.
Qed.

(** What is read of a text and of a text after it, when the first ends with
    a line break. *)
Lemma universal_newlines_after_nl (old new : string) :
  universal_newlines (old +:+ nl +:+ new)
  = universal_newlines (old +:+ nl) +:+ universal_newlines new.
Proof.
  induction old as [|c old IH].
  - unfold nl. rewrite !sapp_nil_l, !sapp_cons, !sapp_nil_l.
    now rewrite !universal_newlines_cons by apply LF_is_not_CR.
  - rewrite !sapp_cons. destruct (Ascii.eqb c CR) eqn:Hc.
    + cbn [universal_newlines]. rewrite Hc.
      destruct old as [|d old].
      * unfold nl. rewrite !sapp_nil_l, !sapp_cons, !sapp_nil_l.
        now rewrite Ascii.eqb_refl.
      * rewrite !sapp_cons in *. destruct (Ascii.eqb d LF) eqn:Hd.
        -- apply Ascii.eqb_eq in Hd. subst d.
           rewrite !universal_newlines_cons in IH by apply LF_is_not_CR.
           rewrite sapp_cons in IH. injection IH as ->. now rewrite sapp_cons.
        -- now rewrite IH, sapp_cons.
    + rewrite !universal_newlines_cons by assumption.
      now rewrite IH, sapp_cons.
Qed.

Lemma universal_newlines_ends (old : string) :
  exists z, universal_newlines (old +:+ nl) = z +:+ nl.
Proof.
  induction old as [|c old [z IH]].
  - now exists "".
  - rewrite sapp_cons. destruct (Ascii.eqb c CR) eqn:Hc.
    + cbn [universal_newlines]. rewrite Hc. destruct old as [|d old].
      * exists "". unfold nl. rewrite !sapp_nil_l. now rewrite Ascii.eqb_refl.
      * rewrite sapp_cons in *. destruct (Ascii.eqb d LF) eqn:Hd.
        -- apply Ascii.eqb_eq in Hd. subst d.
           rewrite universal_newlines_cons in IH by apply LF_is_not_CR.
           now exists z.
        -- exists (String LF z). now rewrite IH, sapp_cons.
    + rewrite universal_newlines_cons by assumption.
      exists (String c z). now rewrite IH, sapp_cons.
Qed.

Lemma keepends_nonempty (c : ascii) (s : string) : keepends (String c s) <> [].
Proof.
  cbn [keepends]. destruct (Ascii.eqb c LF); [discriminate|].
  now destruct (keepends s).
Qed.

Lemma keepends_after_nl (z t : string) :
  keepends ((z +:+ nl) +:+ t) = keepends (z +:+ nl) ++ keepends t.
Proof.
  induction z as [|c z IH].
  - unfold nl. rewrite !sapp_nil_l, !sapp_cons, !sapp_nil_l.
    cbn [keepends]. now rewrite Ascii.eqb_refl.
  - rewrite !sapp_cons. cbn [keepends]. rewrite IH.
    destruct (Ascii.eqb c LF); [reflexivity|].
    destruct (keepends (z +:+ nl)) as [|l ls] eqn:Hz; [|reflexivity].
    exfalso. destruct z; [discriminate|].
    rewrite sapp_cons in Hz. now apply keepends_nonempty in Hz.
Qed.

Lemma text_lines_after_nl (old new : string) :
  text_lines (old +:+ nl +:+ new)
  = text_lines (old +:+ nl) ++ text_lines new.
Proof.
  unfold text_lines. rewrite universal_newlines_after_nl.
  destruct (universal_newlines_ends old) as [z ->].
  apply keepends_after_nl.
Qed.

(** ** The archive and the log *)

Lemma run_filter_runID (run : string) (records : list json)
    (events : list event) :
  run_filter run records = Ok events ->
  Forall (fun e => eq_str (get e "runID") run = true) events.
Proof.
  revert events. induction records as [|v records IH]; intros events.
  - intros [= <-]. constructor.
  - cbn [run_filter]. destruct v; try discriminate.
    destruct (run_filter run records) as [kept|]; [|discriminate].
    cbn [rbind]. destruct (eq_str (get fields "runID") run) eqn:Hrun;
      intros [= <-]; [constructor|]; auto.
Qed.

Lemma run_filter_own_events (run : string) (events : list event) :
  Forall (fun e => eq_str (get e "runID") run = true) events ->
  run_filter run (JObj <$> events) = Ok events.
Proof.
  induction 1 as [|e events He _ IH]; [reflexivity|].
  cbn [fmap list_fmap run_filter] in *. now rewrite IH, He.
Qed.

Lemma run_filter_app (run : string) (r1 r2 : list json)
    (e1 e2 : list event) :
  run_filter run r1 = Ok e1 -> run_filter run r2 = Ok e2 ->
  run_filter run (r1 ++ r2) = Ok (e1 ++ e2).
Proof.
  revert e1. induction r1 as [|v r1 IH]; intros e1.
  - now intros [= <-].
  - cbn [app run_filter]. destruct v; try discriminate.
    destruct (run_filter run r1) as [kept|] eqn:Hkept; [|discriminate].
    cbn [rbind]. intros [= <-] H2. rewrite (IH kept eq_refl H2). cbn [rbind].
    now destruct (eq_str (get fields "runID") run).
Qed.

Lemma events_text_app `{PyLib} (e1 e2 : list event) :
  events_text (e1 ++ e2) = events_text e1 +:+ events_text e2.
Proof.
  unfold events_text, concat_lines.
  induction e1 as [|e e1 IH]; [reflexivity|].
  cbn [app map foldr]. now rewrite IH, sapp_assoc.
Qed.

Section Archive.
Context `{PyLib}.

Lemma read_lines_acc (lines : list string) (out : list json) :
  read_lines out lines
  = let* records := read_lines [] lines in Ok (out ++ records).
Proof.
  revert out. induction lines as [|l lines IH]; intros out.
  - cbn. now rewrite List.app_nil_r.
  - cbn [read_lines]. unfold read_line.
    destruct (String.eqb (strip l) ""); cbn [rbind]; [apply IH|].
    destruct (json_loads (strip l)) as [v|x]; cbn [rbind].
    + rewrite (IH (out ++ [v])), (IH ([] ++ [v])).
      destruct (read_lines [] lines); cbn [rbind]; [|reflexivity].
      now rewrite <- !List.app_assoc.
    + destruct x; cbn [rbind]; try reflexivity. apply IH.
Qed.

Lemma read_jsonl_Ok (stored : string) (records : list json) :
  _read_jsonl (Some stored) = Ok records ->
  utf8_valid stored = true
  /\ read_lines [] (text_lines stored) = Ok records.
Proof.
  unfold _read_jsonl. destruct (utf8_valid stored); [now split|].
  now destruct (read_lines [] (lines_before_error stored)).
Qed.

Lemma read_events_text (events : list event) :
  utf8_valid (events_text events) = true ->
  Forall (fun e =>
            one_line (json_dumps (JObj e)) = true
            /\ json_loads (strip (line (json_dumps (JObj e))))
               = Ok (JObj e)) events ->
  _read_jsonl (Some (events_text events)) = Ok (JObj <$> events).
Proof.
  intros Hvalid Hall. unfold _read_jsonl. rewrite Hvalid.
  unfold events_text.
  replace (map (fun e => line (json_dumps (JObj e))) events)
    with (line <$> ((fun e => json_dumps (JObj e)) <$> events))
    by (now rewrite <- list_fmap_compose).
  rewrite text_lines_of_lines.
  2:{ apply Forall_fmap. eapply Forall_impl; [exact Hall|]. now intros e [? _]. }
  rewrite read_lines_from.
  - cbn [app]. f_equal. unfold parsed_lines, record_of. clear Hvalid.
    induction Hall as [|e events [_ He] _ IH]; [reflexivity|].
    cbn [fmap list_fmap omap list_omap] in *. now rewrite He, IH.
  - apply Forall_fmap, Forall_fmap. eapply Forall_impl; [exact Hall|].
    intros e [_ He] x. cbn. now rewrite He.
Qed.

(** X3: [events.jsonl] can be read back.  When [json.dumps] writes each
    event of the run on one line that [json.loads] reads as the same event,
    [_read_jsonl] on the text of an [events.jsonl] that was written gives
    the events of the run in order, the run filter keeps them all, and this
    holds of the file a run of [main] leaves. *)
Theorem events_jsonl_reads_back
    (run : string) (records : list json) (events : list event) :
  run_filter run records = Ok events ->
  Forall (fun e =>
            one_line (json_dumps (JObj e)) = true
            /\ json_loads (strip (line (json_dumps (JObj e))))
               = Ok (JObj e)) events ->
  (utf8_valid (events_text events) = true ->
   _read_jsonl (Some (events_text events)) = Ok (JObj <$> events)
   /\ events_of run (events_text events) = Ok events)
  /\ (forall a now fs fs',
        run_id a = run ->
        _read_jsonl (fs !! perf_jsonl a) = Ok records ->
        main a now fs = (fs', None) ->
        _read_jsonl (fs' !! events_jsonl a) = Ok (JObj <$> events)).
Proof.
  intros Hfilter Hround. split.
  - intros Hvalid.
    pose proof (read_events_text events Hvalid Hround) as Hread.
    split; [exact Hread|]. unfold events_of. rewrite Hread. cbn [rbind].
    apply run_filter_own_events. now apply (run_filter_runID run records).
  - intros a now fs fs' <- Hlog Hrun.
    destruct (main_files a now fs fs' Hrun)
      as (events' & rs & text & Hevents & Harchive & _ & _ & -> & _).
    unfold run_events in Hevents. rewrite Hlog in Hevents.
    cbn [rbind] in Hevents. rewrite Hfilter in Hevents.
    injection Hevents as <-. apply read_events_text; [|assumption].
    now apply (write_all_valid _ _ _ Harchive).
Qed.

(** X4: lines added to a log that ends with a line break add their records
    after those already read, so the events of a run on the longer log are
    its events on the old log followed by its events among the new lines,
    and the [events.jsonl] of the old log is the start of the new one. *)
Theorem appended_lines_append_events
    (run old new : string) (old_events new_events : list event) :
  events_of run (old +:+ nl) = Ok old_events ->
  events_of run new = Ok new_events ->
  (exists before after,
     _read_jsonl (Some (old +:+ nl)) = Ok before
     /\ _read_jsonl (Some new) = Ok after
     /\ _read_jsonl (Some (old +:+ nl +:+ new)) = Ok (before ++ after))
  /\ events_of run (old +:+ nl +:+ new) = Ok (old_events ++ new_events)
  /\ events_text (old_events ++ new_events)
     = events_text old_events +:+ events_text new_events.
Proof.
  unfold events_of. intros Hold Hnew.
  destruct (_read_jsonl (Some (old +:+ nl))) as [before|] eqn:Hbefore;
    [|discriminate].
  destruct (_read_jsonl (Some new)) as [after|] eqn:Hafter; [|discriminate].
  cbn [rbind] in Hold, Hnew.
  assert (Hread : _read_jsonl (Some (old +:+ nl +:+ new))
                  = Ok (before ++ after)).
  { apply read_jsonl_Ok in Hbefore as [Hv1 Hr1].
    apply read_jsonl_Ok in Hafter as [Hv2 Hr2].
    unfold _read_jsonl. rewrite <- sapp_assoc.
    rewrite utf8_valid_app by assumption. rewrite sapp_assoc.
    rewrite text_lines_after_nl, read_lines_app, Hr1. cbn [rbind].
    now rewrite read_lines_acc, Hr2. }
  split; [now exists before, after|]. split.
  - rewrite Hread. cbn [rbind]. now apply run_filter_app.
  - apply events_text_app.
Qed.
End Archive.

Lemma events_jsonl_reads_back_witness :
  run_filter "A" (JObj <$> [Sample.blur_old; Sample.macbeth; Sample.blur_new;
                            Sample.other_run])
  = Ok [Sample.blur_old; Sample.macbeth; Sample.blur_new]
  /\ _read_jsonl (Some (events_text
                          [Sample.blur_old; Sample.macbeth; Sample.blur_new]))
     = Ok [JObj Sample.blur_old; JObj Sample.macbeth; JObj Sample.blur_new].
Proof.
  assert (Hfilter : run_filter "A" (JObj <$> [Sample.blur_old; Sample.macbeth;
                                              Sample.blur_new;
                                              Sample.other_run])
                    = Ok [Sample.blur_old; Sample.macbeth; Sample.blur_new])
    by (vm_compute; reflexivity).
  split; [exact Hfilter|].
  apply (events_jsonl_reads_back "A" _ _ Hfilter).
  - repeat constructor; vm_compute; reflexivity.
  - vm_compute. reflexivity.
Defined.

Lemma appended_lines_witness :
  events_of "A" (Sample.dumps (JObj Sample.blur_old) +:+ nl)
  = Ok [Sample.blur_old]
  /\ events_of "A" (Sample.log_line Sample.blur_new) = Ok [Sample.blur_new]
  /\ events_of "A" (Sample.dumps (JObj Sample.blur_old) +:+ nl
                    +:+ Sample.log_line Sample.blur_new)
     = Ok ([Sample.blur_old] ++ [Sample.blur_new]).
Proof.
  assert (Hold : events_of "A" (Sample.dumps (JObj Sample.blur_old) +:+ nl)
                 = Ok [Sample.blur_old]) by (vm_compute; reflexivity).
  assert (Hnew : events_of "A" (Sample.log_line Sample.blur_new)
                 = Ok [Sample.blur_new]) by (vm_compute; reflexivity).
  split; [exact Hold|]. split; [exact Hnew|].
  exact (proj1 (proj2 (appended_lines_append_events "A" _ _ _ _ Hold Hnew))).
Defined.

(** ** More on deduplication *)

Lemma dict_set_fresh {V} (k : probe) (v : V) (d : list (probe * V)) :
  k ∉ d.*1 -> dict_set k v d = d ++ [(k, v)].
Proof.
  induction d as [|[k0 v0] d IH]; intros Hk; [reflexivity|].
  cbn [dict_set]. cbn [fmap list_fmap fst] in Hk.
  apply not_elem_of_cons in Hk as [Hne Hk].
  rewrite bool_decide_eq_false_2 by congruence. cbn [app].
  now rewrite IH.
Qed.

Lemma dedup_loop_values (d acc : list (probe * event)) :
  NoDup (acc ++ d).*1 ->
  Forall (fun ke => probe_key ke.2 = Ok ke.1) d ->
  dedup_loop acc (values d) = Ok (acc ++ d).
Proof.
  revert acc. induction d as [|[k e] d IH]; intros acc Hnd Hkeys.
  - cbn. now rewrite List.app_nil_r.
  - apply Forall_cons in Hkeys as [Hk Hkeys]. cbn [fst snd] in Hk.
    cbn [values map snd dedup_loop]. rewrite Hk. cbn [rbind].
    rewrite dict_set_fresh.
    + change (map snd d) with (values d).
      rewrite IH; rewrite <- ?List.app_assoc; [reflexivity|assumption..].
    + rewrite fmap_app in Hnd. apply NoDup_app in Hnd as (_ & Hdisj & _).
      intros Hin. apply (Hdisj k Hin). cbn. apply list_elem_of_here.
Qed.

Lemma dedup_loop_length (events : list event) (d d' : list (probe * event)) :
  dedup_loop d events = Ok d' ->
  (length d' <= length d + length events)%nat.
Proof.
  revert d. induction events as [|e events IH]; intros d; cbn [dedup_loop].
  - intros [= <-]. cbn. lia.
  - destruct (probe_key e) as [k|]; [|discriminate]. cbn [rbind].
    intros Hrun%IH. cbn [length].
    assert (length (dict_set k e d) <= S (length d))%nat; [|lia].
    clear. induction d as [|[k0 v0] d IH]; cbn [dict_set length]; [lia|].
    case_bool_decide; cbn [length]; lia.
Qed.

Lemma latest_is_event (k : probe) (e : event) (events : list event) :
  latest k events = Some e -> e ∈ events.
Proof.
  unfold latest. intros Hlast%last_Some_elem_of.
  now apply list_elem_of_filter in Hlast as [_ ?].
Qed.

Lemma latest_of_event (k : probe) (e : event) (events : list event) :
  e ∈ events -> probe_key e = Ok k -> is_Some (latest k events).
Proof.
  intros Hin Hk. unfold latest.
  destruct (last (filter _ events)) as [x|] eqn:Hlast; [eauto|].
  apply last_None in Hlast.
  assert (e ∈ filter (fun e => probe_key e = Ok k) events) as Hf
    by (apply list_elem_of_filter; auto).
  rewrite Hlast in Hf. now apply elem_of_nil in Hf.
Qed.

Lemma last_by_key_spec (events : list event) (d : list (probe * event)) :
  last_by_key events = Ok d ->
  NoDup d.*1 /\ forall k e, (k, e) ∈ d <-> latest k events = Some e.
Proof.
  intros Hrun.
  destruct (dedup_loop_spec events [] d (NoDup_nil_2) Hrun) as [Hnd Hin].
  split; [assumption|]. intros k e. rewrite Hin. split; [|now left].
  intros [?|[_ Hnil]]; [assumption|]. now apply elem_of_nil in Hnil.
Qed.

(** X5: deduplication is idempotent: the survivors of a log, given to
    [last_by_key] again, come out as they are, in the same order and under
    the same keys. *)
Theorem dedup_of_survivors_is_identity
    (events : list event) (d : list (probe * event)) :
  last_by_key events = Ok d ->
  last_by_key (values d) = Ok d.
Proof.
  intros Hrun. destruct (last_by_key_spec events d Hrun) as [Hnd Hin].
  unfold last_by_key. rewrite (dedup_loop_values d []); [reflexivity|assumption|].
  apply Forall_forall. intros [k e] Hke. cbn [fst snd].
  apply Hin in Hke. unfold latest in Hke.
  apply last_Some_elem_of, list_elem_of_filter in Hke. tauto.
Qed.

Lemma dedup_of_survivors_witness :
  last_by_key [Sample.blur_old; Sample.macbeth; Sample.blur_new]
  = Ok [(Sample_blur_key, Sample.blur_new);
        (Sample_macbeth_key, Sample.macbeth)]
  /\ last_by_key [Sample.blur_new; Sample.macbeth]
     = Ok [(Sample_blur_key, Sample.blur_new);
           (Sample_macbeth_key, Sample.macbeth)].
Proof.
  assert (Hrun : last_by_key [Sample.blur_old; Sample.macbeth; Sample.blur_new]
                 = Ok [(Sample_blur_key, Sample.blur_new);
                       (Sample_macbeth_key, Sample.macbeth)])
    by (vm_compute; reflexivity).
  split; [exact Hrun|].
  exact (dedup_of_survivors_is_identity _ _ Hrun).
Defined.

(** X6: deduplication neither invents nor loses a probe: every survivor is
    an event of the log, under its own key; every event of the log has a
    survivor with its key; and there are no more survivors than events. *)
Theorem dedup_keeps_every_probe
    (events : list event) (d : list (probe * event)) :
  last_by_key events = Ok d ->
  (forall k e, (k, e) ∈ d -> e ∈ events /\ probe_key e = Ok k)
  /\ (forall e, e ∈ events ->
        exists k e', probe_key e = Ok k /\ (k, e') ∈ d)
  /\ (length (values d) <= length events)%nat.
Proof.
  intros Hrun. destruct (last_by_key_spec events d Hrun) as [Hnd Hin].
  split; [|split].
  - intros k e Hke%Hin. split; [now apply latest_is_event in Hke|].
    now apply latest_key in Hke.
  - intros e He.
    assert (Hkey : exists k, probe_key e = Ok k).
    { clear -Hrun He. unfold last_by_key in Hrun.
      generalize dependent (@nil (probe * event)).
      induction events as [|e0 events IH]; intros acc Hrun;
        [now apply elem_of_nil in He|].
      cbn [dedup_loop] in Hrun.
      destruct (probe_key e0) as [k0|] eqn:Hk0; [|discriminate].
      apply elem_of_cons in He as [->|He]; [eauto|].
      cbn [rbind] in Hrun. eauto. }
    destruct Hkey as [k Hk].
    destruct (latest_of_event k e events He Hk) as [e' He'].
    exists k, e'. split; [assumption|]. now apply Hin.
  - unfold values. rewrite length_map.
    apply dedup_loop_length in Hrun. cbn in Hrun. lia.
Qed.

Lemma dedup_keeps_every_probe_witness :
  last_by_key [Sample.blur_old; Sample.macbeth; Sample.blur_new]
  = Ok [(Sample_blur_key, Sample.blur_new);
        (Sample_macbeth_key, Sample.macbeth)]
  /\ (length (values [(Sample_blur_key, Sample.blur_new);
                      (Sample_macbeth_key, Sample.macbeth)]) <= 3)%nat.
Proof.
  assert (Hrun : last_by_key [Sample.blur_old; Sample.macbeth; Sample.blur_new]
                 = Ok [(Sample_blur_key, Sample.blur_new);
                       (Sample_macbeth_key, Sample.macbeth)])
    by (vm_compute; reflexivity).
  split; [exact Hrun|].
  exact (proj2 (proj2 (dedup_keeps_every_probe _ _ Hrun))).
Defined.

(** ** From the log to the rows *)

Lemma rows_from_latest {R} (gate : event -> bool) (row : event -> R)
    (events : list event) (d : list (probe * event)) (r : R) :
  last_by_key events = Ok d ->
  r ∈ row <$> filter (fun x => gate x = true) (values d)
  <-> from_latest gate row events r.
Proof.
  intros Hrun. destruct (last_by_key_spec events d Hrun) as [_ Hin].
  unfold from_latest, values. rewrite list_elem_of_fmap. split.
  - intros (e & -> & [Hgate He]%list_elem_of_filter).
    apply (list_elem_of_fmap snd) in He as ([k e'] & -> & Hke).
    exists k, e'. split; [now apply Hin|]. auto.
  - intros (k & e & Hlatest & Hgate & ->). exists e. split; [reflexivity|].
    apply list_elem_of_filter. split; [assumption|].
    apply Hin in Hlatest. now apply (list_elem_of_fmap_2 snd) in Hlatest.
Qed.

Lemma rows_length {R} (gate : event -> bool) (row : event -> R)
    (events : list event) (d : list (probe * event)) :
  last_by_key events = Ok d ->
  (length (row <$> filter (fun x => gate x = true) (values d))
   <= length events)%nat.
Proof.
  intros Hrun. rewrite length_fmap.
  pose proof (length_filter (fun x => gate x = true) (values d)) as Hf.
  unfold values in *. rewrite length_map in Hf.
  apply dedup_loop_length in Hrun. cbn in Hrun. lia.
Qed.

(** X7: every row of the five tables is the projection of the last event of
    some probe key, an event that passes the gate of the table, and every
    such event has its row; an event that was overwritten by a later one
    with the same key gives no row of its own.  No table has more rows than
    the run has events, the number the header shows. *)
Theorem rows_are_those_of_the_latest_events
    (events : list event) (d : list (probe * event)) :
  last_by_key events = Ok d ->
  let rs := categorize (values d) in
  (forall r, r ∈ perf_rows rs <-> from_latest perf_gate perf_of events r)
  /\ (forall r, r ∈ mem_rows rs <-> from_latest mem_gate mem_of events r)
  /\ (forall r, r ∈ color_rows rs
                <-> from_latest color_gate color_of events r)
  /\ (forall r, r ∈ studio_rows rs
                <-> from_latest studio_gate studio_of events r)
  /\ (forall r, r ∈ ocio_rows rs <-> from_latest ocio_gate ocio_of events r)
  /\ (length (perf_rows rs) <= length events
      /\ length (mem_rows rs) <= length events
      /\ length (color_rows rs) <= length events
      /\ length (studio_rows rs) <= length events
      /\ length (ocio_rows rs) <= length events)%nat.
Proof.
  intros Hrun rs. subst rs.
  destruct (categorize_from (values d) no_rows) as (Hp & Hm & Hc & Hs & Ho).
  unfold categorize. cbn [no_rows perf_rows mem_rows color_rows studio_rows
    ocio_rows app] in Hp, Hm, Hc, Hs, Ho.
  rewrite Hp, Hm, Hc, Hs, Ho.
  repeat split; try (now apply rows_from_latest);
    try (now apply (rows_from_latest _ _ events d)); now apply rows_length.
Qed.

Lemma rows_of_latest_witness :
  last_by_key [Sample.blur_old; Sample.macbeth; Sample.blur_new]
  = Ok [(Sample_blur_key, Sample.blur_new);
        (Sample_macbeth_key, Sample.macbeth)]
  /\ (forall r,
        r ∈ perf_rows (categorize [Sample.blur_new; Sample.macbeth])
        <-> from_latest perf_gate perf_of
              [Sample.blur_old; Sample.macbeth; Sample.blur_new] r).
Proof.
  assert (Hrun : last_by_key [Sample.blur_old; Sample.macbeth; Sample.blur_new]
                 = Ok [(Sample_blur_key, Sample.blur_new);
                       (Sample_macbeth_key, Sample.macbeth)])
    by (vm_compute; reflexivity).
  split; [exact Hrun|].
  exact (proj1 (rows_are_those_of_the_latest_events _ _ Hrun)).
Defined.

(** ** Sorting *)

Lemma string_compare_trans (s t u : string) :
  String.compare s t = Lt -> String.compare t u = Lt ->
  String.compare s u = Lt.
Proof.
  revert t u. induction s as [|a s IH]; intros [|b t] [|c u];
    cbn [String.compare]; try discriminate; try reflexivity.
  unfold Ascii.compare.
  destruct (N.compare_spec (N_of_ascii a) (N_of_ascii b)) as [Hab|Hab|Hab];
    destruct (N.compare_spec (N_of_ascii b) (N_of_ascii c)) as [Hbc|Hbc|Hbc];
    try discriminate; intros H1 H2.
  - rewrite Hab, Hbc, N.compare_refl. now apply (IH t u).
  - rewrite Hab. now apply N.compare_lt_iff in Hbc as ->.
  - rewrite <- Hbc. now apply N.compare_lt_iff in Hab as ->.
  - assert (Hac : (N_of_ascii a < N_of_ascii c)%N) by lia.
    now apply N.compare_lt_iff in Hac as ->.
Qed.

Lemma string_compare_refl (t : string) : String.compare t t = Eq.
Proof.
  pose proof (String.compare_antisym t t) as Hsym.
  destruct (String.compare t t); [reflexivity|discriminate..].
Qed.

Lemma text_orders : orders is_text.
Proof.
  split; [|split; [|split]].
  - intros [] []; try discriminate. intros _ _. cbn [value_compare].
    apply String.compare_antisym.
  - intros [] [] []; try discriminate. intros _ _ _. cbn [value_compare].
    now intros ->%String.compare_eq_iff.
  - intros [] [] []; try discriminate. intros _ _ _. cbn [value_compare].
    apply string_compare_trans.
  - intros [| | | |s| |] [| | | |t| |]; try discriminate. intros _ _.
    cbn [value_compare py_eq py_lt]. split; [|reflexivity].
    destruct (String.eqb_spec s t) as [->|Hne].
    + now rewrite string_compare_refl.
    + destruct (String.compare s t) eqn:Hst; try reflexivity.
      now apply String.compare_eq_iff in Hst.
Qed.

Lemma mul_compare (a b q : Z) : 0 < q -> (a * q ?= b * q) = (a ?= b).
Proof.
  intros Hq. destruct (Z.compare_spec a b) as [->|Hab|Hab].
  - apply Z.compare_refl.
  - apply Z.compare_lt_iff. nia.
  - apply Z.compare_gt_iff. nia.
Qed.

(** Two finite numbers compare as their multiples by a power of two. *)
Lemma num_compare_scale (E n1 e1 n2 e2 : Z) :
  E <= e1 -> E <= e2 ->
  num_compare (NFin n1 e1) (NFin n2 e2)
  = Some (n1 * 2 ^ (e1 - E) ?= n2 * 2 ^ (e2 - E)).
Proof.
  intros H1 H2. cbn [num_compare]. f_equal.
  set (e0 := Z.min e1 e2).
  rewrite (pow2_split e1 e0 E), (pow2_split e2 e0 E) by lia.
  rewrite !Z.mul_assoc. symmetry. apply mul_compare.
  apply pow2_pos. lia.
Qed.

Lemma size_num (v : json) :
  is_size v = true -> exists n e, to_num v = Some (NFin n e).
Proof.
  destruct v as [| |z|f| | |]; try discriminate; cbn; eauto.
  destruct f; try discriminate; cbn; eauto.
Qed.

Lemma size_compare (a b : json) (n1 e1 n2 e2 : Z) :
  is_size a = true -> to_num a = Some (NFin n1 e1) ->
  to_num b = Some (NFin n2 e2) ->
  forall E, E <= e1 -> E <= e2 ->
    value_compare a b = (n1 * 2 ^ (e1 - E) ?= n2 * 2 ^ (e2 - E)).
Proof.
  intros Ha Hna Hnb E H1 H2.
  assert (value_compare a b
          = default Eq (num_compare (NFin n1 e1) (NFin n2 e2))) as ->.
  { destruct a; try discriminate; unfold value_compare;
      now rewrite Hna, Hnb. }
  now rewrite (num_compare_scale E).
Qed.

Lemma size_orders : orders is_size.
Proof.
  split; [|split; [|split]].
  - intros a b Ha Hb.
    destruct (size_num a Ha) as (n1 & e1 & Hna).
    destruct (size_num b Hb) as (n2 & e2 & Hnb).
    rewrite (size_compare b a _ _ _ _ Hb Hnb Hna (Z.min e1 e2)) by lia.
    rewrite (size_compare a b _ _ _ _ Ha Hna Hnb (Z.min e1 e2)) by lia.
    apply Z.compare_antisym.
  - intros a b c Ha Hb Hc.
    destruct (size_num a Ha) as (n1 & e1 & Hna).
    destruct (size_num b Hb) as (n2 & e2 & Hnb).
    destruct (size_num c Hc) as (n3 & e3 & Hnc).
    set (E := Z.min e1 (Z.min e2 e3)).
    rewrite (size_compare a b _ _ _ _ Ha Hna Hnb E) by lia.
    rewrite (size_compare b c _ _ _ _ Hb Hnb Hnc E) by lia.
    rewrite (size_compare a c _ _ _ _ Ha Hna Hnc E) by lia.
    now intros ->%Z.compare_eq_iff.
  - intros a b c Ha Hb Hc.
    destruct (size_num a Ha) as (n1 & e1 & Hna).
    destruct (size_num b Hb) as (n2 & e2 & Hnb).
    destruct (size_num c Hc) as (n3 & e3 & Hnc).
    set (E := Z.min e1 (Z.min e2 e3)).
    rewrite (size_compare a b _ _ _ _ Ha Hna Hnb E) by lia.
    rewrite (size_compare b c _ _ _ _ Hb Hnb Hnc E) by lia.
    rewrite (size_compare a c _ _ _ _ Ha Hna Hnc E) by lia.
    rewrite !Z.compare_lt_iff. lia.
  - intros a b Ha Hb.
    destruct (size_num a Ha) as (n1 & e1 & Hna).
    destruct (size_num b Hb) as (n2 & e2 & Hnb).
    assert (Hcmp : value_compare a b
                   = default Eq (num_compare (NFin n1 e1) (NFin n2 e2))).
    { destruct a; try discriminate; unfold value_compare;
        now rewrite Hna, Hnb. }
    assert (Heq : py_eq a b = bool_decide (normal (NFin n1 e1)
                                           = normal (NFin n2 e2))).
    { destruct a, b; try discriminate; cbn [py_eq];
        now rewrite Hna, Hnb. }
    assert (Hlt : py_lt a b
                  = Ok (match num_compare (NFin n1 e1) (NFin n2 e2) with
                        | Some Lt => true
                        | _ => false
                        end)).
    { destruct a, b; try discriminate; cbn [py_lt];
        now rewrite Hna, Hnb. }
    rewrite Hcmp, Heq, Hlt.
    pose proof (normal_eq_iff n1 e1 n2 e2) as Hnormal.
    destruct (num_compare (NFin n1 e1) (NFin n2 e2)) as [[]|] eqn:Hc;
      cbn [default id]; (split; [|reflexivity]).
    + apply bool_decide_eq_true_2. now apply Hnormal.
    + apply bool_decide_eq_false_2. intros Hn. apply Hnormal in Hn.
      discriminate.
    + apply bool_decide_eq_false_2. intros Hn. apply Hnormal in Hn.
      discriminate.
    + discriminate Hc.
Qed.

Section OrderFacts.
Context {A : Type} (ltb : A -> A -> bool).

Lemma insert_row_sorted (x : A) (l : list A) :
  (forall y, y ∈ l -> ltb y x = true -> ltb x y = false) ->
  Sorted (fun a b => ltb b a = false) l ->
  Sorted (fun a b => ltb b a = false) (insert_row ltb x l).
Proof.
  intros Hasym. induction 1 as [|y l Hsorted IH Hhd]; cbn [insert_row].
  - repeat constructor.
  - destruct (ltb y x) eqn:Hyx.
    + constructor.
      * apply IH. intros z Hz. apply Hasym. now apply list_elem_of_further.
      * destruct Hhd as [|z l Hyz]; cbn [insert_row].
        -- constructor. apply Hasym; [apply list_elem_of_here|assumption].
        -- destruct (ltb z x); constructor; [assumption|].
           apply Hasym; [apply list_elem_of_here|assumption].
    + constructor; [now constructor|]. now constructor.
Qed.

Lemma stable_sort_sorted (l : list A) :
  (forall a b, a ∈ l -> b ∈ l -> ltb a b = true -> ltb b a = false) ->
  Sorted (fun a b => ltb b a = false) (stable_sort ltb l).
Proof.
  unfold stable_sort. induction l as [|x l IH]; intros Hasym; [constructor|].
  cbn [foldr]. apply insert_row_sorted.
  - intros y Hy. apply Hasym; [|apply list_elem_of_here].
    apply list_elem_of_further.
    now rewrite <- (stable_sort_permutes ltb l).
  - apply IH. intros a b Ha Hb. apply Hasym; now apply list_elem_of_further.
Qed.

Lemma stable_sort_ties (l : list A) :
  (forall x y, x ∈ l -> y ∈ l -> ltb x y = false) ->
  stable_sort ltb l = l.
Proof.
  unfold stable_sort. induction l as [|x l IH]; intros Hties; [reflexivity|].
  cbn [foldr]. rewrite IH.
  - destruct l as [|y l]; [reflexivity|]. cbn [insert_row].
    rewrite Hties; [reflexivity|apply list_elem_of_further|];
      apply list_elem_of_here.
  - intros y z Hy Hz. apply Hties; now apply list_elem_of_further.
Qed.
End OrderFacts.

(** [<] raises nothing but [TypeError]. *)
Lemma py_lt_raises : forall (a b : json) (x : exn),
  py_lt a b = Raise x -> x = TypeError.
Proof.
  fix IH 1. intros a b x. destruct a as [| | | | |items|fields]; destruct b;
    cbn [py_lt to_num]; try (now intros [= <-]); try discriminate.
  revert items0. induction items as [|v items IHitems]; intros [|w ws];
    try discriminate.
  destruct (py_eq v w); [apply IHitems|apply IH].
Qed.

Lemma tuple_lt_raises (a b : json * json) (x : exn) :
  tuple_lt a b = Raise x -> x = TypeError.
Proof.
  unfold tuple_lt. destruct (py_eq a.1 b.1); [|apply py_lt_raises].
  destruct (py_eq a.2 b.2); [discriminate|apply py_lt_raises].
Qed.

Section KeyFacts.
Context (P1 P2 : json -> bool) (H1 : orders P1) (H2 : orders P2).

Lemma tuple_lt_kind (a b : json * json) :
  kind P1 P2 a -> kind P1 P2 b ->
  tuple_lt a b = Ok (match key_compare a b with Lt => true | _ => false end).
Proof.
  intros [Ha1 Ha2] [Hb1 Hb2]. unfold tuple_lt, key_compare.
  destruct H1 as (_ & _ & _ & Hv1). destruct H2 as (_ & _ & _ & Hv2).
  destruct (Hv1 _ _ Ha1 Hb1) as [-> ->].
  destruct (Hv2 _ _ Ha2 Hb2) as [-> ->].
  destruct (value_compare a.1 b.1); try reflexivity.
  now destruct (value_compare a.2 b.2).
Qed.

Lemma key_compare_antisym (a b : json * json) :
  kind P1 P2 a -> kind P1 P2 b -> key_compare b a = CompOpp (key_compare a b).
Proof.
  intros [Ha1 Ha2] [Hb1 Hb2]. unfold key_compare.
  destruct H1 as (Hs1 & _). destruct H2 as (Hs2 & _).
  rewrite (Hs1 _ _ Ha1 Hb1), (Hs2 _ _ Ha2 Hb2).
  now destruct (value_compare a.1 b.1).
Qed.

Lemma key_compare_Eq (a b c : json * json) :
  kind P1 P2 a -> kind P1 P2 b -> kind P1 P2 c ->
  key_compare a b = Eq -> key_compare b c = key_compare a c.
Proof.
  intros [Ha1 Ha2] [Hb1 Hb2] [Hc1 Hc2]. unfold key_compare.
  destruct H1 as (_ & He1 & _). destruct H2 as (_ & He2 & _).
  destruct (value_compare a.1 b.1) eqn:Hab1; try discriminate.
  intros Hab2.
  rewrite (He1 _ _ _ Ha1 Hb1 Hc1 Hab1), (He2 _ _ _ Ha2 Hb2 Hc2 Hab2).
  reflexivity.
Qed.

Lemma key_compare_Lt (a b c : json * json) :
  kind P1 P2 a -> kind P1 P2 b -> kind P1 P2 c ->
  key_compare a b = Lt -> key_compare b c = Lt -> key_compare a c = Lt.
Proof.
  intros [Ha1 Ha2] [Hb1 Hb2] [Hc1 Hc2]. unfold key_compare.
  destruct H1 as (Hs1 & He1 & Ht1 & _). destruct H2 as (_ & _ & Ht2 & _).
  destruct (value_compare a.1 b.1) eqn:Hab1; try discriminate.
  - rewrite <- (He1 _ _ _ Ha1 Hb1 Hc1 Hab1).
    destruct (value_compare b.1 c.1); try discriminate; [|reflexivity].
    apply Ht2; assumption.
  - intros _. destruct (value_compare b.1 c.1) eqn:Hbc1; try discriminate.
    + assert (Hcb1 : value_compare c.1 b.1 = Eq)
        by (now rewrite (Hs1 _ _ Hb1 Hc1), Hbc1).
      pose proof (He1 _ _ _ Hc1 Hb1 Ha1 Hcb1) as Hba.
      rewrite (Hs1 _ _ Ha1 Hb1), Hab1 in Hba. cbn in Hba.
      rewrite (Hs1 _ _ Hc1 Ha1), <- Hba. reflexivity.
    + intros _. now rewrite (Ht1 _ _ _ Ha1 Hb1 Hc1 Hab1 Hbc1).
Qed.

Context {A : Type} (key : A -> json * json).

Lemma key_ltb_kind (x y : A) :
  kind P1 P2 (key x) -> kind P1 P2 (key y) ->
  tuple_lt (key x) (key y) = Ok (key_ltb key x y)
  /\ key_ltb key x y
     = match key_compare (key x) (key y) with Lt => true | _ => false end.
Proof.
  intros Hx Hy. unfold key_ltb. now rewrite (tuple_lt_kind _ _ Hx Hy).
Qed.

(** Keys of one kind are ordered consistently. *)
Lemma keys_consistent (rows : list A) :
  Forall (fun r => kind P1 P2 (key r)) rows ->
  consistent (key_ltb key) rows.
Proof.
  intros Hkind. rewrite Forall_forall in Hkind. split.
  - intros a b Ha Hb.
    destruct (key_ltb_kind a b (Hkind a Ha) (Hkind b Hb)) as [_ ->].
    destruct (key_ltb_kind b a (Hkind b Hb) (Hkind a Ha)) as [_ ->].
    rewrite (key_compare_antisym (key a) (key b)) by auto.
    now destruct (key_compare (key a) (key b)).
  - intros a b c Ha Hb Hc.
    destruct (key_ltb_kind a c (Hkind a Ha) (Hkind c Hc)) as [_ ->].
    destruct (key_ltb_kind a b (Hkind a Ha) (Hkind b Hb)) as [_ ->].
    destruct (key_ltb_kind b c (Hkind b Hb) (Hkind c Hc)) as [_ ->].
    destruct (key_compare (key a) (key b)) eqn:Hab; [|now left|].
    + rewrite (key_compare_Eq _ _ _ (Hkind a Ha) (Hkind b Hb) (Hkind c Hc) Hab).
      now right.
    + destruct (key_compare (key a) (key c)) eqn:Hac; try discriminate.
      intros _. right.
      assert (Hba : key_compare (key b) (key a) = Lt)
        by (now rewrite (key_compare_antisym (key a) (key b)), Hab by auto).
      now rewrite (key_compare_Lt _ _ _ (Hkind b Hb) (Hkind a Ha)
                     (Hkind c Hc) Hba Hac).
Qed.
End KeyFacts.

Section Stability.
Context (P1 P2 : json -> bool) (H1 : orders P1) (H2 : orders P2).
Context {A : Type} (key : A -> json * json).

(** A row goes in front of the rows with its key. *)
Lemma insert_row_same_key (k : json * json) (x : A) (l : list A) :
  kind P1 P2 k -> kind P1 P2 (key x) ->
  Forall (fun r => kind P1 P2 (key r)) l ->
  filter (fun r => same_key key k r = true) (insert_row (key_ltb key) x l)
  = filter (fun r => same_key key k r = true) (x :: l).
Proof.
  intros Hk Hx. induction 1 as [|y l Hy _ IH]; [reflexivity|].
  cbn [insert_row]. destruct (key_ltb key y x) eqn:Hyx; [|reflexivity].
  rewrite filter_cons, IH, !filter_cons.
  destruct (decide (same_key key k x = true)) as [Hkx|_]; [|reflexivity].
  destruct (decide (same_key key k y = true)) as [Hky|_]; [|reflexivity].
  exfalso. unfold same_key in Hkx, Hky.
  destruct (key_ltb_kind P1 P2 H1 H2 key y x Hy Hx) as [_ Hlt].
  rewrite Hyx in Hlt.
  destruct (key_compare (key x) k) eqn:Hxk; try discriminate.
  destruct (key_compare (key y) k) eqn:Hyk; try discriminate.
  assert (Hky' : key_compare k (key y) = Eq)
    by (now rewrite (key_compare_antisym P1 P2 H1 H2 (key y) k), Hyk).
  pose proof (key_compare_Eq P1 P2 H1 H2 _ _ _ Hx Hk Hy Hxk) as Heq.
  rewrite Hky' in Heq.
  rewrite (key_compare_antisym P1 P2 H1 H2 (key x) (key y)), <- Heq in Hlt
    by assumption.
  discriminate.
Qed.

Lemma stable_sort_same_key (k : json * json) (l : list A) :
  kind P1 P2 k -> Forall (fun r => kind P1 P2 (key r)) l ->
  filter (fun r => same_key key k r = true) (stable_sort (key_ltb key) l)
  = filter (fun r => same_key key k r = true) l.
Proof.
  intros Hk. unfold stable_sort. induction 1 as [|x l Hx Hl IH]; [reflexivity|].
  cbn [foldr]. rewrite insert_row_same_key; try assumption.
  - now rewrite !filter_cons, IH.
  - fold (stable_sort (key_ltb key) l).
    apply Forall_forall. intros r Hr. rewrite Forall_forall in Hl. apply Hl.
    now rewrite <- (stable_sort_permutes (key_ltb key) l).
Qed.
End Stability.

Section SortFacts.
Context `{PyLib} {A : Type} (key : A -> json * json).

Lemma py_sort_kind (P1 P2 : json -> bool) (rows : list A) :
  orders P1 -> orders P2 ->
  Forall (fun r => kind P1 P2 (key r)) rows ->
  py_sort key rows = Ok (stable_sort (key_ltb key) rows).
Proof.
  intros H1 H2 Hkind. unfold py_sort. apply list_sort_orders.
  - rewrite Forall_forall in Hkind. intros a b Ha Hb.
    now apply (key_ltb_kind P1 P2 H1 H2 key a b); apply Hkind.
  - now apply (keys_consistent P1 P2).
Qed.

(** Where every comparison of two keys answers, the sort ends. *)
Lemma py_sort_ends (rows : list A) :
  (forall a b, a ∈ rows -> b ∈ rows ->
     exists below, tuple_lt (key a) (key b) = Ok below) ->
  exists out, py_sort key rows = Ok out.
Proof.
  intros Hanswers. destruct (py_sort key rows) as [out|x] eqn:Hsort; [eauto|].
  apply list_sort_raises in Hsort as (a & b & Ha & Hb & Hraise).
  destruct (Hanswers a b Ha Hb) as [below Hok]. congruence.
Qed.

(** X8: the sort of a table returns the rows it was given, each once (none
    is lost, none is repeated), or raises [TypeError], which is what the
    comparison of the keys of two of the rows raises.  When the keys are
    pairs of strings, or pairs of a string and an integer or finite float,
    as they are for the events of the data model, the sort ends, no row is
    followed by a row with a smaller key, and rows with equal keys keep the
    order they had; rows none of which is below another stay as they are. *)
Theorem sort_permutes_and_orders (rows : list A) :
  (forall out, py_sort key rows = Ok out -> out ≡ₚ rows)
  /\ (forall x, py_sort key rows = Raise x ->
        x = TypeError
        /\ exists r1 r2,
             r1 ∈ rows /\ r2 ∈ rows
             /\ tuple_lt (key r1) (key r2) = Raise TypeError)
  /\ (Forall (fun r => text_key (key r) = true) rows
      \/ Forall (fun r => size_key (key r) = true) rows ->
      exists out,
        py_sort key rows = Ok out
        /\ Sorted (no_descent key) out
        /\ (forall r, r ∈ rows ->
              filter (fun r' => same_key key (key r) r' = true) out
              = filter (fun r' => same_key key (key r) r' = true) rows)
        /\ ((forall x y, x ∈ rows -> y ∈ rows -> key_ltb key x y = false) ->
            out = rows)).
Proof.
  split; [|split].
  - intros out. apply list_sort_permutes.
  - intros x Hsort. unfold py_sort in Hsort.
    apply list_sort_raises in Hsort as (a & b & Ha & Hb & Hraise).
    pose proof (tuple_lt_raises _ _ _ Hraise) as ->.
    split; [reflexivity|]. now exists a, b.
  - assert (Hkind : forall P2, orders P2 ->
              Forall (fun r => kind is_text P2 (key r)) rows ->
              exists out,
                py_sort key rows = Ok out
                /\ Sorted (no_descent key) out
                /\ (forall r, r ∈ rows ->
                      filter (fun r' => same_key key (key r) r' = true) out
                      = filter (fun r' => same_key key (key r) r' = true)
                          rows)
                /\ ((forall x y, x ∈ rows -> y ∈ rows ->
                       key_ltb key x y = false) -> out = rows)).
    { intros P2 H2 Hrows. exists (stable_sort (key_ltb key) rows).
      split; [now apply (py_sort_kind is_text P2); try apply text_orders|].
      split; [|split].
      - apply stable_sort_sorted.
        now apply (keys_consistent is_text P2 text_orders H2).
      - intros r Hr.
        apply (stable_sort_same_key is_text P2 text_orders H2);
          [|assumption].
        rewrite Forall_forall in Hrows. now apply Hrows.
      - apply stable_sort_ties. }
    intros [Htext|Hsize].
    + apply (Hkind is_text text_orders).
      eapply Forall_impl; [exact Htext|].
      intros r Hr. now apply andb_true_iff in Hr.
    + apply (Hkind is_size size_orders).
      eapply Forall_impl; [exact Hsize|].
      intros r Hr. now apply andb_true_iff in Hr.
Qed.
End SortFacts.

Lemma sort_witness :
  Forall (fun r => size_key (perf_key r) = true)
    [perf_of Sample.export; perf_of Sample.blur_new]
  /\ py_sort perf_key [perf_of Sample.export; perf_of Sample.blur_new]
     = Ok [perf_of Sample.blur_new; perf_of Sample.export]
  /\ exists out,
       py_sort perf_key [perf_of Sample.export; perf_of Sample.blur_new]
       = Ok out
       /\ Sorted (no_descent perf_key) out.
Proof.
  assert (Hkeys : Forall (fun r => size_key (perf_key r) = true)
                    [perf_of Sample.export; perf_of Sample.blur_new])
    by (repeat constructor).
  split; [exact Hkeys|]. split; [vm_compute; reflexivity|].
  destruct (proj2 (proj2 (sort_permutes_and_orders perf_key _)) (or_intror Hkeys))
    as (out & Hsort & Hsorted & _).
  now exists out.
Defined.

(** ** Logs of the data model *)

Lemma all_digits_ascii (s : string) : all_digits s = true -> is_ascii s = true.
Proof.
  induction s as [|c s IH]; [reflexivity|].
  cbn [all_digits is_ascii]. intros [Hc Hs]%andb_true_iff.
  rewrite (IH Hs), andb_true_r. unfold is_digit in Hc.
  apply andb_true_iff in Hc as [_ Hc%Nat.leb_le].
  unfold nat_of_ascii in Hc. apply N.ltb_lt. lia.
Qed.

Lemma fixed_text_ascii (places : nat) (neg : bool) (n : Z) :
  is_ascii (fixed_text places neg n) = true.
Proof.
  unfold fixed_text. rewrite !is_ascii_app, int_str_ascii.
  destruct neg, places as [|k]; try reflexivity;
    cbn [is_ascii andb]; rewrite is_ascii_app;
    now rewrite (all_digits_ascii _ (frac_digits_all_digits (S k) n)).
Qed.

Lemma float_fixed_ascii (places : nat) (f : spec_float) :
  is_ascii (float_fixed places f) = true.
Proof.
  destruct f as [neg|neg| |neg m e]; cbn [float_fixed];
    try apply fixed_text_ascii; try reflexivity.
  now destruct neg.
Qed.

Lemma format_f_ascii (places : nat) (v : json) (s : string) :
  format_f places v = Ok s -> is_ascii s = true.
Proof.
  destruct v as [|b|z|f| | |]; cbn [format_f]; try discriminate.
  - destruct (float_of_int _); cbn [rbind]; [|discriminate].
    intros [= <-]. apply float_fixed_ascii.
  - destruct (float_of_int z); cbn [rbind]; [|discriminate].
    intros [= <-]. apply float_fixed_ascii.
  - intros [= <-]. apply float_fixed_ascii.
Qed.

Lemma fmt_written (v : json) (k : nat) :
  measure_or_absent v = true ->
  exists s, _fmt v (S k) = Ok s /\ utf8_valid s = true.
Proof.
  intros Hv. destruct (fmt_numeric_cell k v) as (s & Hs & _).
  { destruct v; try (now right); now left. }
  exists s. split; [assumption|]. unfold _fmt in Hs.
  destruct (is_not_None v); [|now injection Hs as <-].
  now apply is_ascii_valid, (format_f_ascii (S k) v).
Qed.

Lemma cells_valid (l : list string) :
  forallb utf8_valid l = true -> utf8_valid (cells l) = true.
Proof.
  induction l as [|c l IH]; [reflexivity|].
  cbn [forallb cells]. intros [Hc Hl]%andb_true_iff.
  rewrite ascii_prefix_valid by reflexivity.
  apply utf8_valid_app; [assumption|].
  rewrite ascii_prefix_valid by reflexivity. now apply IH.
Qed.

Lemma py_or_text (v : json) :
  text_or_absent v = true -> is_text (py_or v (JStr "")) = true.
Proof.
  destruct v; try discriminate; intros _; unfold py_or; cbn; try reflexivity.
  now destruct (negb _).
Qed.

Lemma safe_text (v : json) :
  text_or_absent v = true -> is_text (_safe v) = true.
Proof. now destruct v. Qed.

Lemma py_or_size (v : json) :
  size_or_absent v = true -> is_size (py_or v (JInt 0)) = true.
Proof.
  destruct v as [| |z|f| | |]; try discriminate; unfold py_or; cbn;
    try reflexivity.
  - now destruct (negb (z =? 0)).
  - now destruct f.
Qed.

Lemma well_formed_key (e : event) :
  well_formed e = true -> exists k, probe_key e = Ok k.
Proof.
  unfold well_formed. intros Hwf.
  repeat (apply andb_true_iff in Hwf as [Hwf ?]).
  assert (Ht : forall v, text_or_absent v = true -> exists k, hkey_of v = Ok k)
    by (intros v; destruct v; try discriminate; cbn; eauto).
  assert (Hs : forall v, size_or_absent v = true -> exists k, hkey_of v = Ok k)
    by (intros v; destruct v; try discriminate; cbn; eauto).
  unfold probe_key.
  destruct (Ht (get e "suite")) as [? ->]; [assumption|].
  destruct (Ht (get e "label")) as [? ->]; [assumption|].
  destruct (Hs (get e "width")) as [? ->]; [assumption|].
  destruct (Hs (get e "height")) as [? ->]; [assumption|].
  destruct (Ht (get e "test")) as [? ->]; [assumption|].
  cbn [rbind]. eauto.
Qed.

Section WellFormed.
Context `{PyLib}.

Lemma safe_valid (v : json) :
  text_or_absent v = true -> utf8_valid (py_str (_safe v)) = true.
Proof. now destruct v. Qed.

Lemma size_str_valid (v : json) :
  size_or_absent v = true -> utf8_valid (py_str v) = true.
Proof.
  destruct v as [| |z|f| | |]; try discriminate; intros _; cbn [py_str].
  - reflexivity.
  - apply is_ascii_valid, int_str_ascii.
  - apply float_str_encodes.
Qed.

Lemma count_str_valid (v : json) :
  count_or_absent v = true -> utf8_valid (py_str v) = true.
Proof.
  destruct v as [| |z| | | |]; try discriminate; intros _; cbn [py_str].
  - reflexivity.
  - apply is_ascii_valid, int_str_ascii.
Qed.

Lemma perf_res_valid (r : perf_row) :
  size_or_absent (p_w r) = true -> size_or_absent (p_h r) = true ->
  utf8_valid (perf_res r) = true.
Proof.
  intros Hw Hh. unfold perf_res. destruct (_ && _); [|reflexivity].
  apply utf8_valid_app; [now apply size_str_valid|].
  rewrite ascii_prefix_valid by reflexivity. now apply size_str_valid.
Qed.

Local Ltac fields Hw :=
  unfold well_formed in Hw;
  repeat (apply andb_true_iff in Hw as [Hw ?]).

Local Ltac cell :=
  first [ assumption
        | apply safe_valid; assumption
        | apply count_str_valid; assumption
        | apply perf_res_valid; assumption ].

Lemma perf_line_written (e : event) :
  well_formed e = true ->
  kind is_text is_size (perf_key (perf_of e))
  /\ exists s, perf_line (perf_of e) = Ok s /\ utf8_valid s = true.
Proof.
  intros Hw. fields Hw. split.
  - split; [now apply py_or_text|now apply py_or_size].
  - unfold perf_line, _fmt_ms. fold (_fmt (p_avgMs (perf_of e)) 2).
    destruct (fmt_written (get e "avgMs") 1) as (s & Hs & Hvalid);
      [assumption|].
    cbn [perf_of p_avgMs p_label p_frames p_suite p_test]. rewrite Hs.
    cbn [rbind]. eexists. split; [reflexivity|].
    apply cells_valid. cbn [forallb].
    repeat (apply andb_true_iff; split); try reflexivity; cell.
Qed.

Lemma mem_line_written (e : event) :
  well_formed e = true ->
  kind is_text is_text (mem_key (mem_of e))
  /\ exists s, mem_line (mem_of e) = Ok s /\ utf8_valid s = true.
Proof.
  intros Hw. fields Hw. split.
  - split; now apply py_or_text.
  - unfold mem_line.
    destruct (fmt_written (get e "peakRSSDeltaMB") 2) as (s & Hs & Hvalid);
      [assumption|].
    cbn [mem_of m_peakRSSDeltaMB m_label m_message m_suite m_test].
    rewrite Hs. cbn [rbind]. eexists. split; [reflexivity|].
    apply cells_valid. cbn [forallb].
    repeat (apply andb_true_iff; split); try reflexivity; cell.
Qed.

Lemma color_line_written (e : event) :
  well_formed e = true ->
  kind is_text is_text (color_key (color_of e))
  /\ exists s, color_line (color_of e) = Ok s /\ utf8_valid s = true.
Proof.
  intros Hw. fields Hw. split.
  - split; now apply py_or_text.
  - unfold color_line.
    destruct (fmt_written (get e "deltaE2000Avg") 3) as (s & Hs & Hvs);
      [assumption|].
    destruct (fmt_written (get e "deltaE2000Max") 3) as (t & Ht & Hvt);
      [assumption|].
    cbn [color_of c_deltaEAvg c_deltaEMax c_label c_worst c_suite c_test].
    rewrite Hs, Ht. cbn [rbind]. eexists. split; [reflexivity|].
    apply cells_valid. cbn [forallb].
    repeat (apply andb_true_iff; split); try reflexivity; cell.
Qed.

Lemma studio_line_written (e : event) :
  well_formed e = true ->
  kind is_text is_text (studio_key (studio_of e))
  /\ exists s, studio_line (studio_of e) = Ok s /\ utf8_valid s = true.
Proof.
  intros Hw. fields Hw. split.
  - split; now apply py_or_text.
  - unfold studio_line.
    destruct (fmt_written (get e "lutMeanAbsErr") 7) as (s & Hs & Hvs);
      [assumption|].
    destruct (fmt_written (get e "lutMaxAbsErr") 7) as (t & Ht & Hvt);
      [assumption|].
    cbn [studio_of s_meanAbs s_maxAbs s_label s_worst s_suite s_test].
    rewrite Hs, Ht. cbn [rbind]. eexists. split; [reflexivity|].
    apply cells_valid. cbn [forallb].
    repeat (apply andb_true_iff; split); try reflexivity; cell.
Qed.

Lemma ocio_line_written (e : event) :
  well_formed e = true ->
  kind is_text is_text (ocio_key (ocio_of e))
  /\ exists s, ocio_line (ocio_of e) = Ok s /\ utf8_valid s = true.
Proof.
  intros Hw. fields Hw. split.
  - split; [now apply safe_text|now apply py_or_text].
  - unfold ocio_line.
    destruct (fmt_written (get e "ocioBakeMeanAbsErr") 9) as (s & Hs & Hvs);
      [assumption|].
    destruct (fmt_written (get e "ocioBakeMaxAbsErr") 9) as (t & Ht & Hvt);
      [assumption|].
    cbn [ocio_of o_meanAbs o_maxAbs o_name o_suite o_test].
    rewrite Hs, Ht. cbn [rbind]. eexists. split; [reflexivity|].
    apply cells_valid. cbn [forallb].
    repeat (apply andb_true_iff; split); try reflexivity; cell.
Qed.

(** A table of rows of one kind, each with a line that can be written, is
    sorted and written. *)
Lemma table_written {R} (P1 P2 : json -> bool) (key : R -> json * json)
    (title placeholder head rule : string) (row_line : R -> result string)
    (rows : list R) :
  orders P1 -> orders P2 ->
  is_ascii (title +:+ placeholder +:+ head +:+ rule) = true
  \/ (utf8_valid (line title +:+ nl) = true
      /\ utf8_valid (line placeholder +:+ nl) = true
      /\ utf8_valid (line head) = true /\ utf8_valid (line rule) = true) ->
  Forall (fun r => kind P1 P2 (key r)
                   /\ exists s, row_line r = Ok s /\ utf8_valid s = true)
         rows ->
  exists out,
    py_sort key rows = Ok out
    /\ forallb written_piece
         (section title placeholder head rule row_line out) = true.
Proof.
  intros H1 H2 Hconst Hrows.
  assert (Htexts : utf8_valid (line title +:+ nl) = true
                   /\ utf8_valid (line placeholder +:+ nl) = true
                   /\ utf8_valid (line head) = true
                   /\ utf8_valid (line rule) = true).
  { destruct Hconst as [Hascii|?]; [|assumption].
    rewrite !is_ascii_app in Hascii.
    apply andb_true_iff in Hascii as [Ht [Hp [Hh Hr]%andb_true_iff]%andb_true_iff].
    unfold line. repeat split; apply is_ascii_valid;
      rewrite !is_ascii_app; cbn [is_ascii nl];
      rewrite ?Ht, ?Hp, ?Hh, ?Hr; reflexivity. }
  destruct Htexts as (Ht & Hp & Hh & Hr).
  exists (stable_sort (key_ltb key) rows). split.
  - apply (py_sort_kind key P1 P2); try assumption.
    eapply Forall_impl; [exact Hrows|]. now intros r [? _].
  - assert (Hout : Forall (fun r => exists s, row_line r = Ok s
                                         /\ utf8_valid s = true)
                     (stable_sort (key_ltb key) rows)).
    { rewrite (stable_sort_permutes (key_ltb key) rows).
      eapply Forall_impl; [exact Hrows|]. now intros r [_ ?]. }
    unfold section. cbn [forallb written_piece]. rewrite Ht. cbn [andb].
    destruct (stable_sort (key_ltb key) rows) as [|r out] eqn:Hsorted.
    + cbn [forallb written_piece]. now rewrite Hp.
    + rewrite <- Hsorted in *. clear Hsorted.
      cbn [forallb written_piece]. rewrite Hh, Hr. cbn [andb].
      rewrite forallb_app. cbn [forallb written_piece].
      rewrite andb_true_r. apply forallb_forall. intros p Hp'.
      apply in_map_iff in Hp' as (r' & <- & Hr').
      rewrite Forall_forall in Hout.
      destruct (Hout r') as (s & -> & Hs); [now apply list_elem_of_In|].
      exact Hs.
Qed.

Lemma rows_of_well_formed {R} (gate : event -> bool) (row : event -> R)
    (P : R -> Prop) (survivors : list event) :
  (forall e, well_formed e = true -> P (row e)) ->
  Forall (fun e => well_formed e = true) survivors ->
  Forall P (row <$> filter (fun x => gate x = true) survivors).
Proof.
  intros Hrow Hall. apply Forall_fmap, Forall_forall.
  intros e [_ He]%list_elem_of_filter. apply Hrow.
  rewrite Forall_forall in Hall. auto.
Qed.

(** The tables of the events of the data model are sorted, and their
    sections can be written. *)
Lemma tables_written (events : list event) :
  Forall (fun e => well_formed e = true) events ->
  exists rs,
    tables events = Ok rs
    /\ forallb written_piece
         (perf_section (perf_rows rs) ++ mem_section (mem_rows rs)
          ++ color_section (color_rows rs) ++ studio_section (studio_rows rs)
          ++ ocio_section (ocio_rows rs)) = true.
Proof.
  intros Hall. unfold tables.
  destruct (dedup_loop_total events []) as [d Hrun].
  { eapply Forall_impl; [exact Hall|]. apply well_formed_key. }
  fold (last_by_key events) in Hrun. rewrite Hrun. cbn [rbind].
  assert (Hsurv : Forall (fun e => well_formed e = true) (values d)).
  { destruct (last_by_key_spec events d Hrun) as [_ Hin].
    apply Forall_forall. intros e He.
    apply (list_elem_of_fmap snd) in He as ([k e'] & -> & Hke).
    apply Hin, latest_is_event in Hke.
    rewrite Forall_forall in Hall. auto. }
  destruct (categorize_from (values d) no_rows) as (Hp & Hm & Hc & Hs & Ho).
  fold (categorize (values d)) in Hp, Hm, Hc, Hs, Ho.
  cbn [no_rows perf_rows mem_rows color_rows studio_rows ocio_rows app]
    in Hp, Hm, Hc, Hs, Ho.
  destruct (table_written is_text is_size perf_key
              "## Performance" "(no perf events found for this run)"
              "| label | res | frames | avgMs | suite | test |"
              "|---|---:|---:|---:|---|---|" perf_line
              (perf_rows (categorize (values d))) text_orders size_orders)
    as (perf & Hsp & Hwp); [now left| |].
  { rewrite Hp. apply rows_of_well_formed; [|assumption].
    apply perf_line_written. }
  destruct (table_written is_text is_text mem_key
              "## Memory" "(no memory events found for this run)"
              "| label | peakRSSDeltaMB | message | suite | test |"
              "|---|---:|---|---|---|" mem_line
              (mem_rows (categorize (values d))) text_orders text_orders)
    as (mem & Hsm & Hwm); [now left| |].
  { rewrite Hm. apply rows_of_well_formed; [|assumption].
    apply mem_line_written. }
  destruct (table_written is_text is_text color_key
              "## Color (ΔE2000)" "(no ΔE events found for this run)"
              "| label | ΔE avg | ΔE max | worst | suite | test |"
              "|---|---:|---:|---|---|---|" color_line
              (color_rows (categorize (values d))) text_orders text_orders)
    as (color & Hsc & Hwc); [right; repeat split; reflexivity| |].
  { rewrite Hc. apply rows_of_well_formed; [|assumption].
    apply color_line_written. }
  destruct (table_written is_text is_text studio_key
              "## Studio LUT Reference Match"
              "(no Studio LUT match events found for this run)"
              "| label | meanAbsErr | maxAbsErr | worst | suite | test |"
              "|---|---:|---:|---|---|---|" studio_line
              (studio_rows (categorize (values d))) text_orders text_orders)
    as (studio & Hss & Hws); [now left| |].
  { rewrite Hs. apply rows_of_well_formed; [|assumption].
    apply studio_line_written. }
  destruct (table_written is_text is_text ocio_key
              "## OCIO Re-bake Match"
              "(no OCIO bake match events found for this run)"
              "| name | meanAbsErr | maxAbsErr | suite | test |"
              "|---|---:|---:|---|---|" ocio_line
              (ocio_rows (categorize (values d))) text_orders text_orders)
    as (ocio & Hso & Hwo); [now left| |].
  { rewrite Ho. apply rows_of_well_formed; [|assumption].
    apply ocio_line_written. }
  unfold sort_rows. rewrite Hsp, Hsm, Hsc, Hss, Hso. cbn [rbind].
  eexists. split; [reflexivity|].
  cbn [perf_rows mem_rows color_rows studio_rows ocio_rows].
  unfold perf_section, mem_section, color_section, studio_section,
    ocio_section.
  rewrite !forallb_app, Hwp, Hwm, Hwc, Hws, Hwo. reflexivity.
Qed.

Lemma header_written (a : args) (now : utc) (events : list event) :
  utf8_valid (run_id a) = true ->
  Forall (fun e => well_formed e = true) events ->
  forallb written_piece (header_text (make_header a now events)) = true.
Proof.
  intros Hrun Hall.
  assert (Hfield : forall key,
            (forall e, well_formed e = true ->
                       text_or_absent (get e key) = true) ->
            forall pre, is_ascii pre = true ->
            forallb written_piece
              (if truthy (first_field events key)
               then [Ok (line (pre +:+ py_str (first_field events key)
                               +:+ "`"))]
               else []) = true).
  { intros key Hkey pre Hpre. destruct events as [|e events]; [reflexivity|].
    cbn [first_field]. apply Forall_cons in Hall as [He _].
    specialize (Hkey e He).
    destruct (get e key) as [| | | |s| |]; try discriminate; [reflexivity|].
    destruct (truthy (JStr s)); [|reflexivity].
    cbn [forallb written_piece py_str].
    now rewrite quoted_line_valid. }
  unfold header_text.
  cbn [make_header h_runID h_count h_generatedUTC h_osVersion h_arch].
  rewrite !forallb_app. cbn [forallb written_piece].
  rewrite (quoted_line_valid "- runID: `") by (assumption || reflexivity).
  rewrite (quoted_line_valid "- events: `")
    by (reflexivity || apply is_ascii_valid, int_str_ascii).
  rewrite (Hfield "osVersion"), (Hfield "processArch"); try reflexivity.
  - destruct (truthy (JStr (strftime now))); [|reflexivity].
    cbn [forallb written_piece].
    rewrite (quoted_line_valid "- generatedUTC: `"); [reflexivity..|].
    apply is_ascii_valid, strftime_ascii.
  - intros e He. unfold well_formed in He.
    repeat (apply andb_true_iff in He as [He ?]). assumption.
  - intros e He. unfold well_formed in He.
    repeat (apply andb_true_iff in He as [He ?]). assumption.
Qed.

Lemma run_events_of_log (a : args) (fs : files) :
  readable_log (default "" (fs !! perf_jsonl a)) ->
  run_events a fs
  = Ok (log_events (run_id a) (default "" (fs !! perf_jsonl a))).
Proof.
  intros (Hbytes & Hlines & Hobjects). unfold run_events, log_events.
  destruct (fs !! perf_jsonl a) as [stored|]; cbn [default id] in *.
  - rewrite read_jsonl_readable by assumption. cbn [rbind].
    now apply run_filter_objects.
  - reflexivity.
Qed.

(** X9: a log of the data model never makes [main] fail.  The log, if there
    is one, is UTF-8, [json.loads] raises nothing but [JSONDecodeError] on
    its lines, and the lines that parse are objects.  Every event of the run
    has strings that can be encoded (or nothing) as [suite], [label],
    [test], [ocioBakeName], [message], the two worst patches, [osVersion]
    and [processArch], integers or finite floats (or nothing) as [width]
    and [height], an integer (or nothing) as [frames], finite numbers (or
    nothing) as its eight measurements, and a JSON text that can be
    encoded.  The run identifier and the paths can be encoded, and the
    index, if there is one, is UTF-8.  Then the run ends and leaves
    [events.jsonl], [summary.md] and the index. *)
Theorem well_formed_log_never_fails
    (a : args) (now : utc) (fs : files) :
  readable_log (default "" (fs !! perf_jsonl a)) ->
  Forall (fun e => well_formed e = true
                   /\ utf8_valid (json_dumps (JObj e)) = true)
         (log_events (run_id a) (default "" (fs !! perf_jsonl a))) ->
  encodable_args a = true ->
  utf8_valid (default "" (fs !! index_md a)) = true ->
  exists fs',
    main a now fs = (fs', None)
    /\ fs' !! events_jsonl a
       = Some (events_text
                 (log_events (run_id a) (default "" (fs !! perf_jsonl a))))
    /\ is_Some (fs' !! summary_md a)
    /\ is_Some (fs' !! index_md a).
Proof.
  intros Hlog Hall Hargs Hindex.
  set (events := log_events (run_id a) (default "" (fs !! perf_jsonl a))) in *.
  pose proof (run_events_of_log a fs Hlog) as Hevents. fold events in Hevents.
  assert (Hwf : Forall (fun e => well_formed e = true) events)
    by (eapply Forall_impl; [exact Hall|]; now intros e [? _]).
  assert (Harchive : write_all (events_lines events)
                     = (events_text events, None)).
  { apply events_lines_written.
    eapply Forall_impl; [exact Hall|]. now intros e [_ ?]. }
  destruct (tables_written events Hwf) as (rs & Hrows & Htables).
  destruct (encodable_args_paths a Hargs) as (Hrun & Hre & Hrs & Hentry).
  assert (Htext : write_all (report a now events rs)
                  = (concat_lines (texts_of (report a now events rs)), None)).
  { apply write_all_of_texts. unfold report, summary_text.
    rewrite !forallb_app in Htables. rewrite !forallb_app.
    do 4 (apply andb_true_iff in Htables as [? Htables]).
    apply andb_true_iff; split; [now apply header_written|].
    do 5 (apply andb_true_iff; split; [assumption|]).
    unfold files_section. cbn [forallb written_piece].
      rewrite (quoted_line_valid "- events: `")
      by (assumption || reflexivity).
    rewrite (quoted_line_valid "- summary: `")
      by (assumption || reflexivity).
    reflexivity. }
  rewrite (main_runs a now fs events rs _ Hevents Harchive Hrows Htext).
  destruct (distinct_files a) as (Hes & Hei & Hsi & _).
  destruct (index_step_ends a
              (<[summary_md a := concat_lines
                                   (texts_of (report a now events rs))]>
                 (<[events_jsonl a := events_text events]> fs)))
    as [fs' Hstep]; [|assumption|].
  { now rewrite !lookup_insert_ne by congruence. }
  exists fs'. split; [assumption|].
  destruct (index_step_ended _ _ _ Hstep) as (Hidx & _ & _ & Hother).
  rewrite !Hother by congruence. rewrite Hidx.
  rewrite lookup_insert_eq, lookup_insert_ne, lookup_insert_eq by congruence.
  repeat split; eauto.
Qed.
End WellFormed.

Lemma well_formed_log_witness :
  readable_log (default "" (Sample.fs !! perf_jsonl Sample.a))
  /\ log_events "A" (default "" (Sample.fs !! perf_jsonl Sample.a))
     = [Sample.blur_old; Sample.macbeth; Sample.blur_new]
  /\ exists fs', main Sample.a Sample.noon Sample.fs = (fs', None).
Proof.
  assert (Hstored : default "" (Sample.fs !! perf_jsonl Sample.a) = Sample.log)
    by (vm_compute; reflexivity).
  assert (Hlines : text_lines Sample.log
                   = [Sample.log_line Sample.blur_old;
                      Sample.log_line Sample.macbeth; line "{bad";
                      Sample.log_line Sample.blur_new;
                      Sample.log_line Sample.other_run])
    by (vm_compute; reflexivity).
  assert (Hlog : readable_log (default "" (Sample.fs !! perf_jsonl Sample.a))).
  { rewrite Hstored. split; [vm_compute; reflexivity|]. split.
    - rewrite Hlines. repeat constructor; intros x; vm_compute;
        congruence.
    - vm_compute. reflexivity. }
  assert (Hevents : log_events "A"
                      (default "" (Sample.fs !! perf_jsonl Sample.a))
                    = [Sample.blur_old; Sample.macbeth; Sample.blur_new])
    by (vm_compute; reflexivity).
  split; [exact Hlog|]. split; [exact Hevents|].
  destruct (well_formed_log_never_fails Sample.a Sample.noon Sample.fs Hlog)
    as (fs' & Hrun & _).
  - change (run_id Sample.a) with "A". rewrite Hevents.
    repeat constructor.
  - reflexivity.
  - reflexivity.
  - exists fs'. exact Hrun.
Defined.
(** ** The index over the runs *)

Lemma entry_not_in_preamble (run rel_run : string) :
  contains (index_line run rel_run) index_preamble = false.
Proof. reflexivity. Qed.

Lemma preamble_no_cr : universal_newlines index_preamble = index_preamble.
Proof. reflexivity. Qed.

Lemma split1_cons (sep : string) (c : ascii) (s : string) :
  String.prefix sep (String c s) = false ->
  split1 sep (String c s)
  = match split1 sep s with
    | [head; rest] => [String c head; rest]
    | _ => [String c s]
    end.
Proof. intros Hp. cbn [split1]. now rewrite Hp. Qed.

Lemma split1_here (sep tail : string) :
  split1 sep (sep +:+ tail) = [""; tail].
Proof.
  assert (Hp : String.prefix sep (sep +:+ tail) = true)
    by (apply prefix_spec; now exists tail).
  pose proof (drop_bytes_app sep tail) as Hd.
  destruct (sep +:+ tail) as [|c s]; cbn [split1]; now rewrite Hp, Hd.
Qed.

Lemma split1_preamble (tail : string) :
  split1 runs_marker (index_preamble +:+ tail)
  = [line "# Metrics Runs" +:+ nl
     +:+ line "Each run is stored under `test_outputs/metrics/<runID>/`."
     +:+ nl +:+ line "Run with: `scripts/run_metrics.sh`" +:+ nl; tail].
Proof.
  unfold index_preamble. rewrite !sapp_assoc.
  pose proof (split1_here runs_marker tail) as Hhere.
  set (after := runs_marker +:+ tail) in *. clearbody after.
  match goal with
  | |- split1 _ ?text = _ =>
      let text' := eval vm_compute in text in change text with text'
  end.
  repeat (rewrite split1_cons by (vm_compute; reflexivity)).
  rewrite Hhere. reflexivity.
Qed.

Lemma with_entry_preamble (tail entry : string) :
  with_entry (index_preamble +:+ tail) entry
  = index_preamble +:+ entry +:+ tail.
Proof.
  unfold with_entry. rewrite split1_preamble.
  unfold index_preamble. now rewrite !sapp_assoc.
Qed.

(** X10: on first use the index is created: after a run that finds no index
    file, the file holds the preamble followed by the entry of the run, and
    nothing else. *)
Theorem first_run_creates_the_index
    `{PyLib} (a : args) (now : utc) (fs fs' : files) :
  fs !! index_md a = None ->
  main a now fs = (fs', None) ->
  fs' !! index_md a = Some (index_preamble +:+ index_entry a).
Proof.
  intros Hnone Hrun.
  destruct (main_files a now fs fs' Hrun)
    as (_ & _ & _ & _ & _ & _ & _ & _ & _ & -> & _).
  rewrite Hnone. unfold index_after. cbn [default id].
  rewrite preamble_no_cr. unfold index_entry at 1.
  rewrite entry_not_in_preamble.
  rewrite <- (sapp_nil_r index_preamble) at 1.
  now rewrite with_entry_preamble, sapp_nil_r.
Qed.

Lemma first_run_witness :
  Sample.fs !! index_md Sample.a = None
  /\ main Sample.a Sample.noon Sample.fs = (Sample.first_run, None)
  /\ Sample.first_run !! index_md Sample.a
     = Some (index_preamble +:+ index_line "A" "A").
Proof.
  assert (Hnone : Sample.fs !! index_md Sample.a = None)
    by (vm_compute; reflexivity).
  split; [exact Hnone|]. split; [exact sample_first_run|].
  exact (first_run_creates_the_index
           Sample.a Sample.noon Sample.fs Sample.first_run
           Hnone sample_first_run).
Defined.

(** X11: the runs are listed newest first.  In an index that starts with
    the preamble, a new entry is put right under the heading, in front of
    every entry already there; so does a run of [main] on such an index,
    when what is there has no carriage return. *)
Theorem new_entry_goes_first
    `{PyLib} (entries entry : string) :
  contains entry (index_preamble +:+ entries) = false ->
  update_index (index_preamble +:+ entries) entry
  = index_preamble +:+ entry +:+ entries
  /\ (forall a now fs fs',
        index_entry a = entry ->
        fs !! index_md a = Some (index_preamble +:+ entries) ->
        no_cr entries = true ->
        main a now fs = (fs', None) ->
        fs' !! index_md a = Some (index_preamble +:+ entry +:+ entries)).
Proof.
  intros Hnew. split.
  - unfold update_index. rewrite Hnew. cbn [negb]. apply with_entry_preamble.
  - intros a now fs fs' <- Hfile Hcr Hrun.
    destruct (main_files a now fs fs' Hrun)
      as (_ & _ & _ & _ & _ & _ & _ & _ & _ & -> & _).
    rewrite Hfile, index_after_Some.
    rewrite universal_newlines_id.
    + now rewrite Hnew, with_entry_preamble.
    + rewrite no_cr_app, Hcr. reflexivity.
Qed.

Lemma new_entry_witness :
  contains (index_line "B" "B") (index_preamble +:+ index_line "A" "A")
  = false
  /\ update_index (index_preamble +:+ index_line "A" "A") (index_line "B" "B")
     = index_preamble +:+ index_line "B" "B" +:+ index_line "A" "A".
Proof.
  assert (Hnew : contains (index_line "B" "B")
                   (index_preamble +:+ index_line "A" "A") = false)
    by (vm_compute; reflexivity).
  split; [exact Hnew|].
  exact (proj1 (new_entry_goes_first (index_line "A" "A") (index_line "B" "B")
                  Hnew)).
Defined.

(** ** Relative paths *)

Lemma common_prefix_len_app (start rest : path) :
  common_prefix_len start (start ++ rest) = length start.
Proof.
  induction start as [|x start IH]; [now destruct rest|].
  cbn [app common_prefix_len length]. now rewrite String.eqb_refl, IH.
Qed.

Lemma relpath_inside (start rest : path) :
  relpath (start ++ rest) start
  = match rest with
    | [] => "."
    | _ => join_components rest
    end.
Proof.
  unfold relpath. rewrite common_prefix_len_app, Nat.sub_diag.
  cbn [repeat app]. now rewrite drop_app_length.
Qed.

(** X12: for an output directory inside the repository, the two paths of the
    Files section are the components below the repository root joined by
    [/], with no [..]; and for an output directory that is a child of
    [test_outputs/metrics], the entry of the index links [summary.md] under
    the name of that child. *)
Theorem paths_inside_the_repository
    (a : args) (below : path) (name : string) :
  (out_dir a = repo_root a ++ below ->
     relpath (events_jsonl a) (repo_root a)
     = join_components (below ++ ["events.jsonl"])
     /\ relpath (summary_md a) (repo_root a)
        = join_components (below ++ ["summary.md"]))
  /\ (out_dir a = (metrics_root a / name)%path ->
        index_entry a
        = line ("- `" +:+ run_id a +:+ "`: `" +:+ name +:+ "/summary.md`")).
Proof.
  split.
  - intros Hout. unfold events_jsonl, summary_md, path_join. rewrite Hout.
    rewrite <- !List.app_assoc, !relpath_inside.
    split; now destruct below.
  - intros Hout. unfold index_entry, index_line. rewrite Hout.
    unfold path_join. now rewrite relpath_inside.
Qed.

Lemma paths_witness :
  out_dir Sample.a = (metrics_root Sample.a / "A")%path
  /\ index_entry Sample.a = line "- `A`: `A/summary.md`"
  /\ relpath (summary_md Sample.a) (repo_root Sample.a)
     = "test_outputs/metrics/A/summary.md".
Proof.
  assert (Hout : out_dir Sample.a = (metrics_root Sample.a / "A")%path)
    by reflexivity.
  split; [exact Hout|]. split.
  - exact (proj2 (paths_inside_the_repository Sample.a [] "A") Hout).
  - apply (proj1 (paths_inside_the_repository
                    Sample.a ["test_outputs"; "metrics"; "A"] "A")).
    reflexivity.
Defined.

(** ** The header and the archive *)

Section Header.
Context `{PyLib}.

Lemma report_header (a : args) (now : utc) (events : list event) (rs : rows)
    (text : string) :
  write_all (report a now events rs) = (text, None) ->
  exists rest,
    text = line "# MetaVis Metrics Run" +:+ nl
           +:+ line ("- runID: `" +:+ run_id a +:+ "`")
           +:+ line ("- events: `" +:+ int_str (Z.of_nat (length events))
                     +:+ "`")
           +:+ rest.
Proof.
  unfold report, summary_text, header_text.
  cbn [make_header h_runID h_count app write_all].
  repeat (destruct (utf8_valid _); [|discriminate]).
  destruct (write_all _) as [rest err]. intros [= <- _].
  exists rest. now rewrite !sapp_assoc.
Qed.

(** X13: the header counts the events of the run before deduplication, and
    that is the number of lines of [events.jsonl]: after a run, [summary.md]
    starts with the title, the run identifier and the number of events the
    filter kept, and, when [json.dumps] writes each event on one line,
    [events.jsonl] has as many lines. *)
Theorem header_counts_the_archived_events
    (a : args) (now : utc) (fs fs' : files) (events : list event) :
  run_events a fs = Ok events ->
  main a now fs = (fs', None) ->
  (exists rest,
     fs' !! summary_md a
     = Some (line "# MetaVis Metrics Run" +:+ nl
             +:+ line ("- runID: `" +:+ run_id a +:+ "`")
             +:+ line ("- events: `" +:+ int_str (Z.of_nat (length events))
                       +:+ "`")
             +:+ rest))
  /\ (Forall (fun e => one_line (json_dumps (JObj e)) = true) events ->
      exists archive,
        fs' !! events_jsonl a = Some archive
        /\ length (text_lines archive) = length events).
Proof.
  intros Hevents Hrun.
  destruct (main_files a now fs fs' Hrun)
    as (events' & rs & text & Hevents' & _ & _ & Htext & Harchive & Hsummary
        & _).
  rewrite Hevents in Hevents'. injection Hevents' as <-. split.
  - destruct (report_header a now events rs text Htext) as [rest ->].
    rewrite Hsummary. eauto.
  - intros Hlines. exists (events_text events). split; [assumption|].
    unfold events_text.
    replace (map (fun e => line (json_dumps (JObj e))) events)
      with (line <$> ((fun e => json_dumps (JObj e)) <$> events))
      by (now rewrite <- list_fmap_compose).
    rewrite text_lines_of_lines; [now rewrite !length_fmap|].
    now apply Forall_fmap.
Qed.
End Header.

Lemma header_count_witness :
  run_events Sample.a Sample.fs
  = Ok [Sample.blur_old; Sample.macbeth; Sample.blur_new]
  /\ main Sample.a Sample.noon Sample.fs = (Sample.first_run, None)
  /\ exists rest,
       Sample.first_run !! summary_md Sample.a
       = Some (line "# MetaVis Metrics Run" +:+ nl
               +:+ line ("- runID: `" +:+ "A" +:+ "`")
               +:+ line ("- events: `" +:+ int_str 3 +:+ "`")
               +:+ rest).
Proof.
  assert (Hevents : run_events Sample.a Sample.fs
                    = Ok [Sample.blur_old; Sample.macbeth; Sample.blur_new])
    by (vm_compute; reflexivity).
  split; [exact Hevents|]. split; [exact sample_first_run|].
  exact (proj1 (header_counts_the_archived_events
                  Sample.a Sample.noon Sample.fs Sample.first_run _
                  Hevents sample_first_run)).
Defined.

(** ** The index only grows *)

Lemma sapp_eq_sapp (a b c d : string) :
  a +:+ b = c +:+ d ->
  (exists m, a = c +:+ m /\ d = m +:+ b)
  \/ (exists m, c = a +:+ m /\ b = m +:+ d).
Proof.
  revert c. induction a as [|x a IH]; intros c Heq.
  - right. exists c. now rewrite !sapp_nil_l in *.
  - destruct c as [|y c].
    + left. exists (String x a). now rewrite !sapp_nil_l in *.
    + rewrite !sapp_cons in Heq. injection Heq as -> Heq.
      destruct (IH c Heq) as [(m & -> & ->)|(m & -> & ->)].
      * left. exists m. now rewrite sapp_cons.
      * right. exists m. now rewrite sapp_cons.
Qed.

Lemma one_line_app (s t : string) :
  one_line (s +:+ t) = one_line s && one_line t.
Proof.
  induction s as [|c s IH]; [reflexivity|].
  rewrite sapp_cons. cbn [one_line]. now rewrite IH, andb_assoc.
Qed.

(** A line is not cut in two by a line break. *)
Lemma line_not_straddling (old before after : string) :
  one_line old = true ->
  line old = (before +:+ nl) +:+ after -> after = "".
Proof.
  unfold line. intros Hold Heq. rewrite sapp_assoc in Heq.
  destruct (sapp_eq_sapp _ _ _ _ Heq) as [(k & Hk & Hafter)|(k & Hk & Hnl)].
  - destruct k as [|c k].
    + rewrite sapp_nil_l in Hafter. unfold nl in Hafter.
      rewrite sapp_cons, sapp_nil_l in Hafter. now injection Hafter.
    + unfold nl in Hafter. rewrite !sapp_cons in Hafter.
      injection Hafter as <- _. rewrite Hk, one_line_app in Hold.
      cbn [one_line] in Hold. rewrite Ascii.eqb_refl in Hold.
      cbn [negb andb] in Hold. now rewrite andb_false_r in Hold.
  - apply (f_equal String.length) in Hnl. rewrite !length_sapp in Hnl.
    cbn [nl String.length] in Hnl. destruct after; [reflexivity|].
    cbn [String.length] in Hnl. lia.
Qed.

(** A non-empty end of a text that ends with a line break ends with it. *)
Lemma suffix_of_line (s x m : string) :
  s +:+ nl = x +:+ m -> m <> "" -> exists m', m = m' +:+ nl.
Proof.
  intros Heq Hm. destruct (sapp_eq_sapp _ _ _ _ Heq) as [(k & _ & ->)|(k & _ & Hnl)].
  - eauto.
  - destruct k as [|c k].
    + exists "". now rewrite sapp_nil_l in *.
    + apply (f_equal String.length) in Hnl. rewrite sapp_cons in Hnl.
      cbn [nl String.length] in Hnl. rewrite length_sapp in Hnl.
      destruct m; [congruence|]. cbn [String.length] in Hnl. lia.
Qed.

Lemma with_entry_keeps_lines (existing entry old : string) :
  one_line old = true ->
  Substring (line old) existing ->
  Substring (line old) (with_entry existing entry).
Proof.
  intros Hold (x & y & Hexisting). unfold with_entry.
  destruct (split1_spec runs_marker existing)
    as [(head & rest & -> & Hsplit & _)|[-> _]].
  - rewrite <- (sapp_assoc head runs_marker).
    rewrite <- (sapp_assoc head runs_marker) in Hsplit.
    rewrite Hexisting in Hsplit. symmetry in Hsplit.
    destruct (sapp_eq_sapp _ _ _ _ Hsplit) as [(m & HP & Hrest)|(m & -> & ->)].
    + destruct (sapp_eq_sapp _ _ _ _ Hrest) as [(n & Hm & ->)|(n & -> & ->)].
      * destruct (String.eqb_spec m "") as [->|Hm0].
        -- rewrite sapp_nil_l in Hm. subst n.
           exists ((head +:+ runs_marker) +:+ entry), y.
           now rewrite !sapp_assoc.
        -- unfold runs_marker in HP. rewrite <- sapp_assoc in HP.
           destruct (suffix_of_line _ _ _ HP Hm0) as [m' ->].
           assert (Hn := line_not_straddling old m' n Hold Hm). subst n.
           rewrite sapp_nil_r in Hm. rewrite sapp_nil_l.
           unfold runs_marker. rewrite <- (sapp_assoc head), HP, <- Hm.
           exists x, (entry +:+ y). now rewrite !sapp_assoc.
      * rewrite HP. exists x, (n +:+ entry +:+ rest).
        now rewrite !sapp_assoc.
    + exists ((head +:+ runs_marker) +:+ entry +:+ m), y.
      now rewrite !sapp_assoc.
  - exists x, (y +:+ nl +:+ entry). rewrite Hexisting.
    now rewrite !sapp_assoc.
Qed.

(** X14: the index never loses a line.  A whole line of the text read from
    the index (a text without line break, followed by a line feed) is still
    in the text after the update, whether the entry is added after the
    marker, added at the end, or already there; so a run keeps in the index
    every line that was stored there without carriage return. *)
Theorem index_keeps_earlier_lines `{PyLib} (old : string) :
  one_line old = true ->
  (forall existing entry,
     contains (line old) existing = true ->
     contains (line old) (update_index existing entry) = true)
  /\ (forall a now fs fs' stored,
        fs !! index_md a = Some stored ->
        no_cr stored = true ->
        contains (line old) stored = true ->
        main a now fs = (fs', None) ->
        exists text,
          fs' !! index_md a = Some text
          /\ contains (line old) text = true).
Proof.
  intros Hold.
  assert (Hkeep : forall existing entry,
            contains (line old) existing = true ->
            contains (line old) (update_index existing entry) = true).
  { intros existing entry Hin. unfold update_index.
    destruct (contains entry existing); cbn [negb]; [assumption|].
    apply contains_spec, with_entry_keeps_lines; [assumption|].
    now apply contains_spec. }
  split; [exact Hkeep|].
  intros a now fs fs' stored Hfile Hcr Hin Hrun.
  destruct (main_files a now fs fs' Hrun)
    as (_ & _ & _ & _ & _ & _ & _ & _ & _ & -> & _).
  rewrite Hfile, index_after_Some, universal_newlines_id by assumption.
  eexists. split; [reflexivity|].
  specialize (Hkeep stored (index_entry a) Hin). unfold update_index in Hkeep.
  now destruct (contains (index_entry a) stored).
Qed.

Lemma index_keeps_earlier_lines_witness :
  one_line "- `A`: `A/summary.md`" = true
  /\ contains (line "- `A`: `A/summary.md`")
       (update_index (index_preamble +:+ index_line "A" "A")
          (index_line "B" "B"))
     = true.
Proof.
  assert (Hold : one_line "- `A`: `A/summary.md`" = true)
    by (vm_compute; reflexivity).
  split; [exact Hold|].
  apply (proj1 (@index_keeps_earlier_lines Sample.lib _ Hold)).
  vm_compute; reflexivity.
Defined.
